(** * Perplexica: caption search action and OpenAI provider adapter

    A shallow embedding of
    - the [caption_search] research action ([captionSearchAction.execute]),
    - [getCloudflareRAGURL] of [src/lib/config/serverRegistry.ts],
    - [OpenAILLM.convertToOpenAIMessages], [OpenAILLM.generateText],
      [OpenAILLM.streamText], [OpenAILLM.stripMarkdownCodeFence],
      [OpenAILLM.generateObject] and [OpenAILLM.streamObject] of
      [src/lib/models/providers/openai/openaiLLM.ts],
    together with the properties the specification states about them.

    Conventions.  A JavaScript string is a Rocq [string]; its characters are
    the code units below 256.  A JavaScript exception is represented by the
    text that [`${err}`] renders for it.  [undefined] is [None]. *)

From Stdlib Require Import ZArith Lia List Ascii String DecimalString.
From stdpp Require Import base option list strings gmap.

Set Warnings "-register-all".

Open Scope string_scope.
Open Scope list_scope.

(* ===================================================================== *)
(** * JavaScript values and strings *)
(* ===================================================================== *)

Module JS.

(** A completion record: a normal value or a thrown error. *)
Inductive completion (A : Type) : Type :=
  | Normal (a : A)
  | Throw (err : string).
Arguments Normal {A} a.
Arguments Throw {A} err.

Definition is_throw {A} (c : completion A) : bool :=
  match c with Throw _ => true | Normal _ => false end.

(** ** Strings *)

(** [WhiteSpace] and [LineTerminator] code points below 256: TAB, LF, VT, FF,
    CR, SP and NBSP.  Both [String.prototype.trim] and the regular expression
    class [\s] use this set. *)
Definition is_ws (c : ascii) : bool :=
  let n := nat_of_ascii c in
  (n =? 9)%nat || (n =? 10)%nat || (n =? 11)%nat || (n =? 12)%nat
  || (n =? 13)%nat || (n =? 32)%nat || (n =? 160)%nat.

Fixpoint trimStart (s : string) : string :=
  match s with
  | String c r => if is_ws c then trimStart r else s
  | EmptyString => EmptyString
  end.

Fixpoint trimEnd (s : string) : string :=
  match s with
  | String c r =>
      match trimEnd r with
      | EmptyString => if is_ws c then EmptyString else String c EmptyString
      | r' => String c r'
      end
  | EmptyString => EmptyString
  end.

(** [s.trim()] *)
Definition trim (s : string) : string := trimEnd (trimStart s).

(** [s.startsWith(p)] *)
Definition startsWith (s p : string) : bool := String.prefix p s.

(** [s.includes(p)] *)
Fixpoint includes (s p : string) : bool :=
  String.prefix p s ||
  match s with
  | String _ r => includes r p
  | EmptyString => false
  end.

(** The remainder of [s] after the literal [p], when [s] starts with [p]. *)
Fixpoint strip_prefix (p s : string) : option string :=
  match p, s with
  | EmptyString, _ => Some s
  | String a p', String b s' =>
      if Ascii.eqb a b then strip_prefix p' s' else None
  | String _ _, EmptyString => None
  end.

(** [s.replace(/_/g, ' ')] *)
Fixpoint replace_underscores (s : string) : string :=
  match s with
  | String c r =>
      String (if Ascii.eqb c "_" then " "%char else c) (replace_underscores r)
  | EmptyString => EmptyString
  end.

(** JavaScript truthiness of a string. *)
Definition truthy (s : string) : bool :=
  match s with EmptyString => false | _ => true end.

(** [a || b] on strings, where [a] may be [undefined]. *)
Definition or_else (a : option string) (b : string) : string :=
  match a with
  | Some s => if truthy s then s else b
  | None => b
  end.

(** Decimal rendering of a non-negative integer, as [`${n}`] prints a
    Number holding it (below 10^21). *)
Definition nat_to_string (n : nat) : string :=
  NilZero.string_of_uint (Nat.to_uint n).

(** [JSON.stringify(s)] for a string [s]: the quoted text, with the
    two-character escapes for backspace, tab, line feed, form feed, carriage
    return, the quotation mark and the backslash, and [\u00xx] for the
    other control characters. *)
Definition hex_digit (n : nat) : ascii :=
  ascii_of_nat (if (n <? 10)%nat then 48 + n else 87 + n).

Definition quote_char (c : ascii) : string :=
  let n := nat_of_ascii c in
  if (n =? 8)%nat then "\b"
  else if (n =? 9)%nat then "\t"
  else if (n =? 10)%nat then "\n"
  else if (n =? 12)%nat then "\f"
  else if (n =? 13)%nat then "\r"
  else if (n =? 34)%nat then String "\" (String c "")
  else if (n =? 92)%nat then "\\"
  else if (n <? 32)%nat then
    "\u00" +:+ String (hex_digit (n / 16)) (String (hex_digit (n mod 16)) "")
  else String c "".

Fixpoint quote_chars (s : string) : string :=
  match s with
  | String c r => quote_char c +:+ quote_chars r
  | EmptyString => EmptyString
  end.

Definition JSON_stringify_string (s : string) : string :=
  String (ascii_of_nat 34) (quote_chars s) +:+ String (ascii_of_nat 34) "".

(** ** JSON values

    What [JSON.parse], [res.json()] and the partial parser return.  The
    Number type and its rendering belong to the runtime and are kept
    abstract.  An object is its list of own properties; a parsed object has
    each key once. *)
Section Values.
Context {Number : Type}.
Variable Number_toString : Number -> string.

Inductive json : Type :=
  | JNull
  | JBool (b : bool)
  | JNum (n : Number)
  | JStr (s : string)
  | JArr (items : list json)
  | JObj (props : list (string * json)).

(** The empty object [{}]. *)
Definition empty_object : json := JObj [].

Fixpoint own_property (k : string) (props : list (string * json))
  : option json :=
  match props with
  | (k', v) :: rest => if String.eqb k k' then Some v else own_property k rest
  | [] => None
  end.

(** [v.k] for a property name [k] that no prototype defines (all the
    names the sources read are such): [undefined] on primitives and
    arrays, a TypeError on [null]. *)
Definition get (v : json) (k : string) : completion (option json) :=
  match v with
  | JNull =>
      Throw ("TypeError: Cannot read properties of null (reading '"
             +:+ k +:+ "')")
  | JObj props => Normal (own_property k props)
  | _ => Normal None
  end.

(** [ToString] as a template literal applies it.  An array joins its
    elements with commas, rendering [null] as the empty string; an object
    renders as [[object Object]] unless an own [toString] property (never
    callable in parsed JSON) hides [Object.prototype.toString], in which
    case the conversion throws. *)
Fixpoint ToString (v : json) : completion string :=
  match v with
  | JNull => Normal "null"
  | JBool true => Normal "true"
  | JBool false => Normal "false"
  | JNum n => Normal (Number_toString n)
  | JStr s => Normal s
  | JArr items =>
      let element (x : json) :=
        match x with JNull => Normal "" | _ => ToString x end in
      (fix join (l : list json) : completion string :=
         match l with
         | [] => Normal ""
         | [x] => element x
         | x :: rest =>
             match element x with
             | Throw e => Throw e
             | Normal sx =>
                 match join rest with
                 | Throw e => Throw e
                 | Normal sr => Normal (sx +:+ "," +:+ sr)
                 end
             end
         end) items
  | JObj props =>
      match own_property "toString" props with
      | Some _ => Throw "TypeError: Cannot convert object to primitive value"
      | None => Normal "[object Object]"
      end
  end.

(** [`${v}`] for a value that may be [undefined]. *)
Definition template (v : option json) : completion string :=
  match v with
  | None => Normal "undefined"
  | Some v => ToString v
  end.
End Values.

Arguments json : clear implicits.

End JS.

(* ===================================================================== *)
(** * The caption search action *)
(* ===================================================================== *)

Module CaptionSearch.
Import JS.

#[global] Instance completion_ret : MRet completion := @Normal.
#[global] Instance completion_bind : MBind completion :=
  fun A B (k : A -> completion B) (c : completion A) =>
    match c with
    | Normal a => k a
    | Throw e => Throw e
    end.

Section Action.
Context {Number : Type}.
Variable Number_toString : Number -> string.

Abbreviation json := (JS.json Number).

(** ** Data *)

(** [Chunk] of [@/lib/types], with the metadata this action fills in.
    The fields copied from the response hold whatever the response held. *)
Record Metadata : Type := {
  title : string;
  url : string;
  source : string;
  platform : option json;
  holiday : option json;
  imageCount : option json;
  score : option json
}.

Record Chunk : Type := {
  content : option json;
  metadata : Metadata
}.

(** The value [execute] resolves to. *)
Record ActionOutput : Type := {
  type : string;
  results : list Chunk
}.

Definition empty_output : ActionOutput :=
  {| type := "search_results"; results := [] |}.

(** [CloudflareSearchResult] and [CloudflareSearchResponse]: the shape the
    source expects of the response. *)
Record CloudflareSearchResult : Type := {
  r_id : string;
  r_content : string;
  r_folderName : string;
  r_platform : option string;
  r_holiday : option string;
  r_imageCount : Number;
  r_score : Number
}.

Record CloudflareSearchResponse : Type := {
  q_query : string;
  q_results : list CloudflareSearchResult;
  q_total : Number
}.

(** The JSON value a response of the expected shape parses to (an optional
    field that is absent has no property). *)
Definition optional_property (k : string) (v : option string)
  : list (string * json) :=
  match v with
  | Some s => [(k, JStr s)]
  | None => []
  end.

Definition result_json (r : CloudflareSearchResult) : json :=
  JObj ([("id", JStr (r_id r));
         ("content", JStr (r_content r));
         ("folderName", JStr (r_folderName r))]
        ++ optional_property "platform" (r_platform r)
        ++ optional_property "holiday" (r_holiday r)
        ++ [("imageCount", JNum (r_imageCount r));
            ("score", JNum (r_score r))]).

Definition response_json (d : CloudflareSearchResponse) : json :=
  JObj [("query", JStr (q_query d));
        ("results", JArr (map result_json (q_results d)));
        ("total", JNum (q_total d))].

(** An entry of a research block's [subSteps]. *)
Inductive SubStep : Type :=
  | SearchingStep (id : string) (searching : list string)
  | SearchResultsStep (id : string) (reading : list Chunk)
  | OtherStep (id : string) (ty : string).

Definition subStep_type (s : SubStep) : string :=
  match s with
  | SearchingStep _ _ => "searching"
  | SearchResultsStep _ _ => "search_results"
  | OtherStep _ ty => ty
  end.

(** Arrays are shared mutable objects: a block and a patch both hold a
    reference to the same [subSteps] array. *)
Definition ref := nat.

Inductive Block : Type :=
  | ResearchBlock (subSteps : ref)
  | OtherBlock (ty : string).

Definition is_research (b : option Block) : bool :=
  match b with
  | Some (ResearchBlock _) => true
  | _ => false
  end.

Record PatchOp : Type := {
  op : string;
  path : string;
  value : ref
}.

(** ** The remote call *)

Record Request : Type := {
  req_url : string;
  req_method : string;
  req_headers : list (string * string);
  req_body : string
}.

(** What [res.json()] settles to. *)
Inductive Body : Type :=
  | BodyJson (data : json)
  | BodyRejects (err : string).

Record Response : Type := {
  status : nat;
  body : Body
}.

(** [res.ok]: the status is in the range 200-299. *)
Definition ok (res : Response) : bool :=
  (200 <=? status res)%nat && (status res <=? 299)%nat.

(** What [fetch] settles to. *)
Inductive FetchOutcome : Type :=
  | FetchRejects (err : string)
  | FetchResolves (res : Response).

(** ** Effects *)

Inductive Event : Type :=
  | EvPush (array : ref) (entry : SubStep)
  | EvUpdateBlock (blockId : string) (patch : list PatchOp)
  | EvFetch (req : Request)
  | EvConsole (level : string) (args : list string).

(** The mutable state a call runs in: the array store, the session's blocks,
    the number of UUIDs drawn so far and everything done so far, in order. *)
Record State : Type := {
  arrays : gmap ref (list SubStep);
  blocks : gmap string Block;
  uuids_drawn : nat;
  trace : list Event
}.

(** What the call is given from outside. *)
Record World : Type := {
  env_CLOUDFLARE_RAG_URL : option string;
  config : gmap string string;
  fetch : Request -> FetchOutcome;
  uuid : nat -> string
}.

Definition M (A : Type) : Type := State -> completion A * State.

#[global] Instance M_ret : MRet M := fun A (a : A) s => (Normal a, s).
#[global] Instance M_bind : MBind M :=
  fun A B (k : A -> M B) (m : M A) s =>
    match m s with
    | (Normal a, s') => k a s'
    | (Throw e, s') => (Throw e, s')
    end.

(** [try { m } catch (err) { h err }]: the handler runs in the state the
    throw left behind. *)
Definition try_catch {A} (m : M A) (h : string -> M A) : M A :=
  fun s =>
    match m s with
    | (Throw e, s') => h e s'
    | r => r
    end.

Definition lift {A} (c : completion A) : M A := fun s => (c, s).

Definition emit (e : Event) : M unit :=
  fun s =>
    (Normal tt,
     {| arrays := arrays s; blocks := blocks s;
        uuids_drawn := uuids_drawn s; trace := trace s ++ [e] |}).

Definition console (level : string) (args : list string) : M unit :=
  emit (EvConsole level args).

(** ** Configuration: [src/lib/config/serverRegistry.ts] *)

(** Modelled from the spec: [configManager.getConfig] is not among the
    sources; the base URL comes from "an environment variable, falling
    back to a configuration lookup", here a lookup of the key in the stored
    configuration that yields the given default when the key is unset. *)
Definition getConfig (w : World) (key defaultValue : string) : string :=
  match config w !! key with
  | Some v => v
  | None => defaultValue
  end.

(** [process.env.CLOUDFLARE_RAG_URL ||
     configManager.getConfig('search.cloudflareRAGURL', '')] *)
Definition getCloudflareRAGURL (w : World) : string :=
  or_else (env_CLOUDFLARE_RAG_URL w)
          (getConfig w "search.cloudflareRAGURL" "").

(** ** The session collaborator *)

(** Modelled from the spec: the session class is not among the sources; it
    "exposes [getBlock(id)] returning a mutable block (or undefined) and
    [updateBlock(id, patchOps)] accepting JSON-patch-style operations".
    [getBlock] reads the block stored under the id. *)
Definition getBlock (blockId : string) : M (option Block) :=
  fun s => (Normal (blocks s !! blockId), s).

(** A [replace] operation on [/data/subSteps] makes the block's [subSteps]
    field hold the reference the operation carries. *)
Definition apply_op (o : PatchOp) (b : Block) : Block :=
  match b with
  | ResearchBlock l =>
      if String.eqb (op o) "replace" && String.eqb (path o) "/data/subSteps"
      then ResearchBlock (value o) else b
  | OtherBlock _ => b
  end.

Definition apply_patch (patch : list PatchOp) (b : Block) : Block :=
  fold_left (fun b o => apply_op o b) patch b.

(** Modelled from the spec: [updateBlock] applies the operations to the
    block stored under the id, in place, and the call is observable. *)
Definition updateBlock (blockId : string) (patch : list PatchOp) : M unit :=
  fun s =>
    (Normal tt,
     {| arrays := arrays s;
        blocks := alter (apply_patch patch) blockId (blocks s);
        uuids_drawn := uuids_drawn s;
        trace := trace s ++ [EvUpdateBlock blockId patch] |}).

(** ** Runtime services *)

(** [crypto.randomUUID()] *)
Definition randomUUID (w : World) : M string :=
  fun s =>
    (Normal (uuid w (uuids_drawn s)),
     {| arrays := arrays s; blocks := blocks s;
        uuids_drawn := S (uuids_drawn s); trace := trace s |}).

(** [array.push(entry)] on the array behind a reference. *)
Definition push (l : ref) (entry : SubStep) : M unit :=
  fun s =>
    (Normal tt,
     {| arrays := alter (fun a => a ++ [entry]) l (arrays s);
        blocks := blocks s;
        uuids_drawn := uuids_drawn s;
        trace := trace s ++ [EvPush l entry] |}).

(** [await fetch(url, init)] *)
Definition do_fetch (w : World) (req : Request) : M Response :=
  fun s =>
    let s' := {| arrays := arrays s; blocks := blocks s;
                 uuids_drawn := uuids_drawn s;
                 trace := trace s ++ [EvFetch req] |} in
    match fetch w req with
    | FetchRejects e => (Throw e, s')
    | FetchResolves res => (Normal res, s')
    end.

(** [await res.json()] *)
Definition res_json (res : Response) : M json :=
  match body res with
  | BodyJson data => mret data
  | BodyRejects e => lift (Throw e)
  end.

(** ** [captionSearchAction.execute] *)

Record Input : Type := { query : string }.

Record AdditionalConfig : Type := { researchBlockId : string }.

(** [JSON.stringify({ query: input.query, limit: 5, threshold: 0.5 })] *)
Definition request_body (q : string) : string :=
  "{" +:+ JSON_stringify_string "query" +:+ ":" +:+ JSON_stringify_string q
  +:+ "," +:+ JSON_stringify_string "limit" +:+ ":5,"
  +:+ JSON_stringify_string "threshold" +:+ ":0.5}".

Definition search_request (ragURL q : string) : Request :=
  {| req_url := ragURL +:+ "/search";
     req_method := "POST";
     req_headers := [("Content-Type", "application/json")];
     req_body := request_body q |}.

(** [r.folderName.replace(/_/g, ' ')]: only a string has a callable
    [replace]. *)
Definition folderName_replace (folderName : option json)
  : completion string :=
  match folderName with
  | Some (JStr s) => Normal (replace_underscores s)
  | Some JNull =>
      Throw "TypeError: Cannot read properties of null (reading 'replace')"
  | None =>
      Throw
        "TypeError: Cannot read properties of undefined (reading 'replace')"
  | Some _ => Throw "TypeError: r.folderName.replace is not a function"
  end.

(** The callback of [data.results.map]. *)
Definition to_chunk (r : json) : completion Chunk :=
  content_ ← get r "content";
  folderName ← get r "folderName";
  replaced ← folderName_replace folderName;
  id_ ← get r "id";
  id_text ← template Number_toString id_;
  platform_ ← get r "platform";
  holiday_ ← get r "holiday";
  imageCount_ ← get r "imageCount";
  score_ ← get r "score";
  mret {| content := content_;
          metadata :=
            {| title := "CraftyPanda: " +:+ replaced;
               url := "craftypanda://caption/" +:+ id_text;
               source := "CraftyPanda Historical";
               platform := platform_;
               holiday := holiday_;
               imageCount := imageCount_;
               score := score_ |} |}.

Fixpoint map_chunks (hits : list json) : completion (list Chunk) :=
  match hits with
  | [] => Normal []
  | r :: rest =>
      c ← to_chunk r;
      cs ← map_chunks rest;
      mret (c :: cs)
  end.

(** [data.results.map(...)]: only an array has a callable [map]. *)
Definition results_map (data : json) : completion (list Chunk) :=
  results_ ← get data "results";
  match results_ with
  | Some (JArr hits) => map_chunks hits
  | Some JNull =>
      Throw "TypeError: Cannot read properties of null (reading 'map')"
  | None =>
      Throw "TypeError: Cannot read properties of undefined (reading 'map')"
  | Some _ => Throw "TypeError: data.results.map is not a function"
  end.

Definition subSteps_patch (l : ref) : list PatchOp :=
  [{| op := "replace"; path := "/data/subSteps"; value := l |}].

(** The body of both [if (researchBlock?.type === 'research')] blocks:
    push the entry on the block's array, then hand that array to
    [updateBlock]. *)
Definition push_and_update (subSteps : ref) (blockId : string)
    (entry : SubStep) : M unit :=
  push subSteps entry;;
  updateBlock blockId (subSteps_patch subSteps).

Definition execute (w : World) (input : Input)
    (additionalConfig : AdditionalConfig) : M ActionOutput :=
  let ragURL := getCloudflareRAGURL w in
  if negb (truthy ragURL) then
    console "warn" ["captionSearch: CLOUDFLARE_RAG_URL not configured"];;
    mret empty_output
  else
    researchBlock ← getBlock (researchBlockId additionalConfig);
    match researchBlock with
    | Some (ResearchBlock subSteps) =>
        id_ ← randomUUID w;
        push_and_update subSteps (researchBlockId additionalConfig)
          (SearchingStep id_ ["CraftyPanda: " +:+ query input])
    | _ => mret tt
    end;;
    try_catch
      (res ← do_fetch w (search_request ragURL (query input));
       if negb (ok res) then
         console "error"
           ["captionSearch: API error"; nat_to_string (status res)];;
         mret empty_output
       else
         data ← res_json res;
         results_ ← lift (results_map data);
         searchResultsBlockId ← randomUUID w;
         match researchBlock with
         | Some (ResearchBlock subSteps) =>
             push_and_update subSteps (researchBlockId additionalConfig)
               (SearchResultsStep searchResultsBlockId results_)
         | _ => mret tt
         end;;
         mret {| type := "search_results"; results := results_ |})
      (fun err =>
         console "error" ["captionSearch: fetch error"; err];;
         mret empty_output).

(** ** Outcomes of the remote call *)

Definition the_request (w : World) (input : Input) : Request :=
  search_request (getCloudflareRAGURL w) (query input).

(** The endpoint is not configured: the URL is empty. *)
Definition unconfigured (w : World) : bool :=
  negb (truthy (getCloudflareRAGURL w)).

(** [fetch] rejects. *)
Definition transport_failure (w : World) (input : Input) : bool :=
  match fetch w (the_request w input) with
  | FetchRejects _ => true
  | FetchResolves _ => false
  end.

(** [fetch] resolves to a response whose status is not 2xx. *)
Definition non_2xx_status (w : World) (input : Input) : bool :=
  match fetch w (the_request w input) with
  | FetchRejects _ => false
  | FetchResolves res => negb (ok res)
  end.

(** The response cannot be decoded: [res.json()] rejects, or reading the
    hits out of the parsed value throws. *)
Definition response_shape_error (w : World) (input : Input) : bool :=
  match fetch w (the_request w input) with
  | FetchRejects _ => false
  | FetchResolves res =>
      match body res with
      | BodyRejects _ => true
      | BodyJson data => is_throw (results_map data)
      end
  end.

(** The remote call fails once it has been started. *)
Definition remote_call_fails (w : World) (input : Input) : bool :=
  transport_failure w input || non_2xx_status w input
  || response_shape_error w input.

(** A parsed hit that the callback of [map] accepts. *)
Definition hit_accepted (r : json) : bool :=
  match r with
  | JObj props =>
      match own_property "folderName" props with
      | Some (JStr _) =>
          negb (is_throw (template Number_toString (own_property "id" props)))
      | _ => false
      end
  | _ => false
  end.

(** A parsed response that [data.results.map] accepts. *)
Definition response_accepted (data : json) : bool :=
  match data with
  | JObj props =>
      match own_property "results" props with
      | Some (JArr hits) => forallb hit_accepted hits
      | _ => false
      end
  | _ => false
  end.

(** A state with its trace replaced. *)
Definition with_trace (s : State) (t : list Event) : State :=
  {| arrays := arrays s; blocks := blocks s;
     uuids_drawn := uuids_drawn s; trace := t |}.
End Action.

End CaptionSearch.

(* ===================================================================== *)
(** * The OpenAI provider adapter *)
(* ===================================================================== *)

Module OpenAILLM.
Import JS.

(** A line written to the console: the level and the arguments. *)
Definition Line : Type := string * list string.

(** What consuming a generator to its end observes: the values it yielded,
    what it wrote to the console, and the error that ended it, if one did. *)
Record Run (A : Type) : Type := {
  yielded : list A;
  console : list Line;
  thrown : option string
}.
Arguments yielded {A} _.
Arguments console {A} _.
Arguments thrown {A} _.

Definition finished {A} : Run A :=
  {| yielded := []; console := []; thrown := None |}.

Definition throws {A} (err : string) : Run A :=
  {| yielded := []; console := []; thrown := Some err |}.

Definition yield {A} (a : A) (rest : Run A) : Run A :=
  {| yielded := a :: yielded rest; console := console rest;
     thrown := thrown rest |}.

Definition say {A} (lines : list Line) (rest : Run A) : Run A :=
  {| yielded := yielded rest; console := lines ++ console rest;
     thrown := thrown rest |}.

(** A run that ended normally, followed by what the generator does next. *)
Definition and_then {A} (first next : Run A) : Run A :=
  {| yielded := yielded first ++ yielded next;
     console := console first ++ console next;
     thrown := thrown next |}.

(** [OpenAIConfig], the fields the adapter's mode depends on. *)
Record OpenAIConfig : Type := {
  model : string;
  baseURL : option string
}.

(** ** [stripMarkdownCodeFence]

    [text.match(/^```(?:json)?\s*([\s\S]*?)\s*```$/)], by the order in which
    a backtracking matcher tries the alternatives. *)

(** [\s*```$]: a greedy [\s*] gives back nothing useful, since a backtick is
    not white space. *)
Definition fence_close (s : string) : bool :=
  String.eqb (trimStart s) "```".

(** [([\s\S]*?)\s*```$]: the lazy group takes the fewest characters after
    which the rest closes the fence. *)
Fixpoint fence_body (s : string) : option string :=
  if fence_close s then Some EmptyString
  else
    match s with
    | String c r =>
        match fence_body r with
        | Some m => Some (String c m)
        | None => None
        end
    | EmptyString => None
    end.

(** [\s*] followed by the group: the greedy [\s*] takes each white space
    character and gives it back only if the rest then fails. *)
Fixpoint fence_open (s : string) : option string :=
  match s with
  | String c r =>
      if is_ws c then
        match fence_open r with
        | Some m => Some m
        | None => fence_body s
        end
      else fence_body s
  | EmptyString => fence_body s
  end.

(** The first capture group of the match, when the text matches: [(?:json)?]
    takes [json] when it is there and gives it back if the rest fails. *)
Definition fence_match (text : string) : option string :=
  match strip_prefix "```" text with
  | None => None
  | Some r =>
      match strip_prefix "json" r with
      | Some r' =>
          match fence_open r' with
          | Some m => Some m
          | None => fence_open r
          end
      | None => fence_open r
      end
  end.

Definition stripMarkdownCodeFence (text : string) : string :=
  match fence_match text with
  | Some m => m
  | None => text
  end.

Section Adapter.
Context {Number : Type}.

Abbreviation json := (JS.json Number).

(** ** Libraries

    [parse] of [partial-json], [JSON.parse], and [repairJson] of
    [@toolsycc/json-repair] called with [extractJson: true]. *)
Variable parse : string -> completion json.
Variable JSON_parse : string -> completion json.
Variable repairJson : string -> completion string.

(** A zod schema: [safeParse] either succeeds with the validated data or
    fails with an error, given here by the text of its issues.  [parse]
    throws that error exactly when [safeParse] fails; a zod error renders
    in [`${err}`] as its message, which is the text of its issues, with no
    class name in front. *)
Inductive SafeParseResult : Type :=
  | Success (data : json)
  | Failure (issues : string).

Record Schema : Type := {
  safeParse : json -> SafeParseResult
}.

Definition schema_parse (schema : Schema) (v : json) : completion json :=
  match safeParse schema v with
  | Success data => Normal data
  | Failure issues => Throw issues
  end.

(** ** [streamText] *)

(** A tool call of a streamed chunk: [index], [id?], [function?.name?],
    [function?.arguments?]. *)
Record FunctionDelta : Type := {
  f_name : option string;
  f_arguments : option string
}.

Record ToolCallDelta : Type := {
  index : nat;
  d_id : option string;
  d_function : option FunctionDelta
}.

Record Delta : Type := {
  d_content : option string;
  tool_calls : option (list ToolCallDelta)
}.

(** [finish_reason] is [null] ([None]) until the API reports one. *)
Record Choice : Type := {
  delta : Delta;
  finish_reason : option string
}.

(** A chunk of the stream; an absent [choices] is the empty list. *)
Record ChatCompletionChunk : Type := {
  choices : list Choice
}.

(** An entry of [recievedToolCalls]. *)
Record ReceivedToolCall : Type := {
  rc_name : string;
  rc_id : string;
  rc_arguments : string
}.

Record ToolCall : Type := {
  tc_name : string;
  tc_id : string;
  tc_arguments : json
}.

Record StreamTextOutput : Type := {
  contentChunk : string;
  toolCallChunk : list ToolCall;
  done : bool;
  finishReason : option string
}.

(** [tc.function?.name] and [tc.function?.arguments] *)
Definition delta_name (tc : ToolCallDelta) : option string :=
  match d_function tc with Some f => f_name f | None => None end.

Definition delta_arguments (tc : ToolCallDelta) : option string :=
  match d_function tc with Some f => f_arguments f | None => None end.

Definition tool_id (i : nat) : string := "tool_" +:+ nat_to_string i.

(** The accumulator created for a delta that finds none. *)
Definition new_call (tc : ToolCallDelta) : ReceivedToolCall :=
  {| rc_name := or_else (delta_name tc) "";
     rc_id := or_else (d_id tc) (tool_id (index tc));
     rc_arguments := or_else (delta_arguments tc) "" |}.

(** [existingCall.arguments += tc.function?.arguments || ''] *)
Definition append_arguments (call : ReceivedToolCall) (tc : ToolCallDelta)
  : ReceivedToolCall :=
  {| rc_name := rc_name call;
     rc_id := rc_id call;
     rc_arguments := rc_arguments call +:+ or_else (delta_arguments tc) "" |}.

(** [parse(call.arguments || '{}')] *)
Definition parse_arguments (call : ReceivedToolCall) : completion json :=
  parse (or_else (Some (rc_arguments call)) "{}").

(** [{ ...call, arguments: args }] *)
Definition parsed_call (call : ReceivedToolCall) (args : json) : ToolCall :=
  {| tc_name := rc_name call; tc_id := rc_id call; tc_arguments := args |}.

(** The [catch] branch: [recievedToolCalls[tc.index] || { name: '', id:
    `tool_${tc.index}`, arguments: '' }] with empty arguments. *)
Definition fallback_call (recievedToolCalls : list ReceivedToolCall)
    (tc : ToolCallDelta) : ToolCall :=
  let call :=
    match recievedToolCalls !! index tc with
    | Some c => c
    | None =>
        {| rc_name := ""; rc_id := tool_id (index tc); rc_arguments := "" |}
    end in
  {| tc_name := rc_name call; tc_id := rc_id call;
     tc_arguments := empty_object |}.

Definition parse_warning (parseErr : string) : Line :=
  ("warn", ["Failed to parse tool call arguments:"; parseErr]).

(** The body of [for (const tc of toolCalls)]: the accumulators after the
    delta, the entry pushed on [parsedToolCalls], and what the [catch] branch
    writes to the console. *)
Definition on_tool_call (recievedToolCalls : list ReceivedToolCall)
    (tc : ToolCallDelta) : list ReceivedToolCall * ToolCall * list Line :=
  match recievedToolCalls !! index tc with
  | None =>
      let call := new_call tc in
      let recievedToolCalls := recievedToolCalls ++ [call] in
      match parse_arguments call with
      | Normal args => (recievedToolCalls, parsed_call call args, [])
      | Throw parseErr =>
          (recievedToolCalls, fallback_call recievedToolCalls tc,
           [parse_warning parseErr])
      end
  | Some existingCall =>
      let existingCall := append_arguments existingCall tc in
      let recievedToolCalls := <[index tc := existingCall]> recievedToolCalls in
      match parse_arguments existingCall with
      | Normal args => (recievedToolCalls, parsed_call existingCall args, [])
      | Throw parseErr =>
          (recievedToolCalls, fallback_call recievedToolCalls tc,
           [parse_warning parseErr])
      end
  end.

(** [for (const tc of toolCalls) { ... }] *)
Fixpoint on_tool_calls (recievedToolCalls : list ReceivedToolCall)
    (toolCalls : list ToolCallDelta)
  : list ReceivedToolCall * list ToolCall * list Line :=
  match toolCalls with
  | [] => (recievedToolCalls, [], [])
  | tc :: rest =>
      let '(recievedToolCalls, entry, warned) :=
        on_tool_call recievedToolCalls tc in
      let '(recievedToolCalls, entries, lines) :=
        on_tool_calls recievedToolCalls rest in
      (recievedToolCalls, entry :: entries, warned ++ lines)
  end.

Definition optional_list {A} (l : option (list A)) : list A :=
  match l with Some l => l | None => [] end.

(** The value yielded for a chunk with a first choice. *)
Definition update_of (choice : Choice) (parsedToolCalls : list ToolCall)
  : StreamTextOutput :=
  {| contentChunk := or_else (d_content (delta choice)) "";
     toolCallChunk := parsedToolCalls;
     done := match finish_reason choice with Some _ => true | None => false end;
     finishReason := finish_reason choice |}.

(** [for await (const chunk of stream) { ... }], from a given content of
    [recievedToolCalls]. *)
Fixpoint streamText_from (recievedToolCalls : list ReceivedToolCall)
    (stream : list ChatCompletionChunk) : Run StreamTextOutput :=
  match stream with
  | [] => finished
  | chunk :: rest =>
      match choices chunk with
      | choice :: _ =>
          let '(recievedToolCalls', parsedToolCalls, lines) :=
            on_tool_calls recievedToolCalls
              (optional_list (tool_calls (delta choice))) in
          say lines
            (yield (update_of choice parsedToolCalls)
               (streamText_from recievedToolCalls' rest))
      | [] => streamText_from recievedToolCalls rest
      end
  end.

(** [streamText], given the stream the API answers the request with. *)
Definition streamText (stream : list ChatCompletionChunk)
  : Run StreamTextOutput :=
  streamText_from [] stream.

(** ** [generateObject] *)

(** [needsJsonObjectMode]: the degraded mode, in which the schema is not
    enforced by the API. *)
Definition needsJsonObjectMode (cfg : OpenAIConfig) : bool :=
  match baseURL cfg with
  | Some u => includes u "groq"
  | None => false
  end
  || startsWith (model cfg) "groq/"
  || startsWith (model cfg) "openrouter/".

(** The completion the API answers with: each choice's
    [message.content], [null] being [None]. *)
Record ChatCompletion : Type := {
  message_contents : list (option string)
}.

(** [new Error(message)], as [`${err}`] renders it. *)
Definition Error (message : string) : string := "Error: " +:+ message.

(** [rawContent.trim()], where a [null] content has no [trim]. *)
Definition trim_content (rawContent : option string) : completion string :=
  match rawContent with
  | Some text => Normal (trim text)
  | None =>
      Throw "TypeError: Cannot read properties of null (reading 'trim')"
  end.

Definition validation_warning (issues : string) : Line :=
  ("warn", ["Schema validation failed, attempting partial parse:"; issues]).

(** The body of the [try]: the value returned or the error thrown, with
    what is written to the console. *)
Definition parse_response (cfg : OpenAIConfig) (schema : Schema)
    (rawContent : option string) : completion json * list Line :=
  match trim_content rawContent with
  | Throw e => (Throw e, [])
  | Normal trimmed =>
      let strippedContent := stripMarkdownCodeFence trimmed in
      match repairJson strippedContent with
      | Throw e => (Throw e, [])
      | Normal repaired =>
          match JSON_parse repaired with
          | Throw e => (Throw e, [])
          | Normal parsed =>
              if needsJsonObjectMode cfg then
                match safeParse schema parsed with
                | Success data => (Normal data, [])
                | Failure issues =>
                    (Normal parsed, [validation_warning issues])
                end
              else (schema_parse schema parsed, [])
          end
      end
  end.

(** [generateObject], given the completion the API answers the request
    with. *)
Definition generateObject (cfg : OpenAIConfig) (schema : Schema)
    (response : ChatCompletion) : completion json * list Line :=
  match message_contents response with
  | rawContent :: _ =>
      match parse_response cfg schema rawContent with
      | (Throw err, lines) =>
          (Throw (Error ("Error parsing response from OpenAI: " +:+ err)),
           lines)
      | r => r
      end
  | [] => (Throw (Error "No response from OpenAI"), [])
  end.

(** ** [streamObject] *)

(** An event of the response stream: a text delta, the completed text, or
    an event of another type. *)
Inductive ResponseStreamEvent : Type :=
  | OutputTextDelta (delta : string)
  | OutputTextDone (text : string)
  | OtherEvent (type : string).

Definition partial_parse_log (err : string) : Line :=
  ("log", ["Error parsing partial object from OpenAI:"; err]).

(** [for await (const chunk of stream) { ... }], from a given content of
    [recievedObj]. *)
Fixpoint streamObject_from (recievedObj : string)
    (stream : list ResponseStreamEvent) : Run json :=
  match stream with
  | [] => finished
  | OutputTextDelta delta :: rest =>
      if truthy delta then
        let recievedObj' := recievedObj +:+ delta in
        match parse recievedObj' with
        | Normal obj => yield obj (streamObject_from recievedObj' rest)
        | Throw err =>
            say [partial_parse_log err]
              (yield empty_object (streamObject_from recievedObj' rest))
        end
      else streamObject_from recievedObj rest
  | OutputTextDone text :: rest =>
      if truthy text then
        match parse text with
        | Normal obj => yield obj (streamObject_from recievedObj rest)
        | Throw err =>
            throws (Error ("Error parsing response from OpenAI: " +:+ err))
        end
      else streamObject_from recievedObj rest
  | OtherEvent _ :: rest => streamObject_from recievedObj rest
  end.

(** [streamObject], given the events the API answers the request with. *)
Definition streamObject (stream : list ResponseStreamEvent) : Run json :=
  streamObject_from "" stream.

(** ** Notions the properties are stated with *)

(** The first choice of every chunk that has one, in stream order. *)
Fixpoint first_choices (stream : list ChatCompletionChunk) : list Choice :=
  match stream with
  | [] => []
  | chunk :: rest =>
      match choices chunk with
      | choice :: _ => choice :: first_choices rest
      | [] => first_choices rest
      end
  end.

(** The tool-call deltas of a stream, in the order the loop meets them. *)
Definition tool_call_deltas (stream : list ChatCompletionChunk)
  : list ToolCallDelta :=
  flat_map (fun choice => optional_list (tool_calls (delta choice)))
           (first_choices stream).

(** What a delta does to [recievedToolCalls], whatever the parser says: one
    that finds no accumulator at its index pushes a new one, another one
    extends the accumulator found at its index. *)
Definition accumulate (recievedToolCalls : list ReceivedToolCall)
    (tc : ToolCallDelta) : list ReceivedToolCall :=
  match recievedToolCalls !! index tc with
  | None => recievedToolCalls ++ [new_call tc]
  | Some existingCall =>
      <[index tc := append_arguments existingCall tc]> recievedToolCalls
  end.

(** The content of [recievedToolCalls] after a sequence of deltas. *)
Definition received_after (received : list ReceivedToolCall)
    (deltas : list ToolCallDelta) : list ReceivedToolCall :=
  fold_left accumulate deltas received.

(** The accumulators as the data model words them: "an explicit ordered
    map from index to an accumulator record", in which the argument text
    "accumulates via string concatenation across chunks sharing the same
    index". *)
Definition accumulate_keyed (calls : gmap nat ReceivedToolCall)
    (tc : ToolCallDelta) : gmap nat ReceivedToolCall :=
  match calls !! index tc with
  | None => <[index tc := new_call tc]> calls
  | Some existingCall =>
      <[index tc := append_arguments existingCall tc]> calls
  end.

Definition keyed_after (calls : gmap nat ReceivedToolCall)
    (deltas : list ToolCallDelta) : gmap nat ReceivedToolCall :=
  fold_left accumulate_keyed deltas calls.

(** The list holds, at every position, what the map holds under that
    index: a lookup by index finds the accumulator of that index. *)
Definition agrees (received : list ReceivedToolCall)
    (calls : gmap nat ReceivedToolCall) : Prop :=
  forall i : nat, received !! i = calls !! i.

(** Concatenation keyed by index is correct on a sequence of deltas: after
    each of them the list agrees with the keyed accumulators. *)
Definition keyed_concatenation_correct (deltas : list ToolCallDelta)
  : Prop :=
  forall k : nat,
    k <= length deltas ->
    agrees (received_after [] (take k deltas))
           (keyed_after ∅ (take k deltas)).

(** The indices of the deltas first appear in the order [n], [n+1], ...:
    every delta carries an index below [n], seen before, or the next fresh
    index. *)
Fixpoint first_appear_from (n : nat) (deltas : list ToolCallDelta) : bool :=
  match deltas with
  | [] => true
  | tc :: rest =>
      if (index tc <? n)%nat then first_appear_from n rest
      else if (index tc =? n)%nat then first_appear_from (S n) rest
      else false
  end.

Definition first_appear_in_order (deltas : list ToolCallDelta) : bool :=
  first_appear_from 0 deltas.

(** The indices of the deltas in the order of their first appearance. *)
Fixpoint first_appearances (seen : list nat) (deltas : list ToolCallDelta)
  : list nat :=
  match deltas with
  | [] => []
  | tc :: rest =>
      if bool_decide (index tc ∈ seen) then first_appearances seen rest
      else index tc :: first_appearances (index tc :: seen) rest
  end.

(** The argument fragments a sequence of deltas carries under an index,
    concatenated in order. *)
Fixpoint fragments_of (i : nat) (deltas : list ToolCallDelta) : string :=
  match deltas with
  | [] => ""
  | tc :: rest =>
      if (index tc =? i)%nat
      then or_else (delta_arguments tc) "" +:+ fragments_of i rest
      else fragments_of i rest
  end.

(** The text events of an object stream that the loop acts on. *)
Definition is_text_event (e : ResponseStreamEvent) : bool :=
  match e with
  | OutputTextDelta delta => truthy delta
  | OutputTextDone text => truthy text
  | OtherEvent _ => false
  end.

(** A completed text that the parser rejects. *)
Definition is_fatal_event (e : ResponseStreamEvent) : bool :=
  match e with
  | OutputTextDone text => truthy text && is_throw (parse text)
  | _ => false
  end.

(** The events before the first fatal one. *)
Fixpoint before_fatal (stream : list ResponseStreamEvent)
  : list ResponseStreamEvent :=
  match stream with
  | [] => []
  | e :: rest => if is_fatal_event e then [] else e :: before_fatal rest
  end.

(** The content of [recievedObj] after the events of a stream: the
    non-empty deltas, concatenated. *)
Fixpoint accumulated_text (recievedObj : string)
    (stream : list ResponseStreamEvent) : string :=
  match stream with
  | [] => recievedObj
  | OutputTextDelta delta :: rest =>
      accumulated_text
        (if truthy delta then recievedObj +:+ delta else recievedObj) rest
  | _ :: rest => accumulated_text recievedObj rest
  end.

(** What a delta event yields when the accumulated text is [text]. *)
Definition partial_object (text : string) : json :=
  match parse text with
  | Normal obj => obj
  | Throw _ => empty_object
  end.
End Adapter.

(** The first character of a JSON text, after its leading white space: an
    object, an array, a string, a number or a literal name begins there. *)
Definition json_first_char (c : ascii) : bool :=
  let n := nat_of_ascii c in
  (n =? 123)%nat || (n =? 91)%nat || (n =? 34)%nat || (n =? 45)%nat
  || ((48 <=? n)%nat && (n <=? 57)%nat)
  || (n =? 116)%nat || (n =? 102)%nat || (n =? 110)%nat.

Definition begins_like_json (t : string) : bool :=
  match trimStart t with
  | String c _ => json_first_char c
  | EmptyString => false
  end.

(** The response text [t] inside a [json] code fence. *)
Definition fenced (t : string) : string :=
  "```json" +:+ String (ascii_of_nat 10) t
  +:+ String (ascii_of_nat 10) "```".

End OpenAILLM.

(* ===================================================================== *)
(** * Concrete inputs *)
(* ===================================================================== *)

(** Inputs on which the properties below are exercised.  Numbers are the
    natural numbers, printed in decimal. *)
Module Samples.
Import JS CaptionSearch OpenAILLM.

Definition quoted : string -> string := JSON_stringify_string.

(** ** Caption search *)

Definition sample_uuid (n : nat) : string := "uuid-" +:+ nat_to_string n.

Definition world_answering (answer : @FetchOutcome nat) : @World nat :=
  {| env_CLOUDFLARE_RAG_URL := Some "https://rag.example";
     config := ∅;
     fetch := fun _ => answer;
     uuid := sample_uuid |}.

Definition world_unconfigured : @World nat :=
  {| env_CLOUDFLARE_RAG_URL := None;
     config := ∅;
     fetch := fun _ => FetchRejects "TypeError: Failed to parse URL";
     uuid := sample_uuid |}.

Definition earlier_steps : list (@SubStep nat) :=
  [OtherStep "step-0" "reasoning"].

(** A session with one research block, whose array holds one earlier step. *)
Definition sample_state : @State nat :=
  {| arrays := {[ 0 := earlier_steps ]};
     blocks := {[ "block-1" := ResearchBlock 0 ]};
     uuids_drawn := 0;
     trace := [] |}.

Definition sample_input : Input := {| query := "paper stars" |}.

Definition sample_config : AdditionalConfig :=
  {| researchBlockId := "block-1" |}.

Definition sample_hits : list (@CloudflareSearchResult nat) :=
  [ {| r_id := "post-17"; r_content := "Folded paper stars";
       r_folderName := "2021_12_paper_stars"; r_platform := Some "instagram";
       r_holiday := Some "christmas"; r_imageCount := 3; r_score := 1 |};
    {| r_id := "post-4"; r_content := "Felt pumpkins";
       r_folderName := "felt_pumpkins"; r_platform := None;
       r_holiday := None; r_imageCount := 1; r_score := 0 |} ].

Definition sample_response : @CloudflareSearchResponse nat :=
  {| q_query := "paper stars"; q_results := sample_hits; q_total := 2 |}.

Definition answer_success : @FetchOutcome nat :=
  FetchResolves
    {| status := 200; body := BodyJson (response_json sample_response) |}.

(** The chunks the sample hits are mapped to. *)
Definition results_of_sample : list (@Chunk nat) :=
  [ {| content := Some (JStr "Folded paper stars");
       metadata :=
         {| title := "CraftyPanda: 2021 12 paper stars";
            url := "craftypanda://caption/post-17";
            source := "CraftyPanda Historical";
            platform := Some (JStr "instagram");
            holiday := Some (JStr "christmas");
            imageCount := Some (JNum 3);
            score := Some (JNum 1) |} |};
    {| content := Some (JStr "Felt pumpkins");
       metadata :=
         {| title := "CraftyPanda: felt pumpkins";
            url := "craftypanda://caption/post-4";
            source := "CraftyPanda Historical";
            platform := None;
            holiday := None;
            imageCount := Some (JNum 1);
            score := Some (JNum 0) |} |} ].

Definition answer_server_error : @FetchOutcome nat :=
  FetchResolves
    {| status := 500; body := BodyRejects "SyntaxError: Unexpected token" |}.

(** A 2xx response whose body has no [results]. *)
Definition answer_without_results : @FetchOutcome nat :=
  FetchResolves
    {| status := 200; body := BodyJson (JObj [("error", JStr "busy")]) |}.

(** ** The adapter *)

(** The two argument fragments of the specification's example. *)
Definition fragment_1 : string := "{" +:+ quoted "a" +:+ ":1".
Definition fragment_2 : string := "," +:+ quoted "b" +:+ ":2}".

Definition object_a : json nat := JObj [("a", JNum 1)].
Definition object_ab : json nat := JObj [("a", JNum 1); ("b", JNum 2)].
Definition object_x : json nat := JObj [("x", JNum 1)].

(** A finite part of the graph of the tolerant parser: the complete and the
    incomplete object of the example and the empty object; every other text
    is taken here as malformed. *)
Definition sample_parse (text : string) : completion (json nat) :=
  if String.eqb text "{}" then Normal empty_object
  else if String.eqb text fragment_1 then Normal object_a
  else if String.eqb text (fragment_1 +:+ fragment_2) then Normal object_ab
  else Throw "MalformedJSON: Unexpected token".

(** A finite part of the graph of [JSON.parse]. *)
Definition sample_JSON_parse (text : string) : completion (json nat) :=
  if String.eqb text "{}" then Normal empty_object
  else if String.eqb text ("{" +:+ quoted "x" +:+ ":1}") then Normal object_x
  else Throw "SyntaxError: Unexpected token".

(** A repair that finds nothing to repair. *)
Definition sample_repairJson (text : string) : completion string :=
  Normal text.

(** A schema that requires a property [x]. *)
Definition sample_schema : @Schema nat :=
  {| safeParse := fun v =>
       match v with
       | JObj props =>
           match own_property "x" props with
           | Some _ => Success v
           | None => Failure "x: Required"
           end
       | _ => Failure "Expected object"
       end |}.

Definition config_openai : OpenAIConfig :=
  {| model := "gpt-4o-mini"; baseURL := None |}.

Definition config_groq : OpenAIConfig :=
  {| model := "groq/llama-3.1-8b"; baseURL := None |}.

Definition tool_delta (i : nat) (fragment : string) : ToolCallDelta :=
  {| index := i;
     d_id := None;
     d_function := Some {| f_name := None; f_arguments := Some fragment |} |}.

Definition chunk_of (content : option string)
    (calls : option (list ToolCallDelta)) (finish : option string)
  : ChatCompletionChunk :=
  {| choices :=
       [ {| delta := {| d_content := content; tool_calls := calls |};
            finish_reason := finish |} ] |}.

(** Two chunks whose tool-call deltas carry the fragments under index [i]. *)
Definition two_fragments (i : nat) : list ChatCompletionChunk :=
  [ chunk_of None (Some [tool_delta i fragment_1]) None;
    chunk_of None (Some [tool_delta i fragment_2]) None ].

(** A stream that goes on after the chunk that reports a finish reason. *)
Definition stream_past_finish : list ChatCompletionChunk :=
  [ chunk_of (Some "Hello") None (Some "stop");
    chunk_of (Some " again") None None ].

End Samples.

(* ===================================================================== *)
(** * What a call of the search action leaves behind *)
(* ===================================================================== *)

Module CaptionSearchTrace.
Import JS CaptionSearch.

Section Trace.
Context {Number : Type}.

Abbreviation Event := (@CaptionSearch.Event Number).
Abbreviation State := (@CaptionSearch.State Number).

Definition is_fetch (e : Event) : bool :=
  match e with EvFetch _ => true | _ => false end.

Definition is_console (e : Event) : bool :=
  match e with EvConsole _ _ => true | _ => false end.

Definition is_push (e : Event) : bool :=
  match e with EvPush _ _ => true | _ => false end.

Definition is_updateBlock (e : Event) : bool :=
  match e with EvUpdateBlock _ _ => true | _ => false end.

(** The events a call added to the trace it started with. *)
Definition events_of (s s' : State) : list Event :=
  drop (length (trace s)) (trace s').

(** The response cannot be decoded, said of the response itself:
    [res.json()] rejects, or the parsed value is not an object whose
    [results] is an array of objects that each have a string [folderName]
    and an [id] that can be printed. *)
Definition undecodable (Number_toString : Number -> string)
    (w : @World Number) (input : Input) : bool :=
  match fetch w (the_request w input) with
  | FetchRejects _ => false
  | FetchResolves res =>
      match body res with
      | BodyRejects _ => true
      | BodyJson data => negb (response_accepted Number_toString data)
      end
  end.

(** What the callback of [map] gives a chunk whatever the hit holds: the
    fixed source, a title with the fixed prefix and no underscore after it,
    and a URL with the fixed scheme. *)
Definition branded (c : @Chunk Number) : Prop :=
  source (metadata c) = "CraftyPanda Historical"
  /\ (exists t : string,
        title (metadata c) = "CraftyPanda: " +:+ t
        /\ forall i : nat, String.get i t <> Some "_"%char)
  /\ (exists u : string, url (metadata c) = "craftypanda://caption/" +:+ u).
End Trace.

(** A 2xx response whose body is not of the [CloudflareSearchResponse]
    shape and still decodes: [query] and [total] are missing, and the one
    hit has a [folderName] only. *)
Definition misshaped_body : json nat :=
  JObj [("results", JArr [JObj [("folderName", JStr "felt_hats")]])].

Definition answer_misshaped : @FetchOutcome nat :=
  FetchResolves {| status := 200; body := BodyJson misshaped_body |}.

(** A session whose block is not a research block. *)
Definition state_with_text_block : @CaptionSearch.State nat :=
  {| arrays := {[ 0 := Samples.earlier_steps ]};
     blocks := {[ "block-1" := OtherBlock "text" ]};
     uuids_drawn := 0;
     trace := [] |}.

(** A world whose endpoint comes from the stored configuration. *)
Definition world_configured_by_file : @World nat :=
  {| env_CLOUDFLARE_RAG_URL := Some "";
     config := {[ "search.cloudflareRAGURL" := "https://rag.example" ]};
     fetch := fun _ => Samples.answer_success;
     uuid := Samples.sample_uuid |}.

End CaptionSearchTrace.

(* ===================================================================== *)
(** * The adapter's requests and [generateText] *)
(* ===================================================================== *)

Module OpenAIChat.
Import JS OpenAILLM.

(** [s.toLowerCase()] on code units below 256: the letters A-Z and the
    Latin-1 capitals (192-222 except the multiplication sign, 215) move to
    their small forms, 32 further. *)
Definition lower_char (c : ascii) : ascii :=
  let n := nat_of_ascii c in
  if ((65 <=? n)%nat && (n <=? 90)%nat)
     || ((192 <=? n)%nat && (n <=? 222)%nat && negb (n =? 215)%nat)
  then ascii_of_nat (n + 32)
  else c.

Fixpoint toLowerCase (s : string) : string :=
  match s with
  | String c r => String (lower_char c) (toLowerCase r)
  | EmptyString => EmptyString
  end.

(** [a ?? b] *)
Definition nullish {A} (a b : option A) : option A :=
  match a with
  | Some x => Some x
  | None => b
  end.

(** [o?.f] *)
Definition optional_field {O A} (o : option O) (f : O -> option A)
  : option A :=
  match o with
  | Some x => f x
  | None => None
  end.

Section Chat.
Context {Number : Type}.

Abbreviation json := (JS.json Number).
Abbreviation Schema := (@OpenAILLM.Schema Number).
Abbreviation ToolCall := (@OpenAILLM.ToolCall Number).

(** ** Libraries and constants

    [JSON.parse], [JSON.stringify(value)], [JSON.stringify(value, null, 2)]
    and the Number [1.0]; [z.toJSONSchema] of zod and [zodResponseFormat]
    and [zodTextFormat] of [openai/helpers/zod], each of which throws for a
    schema that JSON Schema cannot express. *)
Variable JSON_parse : string -> completion json.
Variable JSON_stringify : json -> string.
Variable JSON_stringify_indented : json -> string.
Variable toJSONSchema : Schema -> completion json.
Variable zodResponseFormat : Schema -> string -> completion json.
Variable zodTextFormat : Schema -> string -> completion json.
Variable one : Number.

(** ** Inputs *)

(** [Message] of [@/lib/types], with the fields the adapter reads. *)
Record Message : Type := {
  msg_role : string;
  msg_content : string;
  msg_id : option string;
  msg_tool_calls : option (list ToolCall)
}.

Record Tool : Type := {
  tool_name : string;
  tool_description : string;
  tool_schema : Schema
}.

(** [GenerateOptions]: every field is optional. *)
Record GenerateOptions : Type := {
  temperature : option Number;
  topP : option Number;
  maxTokens : option Number;
  stopSequences : option (list string);
  frequencyPenalty : option Number;
  presencePenalty : option Number
}.

(** The adapter's configuration: [OpenAIConfig] with its key and its
    default options. *)
Record Config : Type := {
  openai : OpenAIConfig;
  apiKey : string;
  options : option GenerateOptions
}.

Record GenerateTextInput : Type := {
  text_messages : list Message;
  text_tools : option (list Tool);
  text_options : option GenerateOptions
}.

Record GenerateObjectInput : Type := {
  object_messages : list Message;
  object_schema : Schema;
  object_options : option GenerateOptions
}.

(** The constructor's [this.config.baseURL || 'https://api.openai.com/v1']. *)
Definition client_baseURL (cfg : Config) : string :=
  or_else (baseURL (openai cfg)) "https://api.openai.com/v1".

(** ** [convertToOpenAIMessages] *)

(** An entry of an assistant message's [tool_calls]:
    [{ id, type: 'function', function: { name, arguments } }]. *)
Record FunctionCallParam : Type := {
  fc_id : string;
  fc_name : string;
  fc_arguments : string
}.

(** A message as the API takes it: a tool result, an assistant message
    (whose [tool_calls] key may be absent), or the caller's message as it
    is. *)
Inductive ChatCompletionMessageParam : Type :=
  | ToolMessageParam (tool_call_id : option string) (content : string)
  | AssistantMessageParam (content : string)
      (tool_calls : option (list FunctionCallParam))
  | OtherMessageParam (msg : Message).

Definition function_call_param (tc : ToolCall) : FunctionCallParam :=
  {| fc_id := tc_id tc;
     fc_name := tc_name tc;
     fc_arguments := JSON_stringify (tc_arguments tc) |}.

Definition convert_message (msg : Message) : ChatCompletionMessageParam :=
  if String.eqb (msg_role msg) "tool" then
    ToolMessageParam (msg_id msg) (msg_content msg)
  else if String.eqb (msg_role msg) "assistant" then
    AssistantMessageParam (msg_content msg)
      match msg_tool_calls msg with
      | Some (tc :: tcs) => Some (map function_call_param (tc :: tcs))
      | _ => None
      end
  else OtherMessageParam msg.

Definition convertToOpenAIMessages (messages : list Message)
  : list ChatCompletionMessageParam :=
  map convert_message messages.

(** [param.role] and [param.content] *)
Definition param_role (p : ChatCompletionMessageParam) : string :=
  match p with
  | ToolMessageParam _ _ => "tool"
  | AssistantMessageParam _ _ => "assistant"
  | OtherMessageParam msg => msg_role msg
  end.

Definition param_content (p : ChatCompletionMessageParam) : string :=
  match p with
  | ToolMessageParam _ content => content
  | AssistantMessageParam content _ => content
  | OtherMessageParam msg => msg_content msg
  end.

(** [{ ...param, content }] *)
Definition with_content (p : ChatCompletionMessageParam) (content : string)
  : ChatCompletionMessageParam :=
  match p with
  | ToolMessageParam i _ => ToolMessageParam i content
  | AssistantMessageParam _ calls => AssistantMessageParam content calls
  | OtherMessageParam msg =>
      OtherMessageParam
        {| msg_role := msg_role msg; msg_content := content;
           msg_id := msg_id msg; msg_tool_calls := msg_tool_calls msg |}
  end.

(** ** Tools *)

(** [{ type: 'function', function: { name, description, parameters } }] *)
Record ChatCompletionTool : Type := {
  fn_name : string;
  fn_description : string;
  fn_parameters : json
}.

Definition isOpenRouter (cfg : OpenAIConfig) : bool :=
  startsWith (model cfg) "openrouter/"
  || match baseURL cfg with
     | Some u => includes u "openrouter"
     | None => false
     end.

Definition isDeepSeek (cfg : OpenAIConfig) : bool :=
  includes (toLowerCase (model cfg)) "deepseek"
  || includes (toLowerCase (model cfg)) "nex-agi".

Definition disableTools (cfg : OpenAIConfig) : bool :=
  isOpenRouter cfg && negb (isDeepSeek cfg).

(** The object pushed for a tool; [z.toJSONSchema(tool.schema)] may
    throw. *)
Definition openai_tool (tool : Tool) : completion ChatCompletionTool :=
  match toJSONSchema (tool_schema tool) with
  | Throw e => Throw e
  | Normal parameters =>
      Normal {| fn_name := tool_name tool;
                fn_description := tool_description tool;
                fn_parameters := parameters |}
  end.

(** [tools.forEach((tool) => openaiTools.push(...))]: the first throw ends
    the iteration. *)
Fixpoint push_tools (tools : list Tool)
  : completion (list ChatCompletionTool) :=
  match tools with
  | [] => Normal []
  | tool :: rest =>
      match openai_tool tool with
      | Throw e => Throw e
      | Normal pushed =>
          match push_tools rest with
          | Throw e => Throw e
          | Normal others => Normal (pushed :: others)
          end
      end
  end.

(** The list [openaiTools] after the [if (!disableTools)] block. *)
Definition openaiTools (cfg : OpenAIConfig) (tools : option (list Tool))
  : completion (list ChatCompletionTool) :=
  if disableTools cfg then Normal [] else push_tools (optional_list tools).

(** [openaiTools.length > 0 ? openaiTools : undefined] *)
Definition tools_or_undefined (l : list ChatCompletionTool)
  : option (list ChatCompletionTool) :=
  match l with
  | [] => None
  | _ => Some l
  end.

(** ** Requests *)

(** [{ type: 'json_object' }], or what [zodResponseFormat] returned. *)
Inductive ResponseFormat : Type :=
  | JsonObjectFormat
  | JsonSchemaFormat (format : json).

(** The body of [chat.completions.create]; an absent key is [None], an
    absent [stream] is [false]. *)
Record ChatRequest : Type := {
  rq_model : string;
  rq_messages : list ChatCompletionMessageParam;
  rq_tools : option (list ChatCompletionTool);
  rq_temperature : Number;
  rq_top_p : option Number;
  rq_max_completion_tokens : option Number;
  rq_stop : option (list string);
  rq_frequency_penalty : option Number;
  rq_presence_penalty : option Number;
  rq_stream : bool;
  rq_response_format : option ResponseFormat
}.

(** The body of [responses.stream]. *)
Record ResponsesRequest : Type := {
  rs_model : string;
  rs_input : list Message;
  rs_temperature : Number;
  rs_top_p : option Number;
  rs_max_completion_tokens : option Number;
  rs_stop : option (list string);
  rs_frequency_penalty : option Number;
  rs_presence_penalty : option Number;
  rs_text_format : json
}.

(** [input.options?.temperature ?? this.config.options?.temperature ?? 1.0] *)
Definition resolve_temperature (per_call defaults : option GenerateOptions)
  : Number :=
  match nullish (optional_field per_call temperature)
          (optional_field defaults temperature) with
  | Some t => t
  | None => one
  end.

(** [input.options?.f ?? this.config.options?.f] *)
Definition resolve {A} (f : GenerateOptions -> option A)
    (per_call defaults : option GenerateOptions) : option A :=
  nullish (optional_field per_call f) (optional_field defaults f).

(** The argument of [create] in [generateText]; building it throws when
    filling [openaiTools] does. *)
Definition generateText_request (cfg : Config) (input : GenerateTextInput)
  : completion ChatRequest :=
  match openaiTools (openai cfg) (text_tools input) with
  | Throw e => Throw e
  | Normal tools => Normal
  {| rq_model := model (openai cfg);
     rq_tools := tools_or_undefined tools;
     rq_messages := convertToOpenAIMessages (text_messages input);
     rq_temperature := resolve_temperature (text_options input) (options cfg);
     rq_top_p := resolve topP (text_options input) (options cfg);
     rq_max_completion_tokens :=
       resolve maxTokens (text_options input) (options cfg);
     rq_stop := resolve stopSequences (text_options input) (options cfg);
     rq_frequency_penalty :=
       resolve frequencyPenalty (text_options input) (options cfg);
     rq_presence_penalty :=
       resolve presencePenalty (text_options input) (options cfg);
     rq_stream := false;
     rq_response_format := None |}
  end.

(** The argument of [create] in [streamText]. *)
Definition streamText_request (cfg : Config) (input : GenerateTextInput)
  : completion ChatRequest :=
  match openaiTools (openai cfg) (text_tools input) with
  | Throw e => Throw e
  | Normal tools => Normal
  {| rq_model := model (openai cfg);
     rq_messages := convertToOpenAIMessages (text_messages input);
     rq_tools := tools_or_undefined tools;
     rq_temperature := resolve_temperature (text_options input) (options cfg);
     rq_top_p := resolve topP (text_options input) (options cfg);
     rq_max_completion_tokens :=
       resolve maxTokens (text_options input) (options cfg);
     rq_stop := resolve stopSequences (text_options input) (options cfg);
     rq_frequency_penalty :=
       resolve frequencyPenalty (text_options input) (options cfg);
     rq_presence_penalty :=
       resolve presencePenalty (text_options input) (options cfg);
     rq_stream := true;
     rq_response_format := None |}
  end.

Definition LF : string := String (ascii_of_nat 10) "".

(** [schemaPrompt], given [schemaJson]. *)
Definition schemaPrompt (schemaJson : string) : string :=
  "You MUST respond with valid JSON matching this exact schema. All fields are required unless marked optional:"
  +:+ LF +:+ schemaJson +:+ LF +:+ LF
  +:+ "Respond ONLY with the JSON object, no additional text.".

Definition system_message (content : string) : ChatCompletionMessageParam :=
  OtherMessageParam
    {| msg_role := "system"; msg_content := content;
       msg_id := None; msg_tool_calls := None |}.

(** The messages of the degraded mode: the schema instruction is added to a
    leading system message, or put in front as a system message. *)
Definition with_schema_prompt (prompt : string)
    (messages : list ChatCompletionMessageParam)
  : list ChatCompletionMessageParam :=
  match messages with
  | first :: rest =>
      if String.eqb (param_role first) "system" then
        with_content first (param_content first +:+ LF +:+ LF +:+ prompt)
        :: rest
      else system_message prompt :: messages
  | [] => system_message prompt :: messages
  end.

(** [messages] as it stands before the call of [create]:
    [z.toJSONSchema(input.schema)] is called in the degraded mode only, and
    may throw. *)
Definition generateObject_messages (cfg : Config)
    (input : GenerateObjectInput)
  : completion (list ChatCompletionMessageParam) :=
  let messages := convertToOpenAIMessages (object_messages input) in
  if needsJsonObjectMode (openai cfg) then
    match toJSONSchema (object_schema input) with
    | Throw e => Throw e
    | Normal schema =>
        let schemaJson := JSON_stringify_indented schema in
        Normal (with_schema_prompt (schemaPrompt schemaJson) messages)
    end
  else Normal messages.

(** [needsJsonObjectMode ? { type: 'json_object' }
     : zodResponseFormat(input.schema, 'object')] *)
Definition response_format (cfg : Config) (input : GenerateObjectInput)
  : completion ResponseFormat :=
  if needsJsonObjectMode (openai cfg) then Normal JsonObjectFormat
  else
    match zodResponseFormat (object_schema input) "object" with
    | Throw e => Throw e
    | Normal format => Normal (JsonSchemaFormat format)
    end.

(** The argument of [create] in [generateObject]. *)
Definition generateObject_request (cfg : Config)
    (input : GenerateObjectInput) : completion ChatRequest :=
  match generateObject_messages cfg input with
  | Throw e => Throw e
  | Normal messages =>
      match response_format cfg input with
      | Throw e => Throw e
      | Normal format => Normal
  {| rq_messages := messages;
     rq_model := model (openai cfg);
     rq_tools := None;
     rq_temperature :=
       resolve_temperature (object_options input) (options cfg);
     rq_top_p := resolve topP (object_options input) (options cfg);
     rq_max_completion_tokens :=
       resolve maxTokens (object_options input) (options cfg);
     rq_stop := resolve stopSequences (object_options input) (options cfg);
     rq_frequency_penalty :=
       resolve frequencyPenalty (object_options input) (options cfg);
     rq_presence_penalty :=
       resolve presencePenalty (object_options input) (options cfg);
     rq_stream := false;
     rq_response_format := Some format |}
      end
  end.

(** The argument of [responses.stream] in [streamObject]. *)
Definition streamObject_request (cfg : Config) (input : GenerateObjectInput)
  : completion ResponsesRequest :=
  match zodTextFormat (object_schema input) "object" with
  | Throw e => Throw e
  | Normal format => Normal
  {| rs_model := model (openai cfg);
     rs_input := object_messages input;
     rs_temperature :=
       resolve_temperature (object_options input) (options cfg);
     rs_top_p := resolve topP (object_options input) (options cfg);
     rs_max_completion_tokens :=
       resolve maxTokens (object_options input) (options cfg);
     rs_stop := resolve stopSequences (object_options input) (options cfg);
     rs_frequency_penalty :=
       resolve frequencyPenalty (object_options input) (options cfg);
     rs_presence_penalty :=
       resolve presencePenalty (object_options input) (options cfg);
     rs_text_format := format |}
  end.

(** ** [generateText] *)

(** A tool call of a completed message: a function call, or a call of
    another type. *)
Inductive MessageToolCall : Type :=
  | FunctionToolCall (id name arguments : string)
  | OtherToolCall (type id : string).

Record ChoiceMessage : Type := {
  cm_content : option string;
  cm_tool_calls : option (list MessageToolCall)
}.

Record CompletionChoice : Type := {
  message : ChoiceMessage;
  choice_finish_reason : string
}.

(** The completion; an absent [choices] is the empty list. *)
Record Completion : Type := {
  completion_choices : list CompletionChoice
}.

Record GenerateTextOutput : Type := {
  out_content : option string;
  out_toolCalls : list ToolCall;
  out_finishReason : string
}.

(** [tool_calls.map(...).filter((tc) => tc !== undefined)]: each function
    call's arguments go through [JSON.parse], which may throw; calls of
    another type are dropped. *)
Fixpoint parse_tool_calls (calls : list MessageToolCall)
  : completion (list ToolCall) :=
  match calls with
  | [] => Normal []
  | FunctionToolCall id name arguments :: rest =>
      match JSON_parse arguments with
      | Throw e => Throw e
      | Normal args =>
          match parse_tool_calls rest with
          | Throw e => Throw e
          | Normal parsed =>
              Normal ({| tc_name := name; tc_id := id;
                         tc_arguments := args |} :: parsed)
          end
      end
  | OtherToolCall _ _ :: rest => parse_tool_calls rest
  end.

(** [generateText], given what [chat.completions.create] answers a
    request with.  When building the request throws, [create] is not
    called. *)
Definition generateText (cfg : Config) (input : GenerateTextInput)
    (create : ChatRequest -> completion Completion)
  : completion GenerateTextOutput :=
  match generateText_request cfg input with
  | Throw e => Throw e
  | Normal request =>
      match create request with
      | Throw e => Throw e
      | Normal response =>
          match completion_choices response with
          | choice :: _ =>
              match parse_tool_calls
                      (optional_list (cm_tool_calls (message choice))) with
              | Throw e => Throw e
              | Normal toolCalls =>
                  Normal {| out_content := cm_content (message choice);
                            out_toolCalls := toolCalls;
                            out_finishReason := choice_finish_reason choice |}
              end
          | [] => Throw (Error "No response from OpenAI")
          end
      end
  end.

(** ** Notions the properties are stated with *)

(** The function calls among the tool calls of a message. *)
Fixpoint function_calls (calls : list MessageToolCall)
  : list (string * string * string) :=
  match calls with
  | [] => []
  | FunctionToolCall id name arguments :: rest =>
      (id, name, arguments) :: function_calls rest
  | OtherToolCall _ _ :: rest => function_calls rest
  end.

(** A function call whose arguments [JSON.parse] rejects. *)
Definition unparsable_call (call : MessageToolCall) : bool :=
  match call with
  | FunctionToolCall _ _ arguments => is_throw (JSON_parse arguments)
  | OtherToolCall _ _ => false
  end.

(** The function calls of an assistant message as the request lists them;
    none when the [tool_calls] key is absent. *)
Definition param_tool_calls (p : ChatCompletionMessageParam)
  : list FunctionCallParam :=
  match p with
  | AssistantMessageParam _ (Some calls) => calls
  | _ => []
  end.

(** A tool whose schema [z.toJSONSchema] cannot convert. *)
Definition unconvertible (tool : Tool) : bool :=
  is_throw (toJSONSchema (tool_schema tool)).
End Chat.

(** ** The tool heuristic, in words

    The conditions of [isOpenRouter], [isDeepSeek] and [disableTools] as
    statements about the configured model name and base URL. *)

(** [sub] occurs in [s]. *)
Definition occurs_in (sub s : string) : Prop :=
  exists pre post : string, s = pre +:+ sub +:+ post.

(** [c] is the small letter [t] or its capital, or any other character [t]
    itself. *)
Definition same_letter (c t : ascii) : Prop :=
  c = t
  \/ ((97 <= nat_of_ascii t)%nat /\ (nat_of_ascii t <= 122)%nat
      /\ (nat_of_ascii c + 32 = nat_of_ascii t)%nat).

(** A character that is no capital and no accented letter: lowering
    another character gives it only from itself or from its capital. *)
Definition plain (t : ascii) : Prop :=
  ((nat_of_ascii t < 65)%nat \/ (90 < nat_of_ascii t)%nat)
  /\ (nat_of_ascii t < 192)%nat.

(** [word], written in small letters, occurs in [s] in some mix of small
    letters and capitals. *)
Definition occurs_caseless (word s : string) : Prop :=
  exists pre w post : string,
    s = pre +:+ w +:+ post
    /\ Forall2 same_letter (list_ascii_of_string w)
         (list_ascii_of_string word).

(** The model name starts with [openrouter/], or the base URL is given and
    contains [openrouter]. *)
Definition via_openrouter (cfg : OpenAIConfig) : Prop :=
  (exists rest : string, model cfg = "openrouter/" +:+ rest)
  \/ (exists u : string, baseURL cfg = Some u /\ occurs_in "openrouter" u).

(** The model name contains [deepseek] or [nex-agi], in any letter case. *)
Definition tool_capable (cfg : OpenAIConfig) : Prop :=
  occurs_caseless "deepseek" (model cfg)
  \/ occurs_caseless "nex-agi" (model cfg).

(** The tools are withheld from the request. *)
Definition tools_withheld (cfg : OpenAIConfig) : Prop :=
  via_openrouter cfg /\ ~ tool_capable cfg.

(** ** Concrete inputs *)

Definition sample_config : @Config nat :=
  {| openai := Samples.config_openai; apiKey := "sk-test"; options := None |}.

Definition sample_text_input : @GenerateTextInput nat :=
  {| text_messages :=
       [ {| msg_role := "user"; msg_content := "Any paper stars?";
            msg_id := None; msg_tool_calls := None |} ];
     text_tools := None;
     text_options := None |}.

(** An answer with one function call and one call of another type. *)
Definition sample_completion : Completion :=
  {| completion_choices :=
       [ {| message :=
              {| cm_content := Some "Searching.";
                 cm_tool_calls :=
                   Some [ OtherToolCall "custom" "call_0";
                          FunctionToolCall "call_1" "caption_search" "{}" ] |};
            choice_finish_reason := "tool_calls" |} ] |}.

Definition sample_create (request : @ChatRequest nat)
  : completion Completion :=
  Normal sample_completion.

Definition sample_toJSONSchema (schema : @OpenAILLM.Schema nat)
  : completion (json nat) :=
  Normal empty_object.

Definition sample_text_output : @GenerateTextOutput nat :=
  {| out_content := Some "Searching.";
     out_toolCalls :=
       [ {| tc_name := "caption_search"; tc_id := "call_1";
            tc_arguments := empty_object |} ];
     out_finishReason := "tool_calls" |}.

End OpenAIChat.

(* ===================================================================== *)
(** * Properties of the string operations *)
(* ===================================================================== *)

Module StringFacts.
Import JS OpenAILLM.

#[local] Arguments String.append !_ _ / : simpl nomatch.

Lemma append_assoc (a b c : string) : (a +:+ b) +:+ c = a +:+ (b +:+ c).
Proof. induction a as [|x a IH]; simpl; [reflexivity | now rewrite IH]. Qed.

Lemma append_empty_r (a : string) : a +:+ "" = a.
Proof. induction a as [|x a IH]; simpl; [reflexivity | now rewrite IH]. Qed.

(** Trimming removes nothing but white space from either end. *)
Lemma trimStart_no_ws (c : ascii) (r : string) :
  is_ws c = false -> trimStart (String c r) = String c r.
Proof. intros H. simpl. now rewrite H. Qed.

Lemma trimEnd_blank (s : string) : trimEnd s = "" <-> trimStart s = "".
Proof.
  induction s as [|c r IH]; simpl; [tauto|].
  destruct (is_ws c) eqn:Hc.
  - destruct (trimEnd r) eqn:Hr.
    + split; intros _; [now apply IH | reflexivity].
    + split; [discriminate|]. intros H. apply IH in H. discriminate.
  - destruct (trimEnd r); split; discriminate.
Qed.

Lemma trimEnd_keeps_head (c : ascii) (r : string) :
  is_ws c = false -> trimEnd (String c r) = String c (trimEnd r).
Proof. intros H. simpl. rewrite H. now destruct (trimEnd r). Qed.

Lemma trimEnd_append (a b : string) :
  trimEnd b <> "" -> trimEnd (a +:+ b) = a +:+ trimEnd b.
Proof.
  intros Hb. induction a as [|c a IH]; simpl; [reflexivity|].
  rewrite IH. destruct (a +:+ trimEnd b) eqn:E; [|reflexivity].
  destruct a; simpl in E; [contradiction | discriminate].
Qed.

Lemma trimStart_append (a b : string) :
  trimStart (a +:+ b) =
  match trimStart a with
  | EmptyString => trimStart b
  | a' => a' +:+ b
  end.
Proof.
  induction a as [|c a IH]; simpl; [reflexivity|].
  destruct (is_ws c); [exact IH | reflexivity].
Qed.

(** Replacing the underscores keeps the length and changes exactly the
    underscores, each into a space. *)
Lemma replace_underscores_length (s : string) :
  String.length (replace_underscores s) = String.length s.
Proof. induction s as [|c r IH]; simpl; [reflexivity | now rewrite IH]. Qed.

Lemma replace_underscores_get (s : string) (i : nat) :
  String.get i (replace_underscores s) =
  match String.get i s with
  | Some c => Some (if Ascii.eqb c "_" then " "%char else c)
  | None => None
  end.
Proof.
  revert i. induction s as [|c r IH]; intros i; simpl; [reflexivity|].
  destruct i; [reflexivity | apply IH].
Qed.

(** ** The fence pattern *)

Definition closing : string := String (ascii_of_nat 10) "```".

Lemma fence_close_closing (u : string) :
  fence_close (u +:+ closing) = true <-> trimStart u = "".
Proof.
  unfold fence_close. rewrite trimStart_append.
  destruct (trimStart u) as [|c r] eqn:E.
  - split; [reflexivity | intros _; reflexivity].
  - split; [|discriminate]. intros H. apply String.eqb_eq in H.
    exfalso. simpl in H.
    destruct r as [|c1 [|c2 [|c3 r]]]; simpl in H; discriminate.
Qed.

(** The lazy group captures the text up to its trailing white space. *)
Lemma fence_body_closing (u : string) :
  fence_body (u +:+ closing) = Some (trimEnd u).
Proof.
  induction u as [|c r IH].
  - reflexivity.
  - change (String c r +:+ closing) with (String c (r +:+ closing)).
    cbn [fence_body]. rewrite IH.
    destruct (fence_close (String c (r +:+ closing))) eqn:Hc.
    + change (String c (r +:+ closing)) with (String c r +:+ closing) in Hc.
      apply fence_close_closing in Hc. apply trimEnd_blank in Hc.
      now rewrite Hc.
    + f_equal. simpl. destruct (trimEnd r) eqn:Hr; [|reflexivity].
      destruct (is_ws c) eqn:Hw; [|reflexivity].
      exfalso. apply trimEnd_blank in Hr.
      assert (Ht : trimStart (String c r) = "") by (simpl; now rewrite Hw).
      apply (fence_close_closing (String c r)) in Ht.
      change (String c r +:+ closing) with (String c (r +:+ closing)) in Ht.
      congruence.
Qed.

(** The greedy white space never has to be given back when the body matches
    after all of it. *)
Lemma fence_open_trimStart (s m : string) :
  fence_body (trimStart s) = Some m -> fence_open s = Some m.
Proof.
  induction s as [|c r IH]; simpl; [tauto|].
  destruct (is_ws c) eqn:Hc; [|tauto].
  intros H. now rewrite (IH H).
Qed.

Lemma fence_open_closing (t : string) :
  fence_open (String (ascii_of_nat 10) (t +:+ closing)) = Some (trim t).
Proof.
  apply fence_open_trimStart.
  change (trimStart (String (ascii_of_nat 10) (t +:+ closing)))
    with (trimStart (t +:+ closing)).
  rewrite trimStart_append. unfold trim.
  destruct (trimStart t) as [|c r] eqn:E; [reflexivity|].
  apply fence_body_closing.
Qed.

(** A fenced text matches the pattern, and the group captures the trimmed
    inner text. *)
Lemma fence_match_fenced (t : string) :
  fence_match (fenced t) = Some (trim t).
Proof.
  change (fence_match (fenced t))
    with (match fence_open (String (ascii_of_nat 10) (t +:+ closing)) with
          | Some m => Some m
          | None =>
              fence_open ("json" +:+ String (ascii_of_nat 10) (t +:+ closing))
          end).
  now rewrite fence_open_closing.
Qed.

Lemma trim_fenced (t : string) : trim (fenced t) = fenced t.
Proof.
  assert (E : fenced t
              = ("```json" +:+ String (ascii_of_nat 10) t) +:+ closing)
    by (unfold fenced, closing; now rewrite append_assoc).
  unfold trim. replace (trimStart (fenced t)) with (fenced t) by reflexivity.
  rewrite E. rewrite trimEnd_append; [reflexivity | discriminate].
Qed.

Lemma json_first_char_plain (c : ascii) :
  json_first_char c = true -> is_ws c = false /\ Ascii.eqb "`" c = false.
Proof.
  destruct c as [[] [] [] [] [] [] [] []]; vm_compute; intros H;
    first [discriminate H | split; reflexivity].
Qed.

(** A text that begins like JSON is not taken for a fence. *)
Lemma fence_match_json (t : string) :
  begins_like_json t = true -> fence_match (trim t) = None.
Proof.
  unfold begins_like_json, trim.
  destruct (trimStart t) as [|c r]; [discriminate|].
  intros H. apply json_first_char_plain in H as [Hw Hb].
  rewrite trimEnd_keeps_head by exact Hw.
  unfold fence_match. cbn [strip_prefix]. now rewrite Hb.
Qed.

End StringFacts.

(* ===================================================================== *)
(** * Properties of the caption search action *)
(* ===================================================================== *)

Module CaptionSearchFacts.
Import JS CaptionSearch.

Section Facts.
Context {Number : Type}.
Variable Number_toString : Number -> string.

Abbreviation run := (CaptionSearch.execute Number_toString).
Abbreviation World := (@CaptionSearch.World Number).
Abbreviation State := (@CaptionSearch.State Number).
Abbreviation SubStep := (@CaptionSearch.SubStep Number).
Abbreviation Chunk := (@CaptionSearch.Chunk Number).

Implicit Types (w : World) (s : State) (input : Input)
  (cfg : AdditionalConfig).

(** Handing a block its own array back changes nothing in the session. *)
Lemma alter_own_subSteps (bs : gmap string Block) (blockId : string)
    (l : ref) :
  bs !! blockId = Some (ResearchBlock l) ->
  alter (apply_patch (subSteps_patch l)) blockId bs = bs.
Proof.
  intros H. apply map_eq. intros k. rewrite lookup_alter.
  case_decide as E; [|reflexivity]. subst k. now rewrite H.
Qed.

Lemma lookup_alter_push (a : gmap ref (list SubStep)) (l : ref)
    (steps : list SubStep) (entry : SubStep) :
  a !! l = Some steps ->
  alter (fun x => x ++ [entry]) l a !! l = Some (steps ++ [entry]).
Proof. intros H. rewrite lookup_alter. case_decide; [|done]. now rewrite H. Qed.

(** *** The endpoint is not configured *)
Lemma execute_unconfigured w input cfg s :
  unconfigured w = true ->
  run w input cfg s =
  (Normal empty_output,
   with_trace s
     (trace s
      ++ [EvConsole "warn"
            ["captionSearch: CLOUDFLARE_RAG_URL not configured"]])).
Proof.
  unfold unconfigured, CaptionSearch.execute. intros ->. reflexivity.
Qed.

(** Unfolds the monadic operations of [execute]. *)
Ltac unfold_effects :=
  unfold CaptionSearch.execute, push_and_update, console, the_request in *;
  unfold mbind, mret, M_bind, M_ret, try_catch, getBlock, push,
    updateBlock, randomUUID, do_fetch, res_json, lift, emit in *;
  cbn beta iota delta [fst snd arrays blocks uuids_drawn trace] in *.

(** *** The call never throws *)
Lemma execute_never_throws w input cfg s :
  exists out, fst (run w input cfg s) = Normal out
              /\ type out = "search_results".
Proof.
  unfold_effects.
  destruct (truthy (getCloudflareRAGURL w)); cbn; [|eauto].
  destruct (blocks s !! researchBlockId cfg) as [[l|ty]|];
    cbn;
    destruct (fetch w _) as [e|res]; cbn; eauto;
    destruct (ok res); cbn; eauto;
    destruct (body res) as [data|e]; cbn; eauto;
    destruct (results_map Number_toString data); cbn; eauto.
Qed.

(** *** Decoding the hits *)

Lemma map_chunks_Forall2 (hits : list (json Number)) (cs : list Chunk) :
  map_chunks Number_toString hits = Normal cs ->
  Forall2 (fun r c => to_chunk Number_toString r = Normal c) hits cs.
Proof.
  revert cs. induction hits as [|r hits IH]; intros cs; cbn.
  - intros [= <-]. constructor.
  - destruct (to_chunk Number_toString r) as [c|e] eqn:Hc; cbn;
      [|discriminate].
    destruct (map_chunks Number_toString hits) as [cs'|e] eqn:Hcs; cbn;
      [|discriminate].
    intros [= <-]. constructor; [exact Hc | now apply IH].
Qed.

(** A hit of the expected shape is always accepted, and its title and URL
    are built from its folder name and its id. *)
Lemma to_chunk_result_json (r : CloudflareSearchResult) :
  exists c : Chunk,
    to_chunk Number_toString (result_json r) = Normal c
    /\ title (metadata c)
       = "CraftyPanda: " +:+ replace_underscores (r_folderName r)
    /\ url (metadata c) = "craftypanda://caption/" +:+ r_id r.
Proof.
  destruct r as [i c f p h n sc]. unfold result_json. cbn.
  eexists. split; [reflexivity|]. cbn. split; reflexivity.
Qed.

Lemma map_chunks_result_json (rs : list CloudflareSearchResult) :
  exists cs : list Chunk,
    map_chunks Number_toString (map result_json rs) = Normal cs
    /\ Forall2
         (fun r c =>
            title (metadata c)
            = "CraftyPanda: " +:+ replace_underscores (r_folderName r)
            /\ url (metadata c) = "craftypanda://caption/" +:+ r_id r)
         rs cs.
Proof.
  induction rs as [|r rs (cs & Hcs & HF)].
  - exists []. split; [reflexivity | constructor].
  - destruct (to_chunk_result_json r) as (c & Hc & Ht).
    exists (c :: cs). split.
    + change (map result_json (r :: rs))
        with (result_json r :: map result_json rs).
      cbn [map_chunks]. rewrite Hc, Hcs. reflexivity.
    + constructor; assumption.
Qed.

(** [data.results.map] throws exactly on the parsed values that are not an
    object with an array [results] of accepted hits. *)
Lemma to_chunk_accepted (r : json Number) :
  is_throw (to_chunk Number_toString r) = negb (hit_accepted Number_toString r).
Proof.
  destruct r as [| b | n | str | items | props]; try reflexivity.
  unfold to_chunk, hit_accepted. cbn.
  destruct (own_property "folderName" props) as [[| | | f | |]|];
    try reflexivity.
  cbn. destruct (template Number_toString (own_property "id" props));
    reflexivity.
Qed.

Lemma map_chunks_accepted (hits : list (json Number)) :
  is_throw (map_chunks Number_toString hits)
  = negb (forallb (hit_accepted Number_toString) hits).
Proof.
  induction hits as [|r hits IH]; [reflexivity|].
  cbn [map_chunks forallb]. pose proof (to_chunk_accepted r) as Hr.
  destruct (to_chunk Number_toString r) as [c|e]; cbn in Hr |- *.
  - apply (f_equal negb) in Hr. rewrite negb_involutive in Hr. cbn in Hr.
    rewrite <- Hr. cbn.
    destruct (map_chunks Number_toString hits); cbn in IH |- *; exact IH.
  - apply (f_equal negb) in Hr. rewrite negb_involutive in Hr. cbn in Hr.
    rewrite <- Hr. reflexivity.
Qed.

Lemma results_map_accepted (data : json Number) :
  is_throw (results_map Number_toString data)
  = negb (response_accepted Number_toString data).
Proof.
  destruct data as [| b | n | str | items | props]; try reflexivity.
  unfold results_map, response_accepted. cbn.
  destruct (own_property "results" props) as [[| | | | hits |]|];
    try reflexivity.
  apply map_chunks_accepted.
Qed.

(** *** Failures are contained *)

(** C1, as the code has it.  For every query, [execute] raises nothing and
    returns a result of type [search_results], whatever the remote call
    does and whatever the session holds.  The result is
    [{type: 'search_results', results: []}] for every failing outcome: the
    endpoint is not configured, [fetch] rejects, the status is not 2xx, or
    the response cannot be decoded (the body is not JSON, or the parsed
    value is not an object whose [results] is an array of objects that each
    have a string [folderName] and an [id] that can be printed).  A 2xx
    response that can be decoded is not a failure, whether or not it has the
    [CloudflareSearchResponse] shape: it is mapped to one chunk per entry of
    its [results]. *)
Theorem execute_contains_every_failure w input cfg s :
  (exists out : ActionOutput,
     fst (run w input cfg s) = Normal out /\ type out = "search_results")
  /\ (unconfigured w || transport_failure w input
      || non_2xx_status w input
      || CaptionSearchTrace.undecodable Number_toString w input = true ->
      fst (run w input cfg s) = Normal empty_output)
  /\ (forall (res : Response) (data : json Number),
        unconfigured w = false ->
        fetch w (the_request w input) = FetchResolves res ->
        ok res = true ->
        body res = BodyJson data ->
        response_accepted Number_toString data = true ->
        exists (out : ActionOutput) (hits : list (json Number)),
          fst (run w input cfg s) = Normal out
          /\ get data "results" = Normal (Some (JArr hits))
          /\ length (results out) = length hits).
Proof.
  split; [apply execute_never_throws | split].
  - unfold unconfigured, transport_failure, non_2xx_status,
      CaptionSearchTrace.undecodable.
    unfold_effects.
    destruct (truthy (getCloudflareRAGURL w)); cbn; [|reflexivity].
    intros H.
    destruct (blocks s !! researchBlockId cfg) as [[l|ty]|]; cbn;
      destruct (fetch w _) as [e|res]; cbn in *; try reflexivity;
      destruct (ok res); cbn in *; try reflexivity;
      destruct (body res) as [data|e]; cbn in *; try reflexivity;
      pose proof (results_map_accepted data) as Hdec;
      destruct (results_map Number_toString data); cbn in *;
      first [reflexivity | congruence].
  - unfold unconfigured. intros res data Hurl Hfetch Hok Hbody Hacc.
    apply negb_false_iff in Hurl.
    pose proof (results_map_accepted data) as Hdec. rewrite Hacc in Hdec.
    destruct (results_map Number_toString data) as [cs|e] eqn:Hmap;
      [|discriminate Hdec].
    exists {| type := "search_results"; results := cs |}.
    assert (Hhits : exists hits : list (json Number),
              get data "results" = Normal (Some (JArr hits))
              /\ length cs = length hits).
    { unfold results_map in Hmap.
      destruct data as [| b | n | str | items | props];
        try discriminate Hmap.
      cbn in Hmap |- *.
      destruct (own_property "results" props) as [[| | | | hits |]|];
        try discriminate Hmap.
      exists hits. split; [reflexivity|].
      apply map_chunks_Forall2 in Hmap.
      symmetry. exact (Forall2_length _ _ _ Hmap). }
    destruct Hhits as (hits & Hget & Hlen). exists hits.
    split; [|split; [exact Hget | exact Hlen]].
    unfold_effects. rewrite Hurl. cbn.
    destruct (blocks s !! researchBlockId cfg) as [[l|ty]|]; cbn;
      rewrite Hfetch; cbn; rewrite Hok, Hbody; cbn; rewrite Hmap;
      reflexivity.
Qed.

(** *** A successful response *)

(** C5.  When the endpoint is configured and the call resolves to a 2xx
    response of the expected shape with N hits, [execute] returns N chunks;
    the i-th chunk's [metadata.title] is ["CraftyPanda: "] followed by the
    i-th hit's [folderName] with every underscore replaced by a space (a
    text of the same length that has, at each position, a space where the
    folder name has an underscore and the folder name's character
    elsewhere), and its [metadata.url] is ["craftypanda://caption/"]
    followed by the i-th hit's [id]. *)
Theorem execute_maps_every_hit w input cfg s (res : Response)
    (d : CloudflareSearchResponse) :
  unconfigured w = false ->
  fetch w (the_request w input) = FetchResolves res ->
  ok res = true ->
  body res = BodyJson (response_json d) ->
  exists out : ActionOutput,
    fst (run w input cfg s) = Normal out
    /\ type out = "search_results"
    /\ length (results out) = length (q_results d)
    /\ forall (i : nat) (r : CloudflareSearchResult),
         q_results d !! i = Some r ->
         exists (c : Chunk) (t : string),
           results out !! i = Some c
           /\ title (metadata c) = "CraftyPanda: " +:+ t
           /\ String.length t = String.length (r_folderName r)
           /\ (forall k : nat,
                 String.get k t
                 = match String.get k (r_folderName r) with
                   | Some ch =>
                       Some (if Ascii.eqb ch "_" then " "%char else ch)
                   | None => None
                   end)
           /\ url (metadata c) = "craftypanda://caption/" +:+ r_id r.
Proof.
  unfold unconfigured. intros Hurl Hfetch Hok Hbody.
  apply negb_false_iff in Hurl.
  destruct (map_chunks_result_json (q_results d)) as (cs & Hcs & HF).
  exists {| type := "search_results"; results := cs |}.
  split; [|split; [reflexivity|split]].
  - unfold_effects. rewrite Hurl. cbn.
    destruct (blocks s !! researchBlockId cfg) as [[l|ty]|]; cbn;
      rewrite Hfetch; cbn; rewrite Hok, Hbody; cbn;
      unfold results_map, response_json; cbn; rewrite Hcs; reflexivity.
  - cbn. symmetry. exact (Forall2_length _ _ _ HF).
  - intros i r Hr. cbn.
    destruct (Forall2_lookup_l _ _ _ _ _ HF Hr) as (c & Hc & Ht & Hu).
    exists c, (replace_underscores (r_folderName r)).
    split; [exact Hc|]. split; [exact Ht|].
    split; [apply StringFacts.replace_underscores_length|].
    split; [|exact Hu].
    intros k. apply StringFacts.replace_underscores_get.
Qed.

(** *** The research block *)

(** C6, as the code has it.  When the endpoint is configured, the block is
    a research block and the remote call succeeds (a 2xx response that
    decodes to [rs]), [execute] appends exactly two entries to the block's
    [subSteps], a [searching] entry before the call and a [search_results]
    entry after it, and follows each append by an [updateBlock] call that
    carries a [replace] operation on [/data/subSteps] with that array. *)
Theorem execute_appends_two_subSteps w input cfg s (l : ref)
    (steps : list SubStep) (res : Response) (data : json Number)
    (rs : list Chunk) :
  unconfigured w = false ->
  blocks s !! researchBlockId cfg = Some (ResearchBlock l) ->
  arrays s !! l = Some steps ->
  fetch w (the_request w input) = FetchResolves res ->
  ok res = true ->
  body res = BodyJson data ->
  results_map Number_toString data = Normal rs ->
  let searching :=
    SearchingStep (uuid w (uuids_drawn s))
      ["CraftyPanda: " +:+ query input] in
  let found := SearchResultsStep (uuid w (S (uuids_drawn s))) rs in
  let replace_subSteps :=
    [{| op := "replace"; path := "/data/subSteps"; value := l |}] in
  let s' := snd (run w input cfg s) in
  fst (run w input cfg s) = Normal {| type := "search_results"; results := rs |}
  /\ arrays s' !! l = Some (steps ++ [searching; found])
  /\ subStep_type searching = "searching"
  /\ subStep_type found = "search_results"
  /\ blocks s' = blocks s
  /\ trace s' =
     trace s
     ++ [EvPush l searching;
         EvUpdateBlock (researchBlockId cfg) replace_subSteps;
         EvFetch (the_request w input);
         EvPush l found;
         EvUpdateBlock (researchBlockId cfg) replace_subSteps].
Proof.
  unfold unconfigured. intros Hurl Hblock Harr Hfetch Hok Hbody Hmap.
  apply negb_false_iff in Hurl.
  unfold_effects. rewrite Hurl. cbn. rewrite Hblock. cbn.
  rewrite Hfetch. cbn. rewrite Hok, Hbody. cbn. rewrite Hmap. cbn.
  repeat split.
  - rewrite (lookup_alter_push _ l _ _ (lookup_alter_push _ l _ _ Harr)).
    rewrite <- app_assoc. reflexivity.
  - rewrite !(alter_own_subSteps _ _ _ Hblock). reflexivity.
  - rewrite <- !app_assoc. reflexivity.
Qed.

(** C10.  When the endpoint is configured, the block is a research block
    and the remote call fails after the [searching] entry was appended (the
    status is not 2xx, or [fetch], [res.json()] or the decoding throws),
    [execute] returns the empty result and leaves the block's [subSteps]
    with exactly that one new [searching] entry and no [search_results]
    entry: nothing is rolled back. *)
Theorem execute_keeps_searching_entry_on_failure w input cfg s (l : ref)
    (steps : list SubStep) :
  unconfigured w = false ->
  blocks s !! researchBlockId cfg = Some (ResearchBlock l) ->
  arrays s !! l = Some steps ->
  remote_call_fails Number_toString w input = true ->
  let s' := snd (run w input cfg s) in
  fst (run w input cfg s) = Normal empty_output
  /\ arrays s' !! l
     = Some (steps
             ++ [SearchingStep (uuid w (uuids_drawn s))
                   ["CraftyPanda: " +:+ query input]])
  /\ blocks s' = blocks s.
Proof.
  unfold unconfigured, remote_call_fails, transport_failure,
    non_2xx_status, response_shape_error.
  intros Hurl Hblock Harr Hfail.
  apply negb_false_iff in Hurl.
  unfold_effects. rewrite Hurl. cbn. rewrite Hblock. cbn.
  pose proof (lookup_alter_push _ l steps
                (SearchingStep (uuid w (uuids_drawn s))
                   ["CraftyPanda: " +:+ query input]) Harr) as Hpush.
  pose proof (alter_own_subSteps _ _ _ Hblock) as Hsame.
  destruct (fetch w _) as [e|res]; cbn in *; [auto|].
  destruct (ok res); cbn in *; [|auto].
  destruct (body res) as [data|e]; cbn in *; [|auto].
  destruct (results_map Number_toString data); cbn in *;
    [discriminate | auto].
Qed.
End Facts.

(** ** On concrete inputs *)

Import Samples.

Lemma execute_contains_every_failure_witness :
  let run w :=
    fst (execute nat_to_string w sample_input sample_config sample_state) in
  run world_unconfigured = Normal empty_output
  /\ run (world_answering (FetchRejects "TypeError: fetch failed"))
     = Normal empty_output
  /\ run (world_answering answer_server_error) = Normal empty_output
  /\ run (world_answering answer_without_results) = Normal empty_output.
Proof.
  cbn zeta. split; [|split; [|split]].
  - apply (execute_contains_every_failure nat_to_string world_unconfigured
             sample_input sample_config sample_state).
    reflexivity.
  - apply (execute_contains_every_failure nat_to_string
             (world_answering (FetchRejects "TypeError: fetch failed"))
             sample_input sample_config sample_state).
    reflexivity.
  - apply (execute_contains_every_failure nat_to_string
             (world_answering answer_server_error)
             sample_input sample_config sample_state).
    reflexivity.
  - apply (execute_contains_every_failure nat_to_string
             (world_answering answer_without_results)
             sample_input sample_config sample_state).
    reflexivity.
Defined.

Lemma execute_maps_every_hit_witness :
  exists out : ActionOutput,
    fst (execute nat_to_string (world_answering answer_success) sample_input
           sample_config sample_state) = Normal out
    /\ type out = "search_results"
    /\ length (results out) = length (q_results sample_response)
    /\ forall (i : nat) (r : CloudflareSearchResult),
         q_results sample_response !! i = Some r ->
         exists (c : Chunk) (t : string),
           results out !! i = Some c
           /\ title (metadata c) = "CraftyPanda: " +:+ t
           /\ String.length t = String.length (r_folderName r)
           /\ (forall k : nat,
                 String.get k t
                 = match String.get k (r_folderName r) with
                   | Some ch =>
                       Some (if Ascii.eqb ch "_" then " "%char else ch)
                   | None => None
                   end)
           /\ url (metadata c) = "craftypanda://caption/" +:+ r_id r.
Proof.
  apply (execute_maps_every_hit nat_to_string (world_answering answer_success)
           sample_input sample_config sample_state
           {| status := 200; body := BodyJson (response_json sample_response) |}
           sample_response); reflexivity.
Defined.

Lemma execute_appends_two_subSteps_witness :
  let w := world_answering answer_success in
  let rs := results_of_sample in
  let searching := SearchingStep "uuid-0" ["CraftyPanda: paper stars"] in
  let found := SearchResultsStep "uuid-1" rs in
  let replace_subSteps :=
    [{| op := "replace"; path := "/data/subSteps"; value := 0 |}] in
  let s' := snd (execute nat_to_string w sample_input sample_config
                   sample_state) in
  fst (execute nat_to_string w sample_input sample_config sample_state)
  = Normal {| type := "search_results"; results := rs |}
  /\ arrays s' !! 0 = Some (earlier_steps ++ [searching; found])
  /\ subStep_type searching = "searching"
  /\ subStep_type found = "search_results"
  /\ blocks s' = blocks sample_state
  /\ trace s' =
     [EvPush 0 searching;
      EvUpdateBlock "block-1" replace_subSteps;
      EvFetch (the_request w sample_input);
      EvPush 0 found;
      EvUpdateBlock "block-1" replace_subSteps].
Proof.
  apply (execute_appends_two_subSteps nat_to_string
           (world_answering answer_success) sample_input sample_config
           sample_state 0 earlier_steps
           {| status := 200; body := BodyJson (response_json sample_response) |}
           (response_json sample_response) results_of_sample);
    reflexivity.
Defined.

Lemma execute_keeps_searching_entry_on_failure_witness :
  let w := world_answering answer_without_results in
  let s' := snd (execute nat_to_string w sample_input sample_config
                   sample_state) in
  fst (execute nat_to_string w sample_input sample_config sample_state)
  = Normal empty_output
  /\ arrays s' !! 0
     = Some (earlier_steps
             ++ [SearchingStep "uuid-0" ["CraftyPanda: paper stars"]])
  /\ blocks s' = blocks sample_state.
Proof.
  apply (execute_keeps_searching_entry_on_failure nat_to_string
           (world_answering answer_without_results) sample_input
           sample_config sample_state 0 earlier_steps);
    reflexivity.
Defined.

(** Each kind of failure, on a concrete world. *)
Example execute_contains_each_failure :
  let run w :=
    fst (execute nat_to_string w sample_input sample_config sample_state) in
  run world_unconfigured = Normal empty_output
  /\ run (world_answering (FetchRejects "TypeError: fetch failed"))
     = Normal empty_output
  /\ run (world_answering answer_server_error) = Normal empty_output
  /\ run (world_answering answer_without_results) = Normal empty_output.
Proof. repeat split. Qed.

(** A response of another shape that still decodes is not a failure: a hit
    without an id is mapped as usual, with [undefined] in its URL. *)
Example execute_maps_hit_without_id :
  let answer :=
    FetchResolves
      {| status := 200;
         body :=
           BodyJson
             (JObj [("results",
                     JArr [JObj [("folderName", JStr "felt_hats")]])])
      |} in
  exists c : Chunk,
    fst (execute nat_to_string (world_answering answer) sample_input
           sample_config sample_state)
    = Normal {| type := "search_results"; results := [c] |}
    /\ title (metadata c) = "CraftyPanda: felt hats"
    /\ url (metadata c) = "craftypanda://caption/undefined".
Proof. eexists. repeat split. Qed.

(** C1, as stated, fails for a response-shape error that decoding does not
    notice: a 2xx response whose body is the JSON of no
    [CloudflareSearchResponse] (no [query], no [total], a hit without [id],
    [content], [imageCount] and [score]) is not answered with the empty
    list, its hit is mapped to a chunk. *)
Lemma execute_maps_misshaped_response :
  (forall d : @CloudflareSearchResponse nat,
     response_json d <> CaptionSearchTrace.misshaped_body)
  /\ exists c : @Chunk nat,
       fst (execute nat_to_string
              (world_answering CaptionSearchTrace.answer_misshaped)
              sample_input sample_config sample_state)
       = Normal {| type := "search_results"; results := [c] |}
       /\ title (metadata c) = "CraftyPanda: felt hats"
       /\ url (metadata c) = "craftypanda://caption/undefined"
       /\ content c = None.
Proof.
  split; [intros d; discriminate|].
  eexists. repeat split.
Qed.

(** C6, as stated, fails: given a research block and a remote call that
    answers with status 500, [execute] appends one entry, not two. *)
Lemma execute_appends_one_subStep_on_http_error :
  let s' := snd (execute nat_to_string (world_answering answer_server_error)
                   sample_input sample_config sample_state) in
  blocks sample_state !! "block-1" = Some (ResearchBlock 0)
  /\ arrays sample_state !! 0 = Some earlier_steps
  /\ arrays s' !! 0
     = Some (earlier_steps
             ++ [SearchingStep "uuid-0" ["CraftyPanda: paper stars"]])
  /\ ~ (exists e1 e2 : SubStep,
          arrays s' !! 0 = Some (earlier_steps ++ [e1; e2])).
Proof.
  repeat split; try reflexivity.
  intros (e1 & e2 & H). vm_compute in H. discriminate H.
Qed.

End CaptionSearchFacts.

(* ===================================================================== *)
(** * Properties of the provider adapter *)
(* ===================================================================== *)

Module OpenAILLMFacts.
Import JS OpenAILLM StringFacts.

Section Facts.
Context {Number : Type}.
Variable parse : string -> completion (json Number).
Variable JSON_parse : string -> completion (json Number).
Variable repairJson : string -> completion string.

Abbreviation Schema := (@OpenAILLM.Schema Number).
Abbreviation ToolCall := (@OpenAILLM.ToolCall Number).
Abbreviation StreamTextOutput := (@OpenAILLM.StreamTextOutput Number).
Abbreviation streamText_from := (OpenAILLM.streamText_from parse).
Abbreviation streamText := (OpenAILLM.streamText parse).
Abbreviation streamObject_from := (OpenAILLM.streamObject_from parse).
Abbreviation streamObject := (OpenAILLM.streamObject parse).
Abbreviation generateObject :=
  (OpenAILLM.generateObject JSON_parse repairJson).

(** ** Runs *)

Lemma and_then_finished_l {A} (r : Run A) : and_then finished r = r.
Proof. now destruct r. Qed.

Lemma and_then_yield {A} (a : A) (r1 r2 : Run A) :
  and_then (yield a r1) r2 = yield a (and_then r1 r2).
Proof. reflexivity. Qed.

Lemma and_then_say {A} (lines : list Line) (r1 r2 : Run A) :
  and_then (say lines r1) r2 = say lines (and_then r1 r2).
Proof. unfold and_then, say. cbn. now rewrite app_assoc. Qed.

(** ** [streamText] ends with the upstream stream *)

(** The accumulators do not depend on what the parser answers. *)
Lemma on_tool_call_accumulates (received : list ReceivedToolCall)
    (tc : ToolCallDelta) :
  (on_tool_call parse received tc).1.1 = accumulate received tc.
Proof.
  unfold on_tool_call, accumulate.
  destruct (received !! index tc) as [existing|];
    cbn zeta; destruct (parse_arguments parse _); reflexivity.
Qed.

Lemma on_tool_calls_received (received : list ReceivedToolCall)
    (toolCalls : list ToolCallDelta) :
  (on_tool_calls parse received toolCalls).1.1
  = received_after received toolCalls.
Proof.
  revert received. induction toolCalls as [|tc rest IH]; intros received;
    [reflexivity|].
  cbn [on_tool_calls received_after fold_left].
  rewrite <- (on_tool_call_accumulates received tc).
  destruct (on_tool_call parse received tc) as [[received1 entry] warned].
  specialize (IH received1).
  destruct (on_tool_calls parse received1 rest)
    as [[received2 entries] lines]. exact IH.
Qed.

Lemma on_tool_calls_length (received : list ReceivedToolCall)
    (toolCalls : list ToolCallDelta) :
  length (on_tool_calls parse received toolCalls).1.2 = length toolCalls.
Proof.
  revert received. induction toolCalls as [|tc rest IH]; intros received;
    [reflexivity|].
  cbn [on_tool_calls].
  destruct (on_tool_call parse received tc) as [[received1 entry] warned].
  specialize (IH received1).
  destruct (on_tool_calls parse received1 rest)
    as [[received2 entries] lines]. cbn in *. now rewrite IH.
Qed.

(** One update per chunk with a first choice, in order, whatever the finish
    reasons are; the generator itself never throws. *)
Lemma streamText_follows_upstream (received : list ReceivedToolCall)
    (stream : list ChatCompletionChunk) :
  map (fun u : StreamTextOutput => (contentChunk u, done u, finishReason u))
      (yielded (streamText_from received stream))
  = map (fun c : Choice =>
           (or_else (d_content (delta c)) "",
            match finish_reason c with Some _ => true | None => false end,
            finish_reason c))
        (first_choices stream)
  /\ thrown (streamText_from received stream) = None.
Proof.
  revert received. induction stream as [|chunk rest IH]; intros received;
    [split; reflexivity|].
  cbn [OpenAILLM.streamText_from first_choices].
  destruct (choices chunk) as [|choice others]; [apply IH|].
  destruct (on_tool_calls parse received _) as [[received' parsed] lines].
  destruct (IH received') as [Hy Ht]. cbn. rewrite Hy, Ht. now split.
Qed.

(** After any part of the stream the generator goes on with the rest, from
    the accumulators that part left behind. *)
Lemma streamText_from_app (received : list ReceivedToolCall)
    (pre post : list ChatCompletionChunk) :
  streamText_from received (pre ++ post)
  = and_then (streamText_from received pre)
      (streamText_from (received_after received (tool_call_deltas pre)) post).
Proof.
  revert received. induction pre as [|chunk pre IH]; intros received.
  - cbn. now rewrite and_then_finished_l.
  - change ((chunk :: pre) ++ post) with (chunk :: (pre ++ post)).
    unfold tool_call_deltas.
    cbn [OpenAILLM.streamText_from first_choices].
    destruct (choices chunk) as [|choice others]; [apply IH|].
    cbn [flat_map]. unfold received_after. rewrite fold_left_app.
    pose proof (on_tool_calls_received received
                  (optional_list (tool_calls (delta choice)))) as Hr.
    destruct (on_tool_calls parse received _) as [[received1 parsed] lines].
    cbn in Hr. subst received1.
    rewrite and_then_say, and_then_yield. now rewrite IH.
Qed.

(** ** [streamObject] *)

Lemma before_fatal_cons (e : ResponseStreamEvent)
    (stream : list ResponseStreamEvent) :
  before_fatal parse (e :: stream) = e :: stream ->
  is_fatal_event parse e = false /\ before_fatal parse stream = stream.
Proof.
  cbn [before_fatal]. destruct (is_fatal_event parse e); [discriminate|].
  intros [= H]. now split.
Qed.

(** As long as no completed text is rejected, the generator goes on with
    whatever the upstream sends next. *)
Lemma streamObject_from_app (recievedObj : string)
    (pre post : list ResponseStreamEvent) :
  before_fatal parse pre = pre ->
  streamObject_from recievedObj (pre ++ post)
  = and_then (streamObject_from recievedObj pre)
      (streamObject_from (accumulated_text recievedObj pre) post).
Proof.
  revert recievedObj. induction pre as [|e pre IH]; intros recievedObj H.
  - cbn. now rewrite and_then_finished_l.
  - apply before_fatal_cons in H as [He H].
    change ((e :: pre) ++ post) with (e :: (pre ++ post)).
    destruct e as [delta | text | ty];
      cbn [OpenAILLM.streamObject_from accumulated_text].
    + destruct (truthy delta); [|now apply IH].
      destruct (parse (recievedObj +:+ delta));
        rewrite ?and_then_say, and_then_yield, IH by exact H; reflexivity.
    + cbn in He. destruct (truthy text); [|now apply IH].
      destruct (parse text); [|discriminate He].
      rewrite and_then_yield, IH by exact H. reflexivity.
    + now apply IH.
Qed.

Lemma streamObject_follows_upstream (recievedObj : string)
    (stream : list ResponseStreamEvent) :
  length (yielded (streamObject_from recievedObj stream))
  = length (filter is_text_event (before_fatal parse stream))
  /\ (thrown (streamObject_from recievedObj stream) = None
      <-> before_fatal parse stream = stream).
Proof.
  revert recievedObj.
  induction stream as [|e rest IH]; intros recievedObj; [now split|].
  destruct e as [delta | text | ty];
    cbn [OpenAILLM.streamObject_from before_fatal is_fatal_event].
  - destruct (truthy delta) eqn:Hd.
    + destruct (IH (recievedObj +:+ delta)) as [Hl Ht].
      rewrite filter_cons_True by (cbn; now rewrite Hd).
      destruct (parse (recievedObj +:+ delta)); cbn; rewrite Hl;
        (split; [reflexivity|]); rewrite Ht;
        split; [congruence | now intros [= ->] ..].
    + destruct (IH recievedObj) as [Hl Ht].
      rewrite filter_cons_False by (cbn; now rewrite Hd).
      split; [exact Hl|]. rewrite Ht.
      split; [congruence | now intros [= ->]].
  - destruct (truthy text) eqn:Hd; cbn [andb].
    + destruct (parse text); cbn [is_throw].
      * destruct (IH recievedObj) as [Hl Ht].
        rewrite filter_cons_True by (cbn; now rewrite Hd).
        cbn. rewrite Hl. split; [reflexivity|]. rewrite Ht.
        split; [congruence | now intros [= ->]].
      * cbn. split; [reflexivity|]. split; discriminate.
    + destruct (IH recievedObj) as [Hl Ht].
      rewrite filter_cons_False by (cbn; now rewrite Hd).
      split; [exact Hl|]. rewrite Ht.
      split; [congruence | now intros [= ->]].
  - destruct (IH recievedObj) as [Hl Ht].
    rewrite filter_cons_False by (cbn; auto).
    split; [exact Hl|]. rewrite Ht.
    split; [congruence | now intros [= ->]].
Qed.

(** C2, as the code has it.  A streaming text call yields one update for
    every upstream chunk that has a first choice, in order and up to the end
    of the upstream stream; an update's [done] flag is set exactly when its
    chunk's finish reason is non-null, and the generator does not stop
    there.  A streaming object call yields one value for every non-empty
    text event, up to the end of the upstream stream or to the first
    completed text that does not parse.  No local heuristic ends either of
    them. *)
Theorem streams_end_with_upstream (stream : list ChatCompletionChunk)
    (events : list ResponseStreamEvent) :
  map (fun u : StreamTextOutput => done u) (yielded (streamText stream))
  = map (fun c : Choice =>
           match finish_reason c with Some _ => true | None => false end)
        (first_choices stream)
  /\ thrown (streamText stream) = None
  /\ length (yielded (streamObject events))
     = length (filter is_text_event (before_fatal parse events))
  /\ (thrown (streamObject events) = None
      <-> before_fatal parse events = events).
Proof.
  destruct (streamText_follows_upstream [] stream) as [Hy Ht].
  destruct (streamObject_follows_upstream "" events) as [Hl He].
  repeat split; try assumption; try apply He.
  apply (f_equal (map (fun t : string * bool * option string => t.1.2)))
    in Hy.
  rewrite !map_map in Hy. exact Hy.
Qed.

(** C7.  In a streaming object call that has met no fatal event so far, a
    non-empty text increment yields the tolerant parse of the accumulated
    text, the empty object when that parse fails, and the stream goes on;
    a completed text that fails to parse ends the generator with an error,
    and nothing is yielded after it. *)
Theorem streamObject_tolerates_increments_only
    (pre post : list ResponseStreamEvent) (delta text err : string) :
  before_fatal parse pre = pre ->
  truthy delta = true ->
  truthy text = true ->
  parse text = Throw err ->
  let accumulated := accumulated_text "" pre +:+ delta in
  (yielded (streamObject (pre ++ OutputTextDelta delta :: post))
   = yielded (streamObject pre)
     ++ partial_object parse accumulated
        :: yielded (streamObject_from accumulated post)
   /\ thrown (streamObject (pre ++ OutputTextDelta delta :: post))
      = thrown (streamObject_from accumulated post)
   /\ (is_throw (parse accumulated) = true ->
       partial_object parse accumulated = empty_object))
  /\ (yielded (streamObject (pre ++ OutputTextDone text :: post))
      = yielded (streamObject pre)
      /\ thrown (streamObject (pre ++ OutputTextDone text :: post))
         = Some (Error ("Error parsing response from OpenAI: " +:+ err))).
Proof.
  intros Hpre Hd Ht Herr accumulated. split.
  - unfold OpenAILLM.streamObject.
    rewrite streamObject_from_app by exact Hpre.
    cbn [OpenAILLM.streamObject_from]. rewrite Hd. fold accumulated.
    unfold partial_object.
    destruct (parse accumulated); cbn; repeat split; try reflexivity;
      discriminate.
  - unfold OpenAILLM.streamObject.
    rewrite streamObject_from_app by exact Hpre.
    cbn [OpenAILLM.streamObject_from]. rewrite Ht, Herr. cbn.
    now rewrite app_nil_r.
Qed.

(** ** [generateObject] *)

(** C3.  When the response text, once stripped, repaired and parsed,
    violates the schema, [generateObject] raises an error in the enforced
    mode, and in the degraded json-object mode logs the violation and
    returns the parsed object as it is. *)
Theorem generateObject_schema_violation (cfg : OpenAIConfig)
    (schema : Schema) (rawContent : string) (others : list (option string))
    (repaired : string) (parsed : json Number) (issues : string) :
  repairJson (stripMarkdownCodeFence (trim rawContent)) = Normal repaired ->
  JSON_parse repaired = Normal parsed ->
  safeParse schema parsed = Failure issues ->
  generateObject cfg schema
    {| message_contents := Some rawContent :: others |}
  = if needsJsonObjectMode cfg
    then (Normal parsed, [validation_warning issues])
    else (Throw (Error ("Error parsing response from OpenAI: " +:+ issues)),
          []).
Proof.
  intros Hrepair Hparse Hschema.
  unfold OpenAILLM.generateObject, parse_response, schema_parse. cbn.
  rewrite Hrepair, Hparse, Hschema.
  destruct (needsJsonObjectMode cfg); reflexivity.
Qed.

(** C8.  For every text [t] that begins like a JSON text, a response whose
    content is [t] inside a [json] code fence is handled exactly as a
    response whose content is [t] itself: the same object is returned, or
    the same error raised, with the same console output. *)
Theorem generateObject_ignores_code_fence (cfg : OpenAIConfig)
    (schema : Schema) (t : string) (others : list (option string)) :
  begins_like_json t = true ->
  generateObject cfg schema
    {| message_contents := Some (fenced t) :: others |}
  = generateObject cfg schema {| message_contents := Some t :: others |}.
Proof.
  intros Ht.
  assert (E : stripMarkdownCodeFence (trim (fenced t))
              = stripMarkdownCodeFence (trim t)).
  { unfold stripMarkdownCodeFence.
    now rewrite trim_fenced, fence_match_fenced, fence_match_json. }
  unfold OpenAILLM.generateObject, parse_response. cbn. now rewrite E.
Qed.

(** ** The accumulators of [streamText] *)

Lemma accumulate_fresh (received : list ReceivedToolCall)
    (tc : ToolCallDelta) :
  received !! index tc = None ->
  accumulate received tc = received ++ [new_call tc].
Proof. unfold accumulate. now intros ->. Qed.

Lemma accumulate_existing (received : list ReceivedToolCall)
    (tc : ToolCallDelta) (call : ReceivedToolCall) :
  received !! index tc = Some call ->
  accumulate received tc
  = <[index tc := append_arguments call tc]> received.
Proof. unfold accumulate. now intros ->. Qed.

(** A delta whose index is taken, or is the next free position, keeps the
    list in agreement with the keyed accumulators. *)
Lemma agrees_step (received : list ReceivedToolCall)
    (calls : gmap nat ReceivedToolCall) (tc : ToolCallDelta) :
  agrees received calls ->
  index tc <= length received ->
  agrees (accumulate received tc) (accumulate_keyed calls tc).
Proof.
  intros Hag Hle j. unfold accumulate, accumulate_keyed.
  rewrite <- (Hag (index tc)).
  destruct (received !! index tc) as [call|] eqn:Hl.
  - apply lookup_lt_Some in Hl as Hlt.
    destruct (decide (j = index tc)) as [->|Hne].
    + rewrite list_lookup_insert_eq by exact Hlt.
      now rewrite lookup_insert_eq.
    + rewrite list_lookup_insert_ne by congruence.
      rewrite lookup_insert_ne by congruence. apply Hag.
  - apply lookup_ge_None in Hl.
    assert (Hi : index tc = length received) by lia.
    destruct (decide (j = index tc)) as [->|Hne].
    + rewrite lookup_insert_eq, Hi, lookup_app_r by lia.
      now rewrite Nat.sub_diag.
    + rewrite lookup_insert_ne by congruence. rewrite <- Hag.
      destruct (decide (j < length received)) as [Hlt|Hge].
      * now rewrite lookup_app_l.
      * rewrite !(proj2 (lookup_ge_None _ _)); [reflexivity | lia |].
        rewrite length_app. cbn. lia.
Qed.

(** A delta whose index lies beyond the next free position breaks the
    agreement: its accumulator is stored where no lookup by that index
    finds it. *)
Lemma agrees_broken (received : list ReceivedToolCall)
    (calls : gmap nat ReceivedToolCall) (tc : ToolCallDelta) :
  agrees received calls ->
  length received < index tc ->
  ~ agrees (accumulate received tc) (accumulate_keyed calls tc).
Proof.
  intros Hag Hlt Hnew. specialize (Hnew (length received)).
  unfold accumulate, accumulate_keyed in Hnew.
  rewrite <- (Hag (index tc)) in Hnew.
  rewrite (proj2 (lookup_ge_None received (index tc))) in Hnew by lia.
  rewrite lookup_app_r, Nat.sub_diag in Hnew by lia.
  rewrite lookup_insert_ne, <- Hag in Hnew by lia.
  rewrite (proj2 (lookup_ge_None received (length received))) in Hnew by lia.
  discriminate Hnew.
Qed.

Lemma accumulate_length (received : list ReceivedToolCall)
    (tc : ToolCallDelta) :
  length (accumulate received tc)
  = if (index tc <? length received)%nat then length received
    else S (length received).
Proof.
  unfold accumulate. destruct (received !! index tc) as [call|] eqn:Hl.
  - apply lookup_lt_Some in Hl. rewrite length_insert.
    now rewrite (proj2 (Nat.ltb_lt _ _) Hl).
  - apply lookup_ge_None in Hl.
    rewrite length_app, (proj2 (Nat.ltb_ge _ _) Hl). cbn. lia.
Qed.

(** Agreement after every delta is the same as the indices first
    appearing in contiguous increasing order. *)
Lemma agrees_throughout (deltas : list ToolCallDelta)
    (received : list ReceivedToolCall)
    (calls : gmap nat ReceivedToolCall) :
  agrees received calls ->
  (forall k : nat,
     k <= length deltas ->
     agrees (received_after received (take k deltas))
            (keyed_after calls (take k deltas)))
  <-> first_appear_from (length received) deltas = true.
Proof.
  revert received calls.
  induction deltas as [|tc rest IH]; intros received calls Hag.
  - split; [reflexivity|]. intros _ k _. now rewrite take_nil.
  - cbn [first_appear_from].
    destruct (index tc <? length received)%nat eqn:Hlt;
      [|destruct (index tc =? length received)%nat eqn:Heq].
    + apply Nat.ltb_lt in Hlt.
      assert (Hst := agrees_step received calls tc Hag ltac:(lia)).
      pose proof (accumulate_length received tc) as Hlen.
      rewrite (proj2 (Nat.ltb_lt _ _) Hlt) in Hlen.
      rewrite <- Hlen, <- (IH _ _ Hst). split.
      * intros H k Hk. apply (H (S k)). cbn. lia.
      * intros H [|k] Hk; [exact Hag|]. apply H. cbn in Hk. lia.
    + apply Nat.eqb_eq in Heq.
      assert (Hst := agrees_step received calls tc Hag ltac:(lia)).
      pose proof (accumulate_length received tc) as Hlen.
      rewrite Hlt in Hlen.
      rewrite <- Hlen, <- (IH _ _ Hst). split.
      * intros H k Hk. apply (H (S k)). cbn. lia.
      * intros H [|k] Hk; [exact Hag|]. apply H. cbn in Hk. lia.
    + apply Nat.ltb_ge in Hlt. apply Nat.eqb_neq in Heq.
      split; [|discriminate]. intros H. exfalso.
      apply (agrees_broken received calls tc Hag); [lia|].
      apply (H 1). cbn. lia.
Qed.

Lemma agrees_empty : agrees [] ∅.
Proof. intros i. now rewrite lookup_nil, lookup_empty. Qed.

(** The order test agrees with the list of first appearances: the indices
    first appear as 0, 1, 2, ... *)
Lemma first_appearances_ext (seen1 seen2 : list nat)
    (deltas : list ToolCallDelta) :
  (forall x : nat, x ∈ seen1 <-> x ∈ seen2) ->
  first_appearances seen1 deltas = first_appearances seen2 deltas.
Proof.
  revert seen1 seen2.
  induction deltas as [|tc rest IH]; intros seen1 seen2 H; [reflexivity|].
  cbn [first_appearances].
  rewrite (bool_decide_ext _ _ (H (index tc))).
  destruct (bool_decide (index tc ∈ seen2)); [now apply IH|].
  f_equal. apply IH. intros x. rewrite !elem_of_cons, H. tauto.
Qed.

Lemma first_appear_from_spec (n : nat) (deltas : list ToolCallDelta) :
  first_appear_from n deltas = true
  <-> first_appearances (seq 0 n) deltas
      = seq n (length (first_appearances (seq 0 n) deltas)).
Proof.
  revert n. induction deltas as [|tc rest IH]; intros n; [now split|].
  cbn [first_appear_from first_appearances].
  destruct (index tc <? n)%nat eqn:Hlt;
    [|destruct (index tc =? n)%nat eqn:Heq].
  - apply Nat.ltb_lt in Hlt.
    rewrite bool_decide_eq_true_2 by (apply elem_of_seq; lia). apply IH.
  - apply Nat.eqb_eq in Heq. apply Nat.ltb_ge in Hlt.
    rewrite bool_decide_eq_false_2 by (rewrite elem_of_seq; lia).
    rewrite (first_appearances_ext (index tc :: seq 0 n) (seq 0 (S n))).
    + rewrite IH, Heq. cbn [length seq].
      split; [intros H; f_equal; exact H | intros [= H]; exact H].
    + intros x. rewrite elem_of_cons, !elem_of_seq. lia.
  - apply Nat.eqb_neq in Heq.
    rewrite bool_decide_eq_false_2
      by (rewrite elem_of_seq; apply Nat.ltb_ge in Hlt; lia).
    cbn [length seq]. split; [discriminate|]. intros [= H]. contradiction.
Qed.

Lemma first_appear_in_order_spec (deltas : list ToolCallDelta) :
  first_appear_in_order deltas = true
  <-> first_appearances [] deltas
      = seq 0 (length (first_appearances [] deltas)).
Proof. apply (first_appear_from_spec 0). Qed.

(** The keyed accumulators hold, under each index, the fragments that came
    with that index, concatenated in order. *)
Lemma keyed_after_arguments (deltas : list ToolCallDelta)
    (calls : gmap nat ReceivedToolCall) (i : nat)
    (call : ReceivedToolCall) :
  keyed_after calls deltas !! i = Some call ->
  rc_arguments call
  = match calls !! i with
    | Some earlier => rc_arguments earlier
    | None => ""
    end +:+ fragments_of i deltas.
Proof.
  revert calls. induction deltas as [|tc rest IH]; intros calls H.
  - cbn in H. rewrite H. cbn. now rewrite append_empty_r.
  - cbn [keyed_after fold_left] in H. apply IH in H. rewrite H. clear H.
    cbn [fragments_of]. unfold accumulate_keyed.
    destruct (index tc =? i)%nat eqn:Heq.
    + apply Nat.eqb_eq in Heq. subst i.
      destruct (calls !! index tc) as [earlier|];
        rewrite lookup_insert_eq; cbn; [now rewrite append_assoc|].
      reflexivity.
    + apply Nat.eqb_neq in Heq.
      destruct (calls !! index tc) as [earlier|];
        now rewrite lookup_insert_ne.
Qed.

(** When the indices first appear in order, the list does accumulate by
    index: the accumulator at position [i] holds the concatenation of the
    fragments that came with index [i]. *)
Lemma received_after_arguments (deltas : list ToolCallDelta) (i : nat)
    (call : ReceivedToolCall) :
  first_appear_in_order deltas = true ->
  received_after [] deltas !! i = Some call ->
  rc_arguments call = fragments_of i deltas.
Proof.
  intros Hord Hcall.
  pose proof (proj2 (agrees_throughout deltas [] ∅ agrees_empty) Hord
                (length deltas) (le_n _) i) as Hag.
  rewrite firstn_all in Hag. rewrite Hcall in Hag. symmetry in Hag.
  apply keyed_after_arguments in Hag. now rewrite lookup_empty in Hag.
Qed.

(** C9.  In [streamText], a tool-call delta whose index has no accumulator
    gets a new accumulator appended at the end of the list, whatever its
    index.  Hence the list serves lookups by index, as a map keyed by index
    would after every delta, exactly when the indices of the stream first
    appear in contiguous increasing order from 0; and there is a stream
    whose first delta has an index above 0 in which a later delta with the
    same index starts a second accumulator instead of extending the
    first. *)
Theorem accumulators_are_appended_not_indexed :
  (forall (received : list ReceivedToolCall) (tc : ToolCallDelta),
     received !! index tc = None ->
     (on_tool_call parse received tc).1.1 = received ++ [new_call tc])
  /\ (forall stream : list ChatCompletionChunk,
        keyed_concatenation_correct (tool_call_deltas stream)
        <-> first_appear_in_order (tool_call_deltas stream) = true)
  /\ (exists (stream : list ChatCompletionChunk) (tc1 tc2 : ToolCallDelta),
        tool_call_deltas stream = [tc1; tc2]
        /\ 0 < index tc1
        /\ index tc2 = index tc1
        /\ received_after [] [tc1] = [new_call tc1]
        /\ received_after [] [tc1; tc2] = [new_call tc1; new_call tc2]).
Proof.
  split; [|split].
  - intros received tc H.
    rewrite on_tool_call_accumulates. now apply accumulate_fresh.
  - intros stream. apply (agrees_throughout _ [] ∅ agrees_empty).
  - exists (Samples.two_fragments 1), (Samples.tool_delta 1 Samples.fragment_1),
      (Samples.tool_delta 1 Samples.fragment_2).
    repeat split; cbn; lia.
Qed.

(** C4, on the stream that carries the two fragments under index 1: the
    second update holds the parse of the second fragment alone (the empty
    object when that parse fails), not the parse of the concatenation. *)
Theorem streamText_index_1_starts_afresh :
  map (fun u : StreamTextOutput => toolCallChunk u)
      (yielded (streamText (Samples.two_fragments 1)))
  = [ [ {| tc_name := ""; tc_id := "tool_1";
           tc_arguments := partial_object parse Samples.fragment_1 |} ];
      [ {| tc_name := ""; tc_id := "tool_1";
           tc_arguments := partial_object parse Samples.fragment_2 |} ] ].
Proof.
  vm_compute.
  repeat match goal with
         | |- context [match parse ?text with _ => _ end] =>
             destruct (parse text)
         end;
    reflexivity.
Qed.

(** Under index 0 the same two fragments are concatenated, and the second
    update holds the parse of the whole text. *)
Lemma streamText_index_0_concatenates :
  map (fun u : StreamTextOutput => toolCallChunk u)
      (yielded (streamText (Samples.two_fragments 0)))
  = [ [ {| tc_name := ""; tc_id := "tool_0";
           tc_arguments := partial_object parse Samples.fragment_1 |} ];
      [ {| tc_name := ""; tc_id := "tool_0";
           tc_arguments :=
             partial_object parse
               (Samples.fragment_1 +:+ Samples.fragment_2) |} ] ].
Proof.
  vm_compute.
  repeat match goal with
         | |- context [match parse ?text with _ => _ end] =>
             destruct (parse text)
         end;
    reflexivity.
Qed.
End Facts.

(** ** On concrete inputs *)

Import Samples.

(** C2, as stated, fails: the upstream stream goes on after the chunk that
    reports the finish reason, and so does the generator. *)
Lemma streamText_yields_after_finish_reason :
  exists u1 u2 : StreamTextOutput,
    yielded (streamText sample_parse stream_past_finish) = [u1; u2]
    /\ finishReason u1 = Some "stop"
    /\ done u1 = true
    /\ contentChunk u2 = " again"
    /\ done u2 = false.
Proof. do 2 eexists. repeat split. Qed.

Lemma generateObject_schema_violation_witness :
  generateObject sample_JSON_parse sample_repairJson config_groq sample_schema
    {| message_contents := [Some "{}"] |}
  = if needsJsonObjectMode config_groq
    then (Normal empty_object, [validation_warning "x: Required"])
    else (Throw (Error ("Error parsing response from OpenAI: "
                        +:+ "x: Required")), []).
Proof.
  apply (generateObject_schema_violation sample_JSON_parse sample_repairJson
           config_groq sample_schema "{}" [] "{}" empty_object "x: Required");
    reflexivity.
Defined.

(** The same violation in the two modes. *)
Example generateObject_violation_degraded :
  generateObject sample_JSON_parse sample_repairJson config_groq sample_schema
    {| message_contents := [Some "{}"] |}
  = (Normal empty_object, [validation_warning "x: Required"]).
Proof. reflexivity. Qed.

Example generateObject_violation_enforced :
  generateObject sample_JSON_parse sample_repairJson config_openai
    sample_schema {| message_contents := [Some "{}"] |}
  = (Throw "Error: Error parsing response from OpenAI: x: Required", []).
Proof. reflexivity. Qed.

Lemma streamObject_tolerates_increments_only_witness :
  let pre := [OutputTextDelta fragment_1] in
  let accumulated := accumulated_text "" pre +:+ fragment_2 in
  (yielded (streamObject sample_parse (pre ++ [OutputTextDelta fragment_2]))
   = yielded (streamObject sample_parse pre)
     ++ partial_object sample_parse accumulated
        :: yielded (streamObject_from sample_parse accumulated [])
   /\ thrown (streamObject sample_parse (pre ++ [OutputTextDelta fragment_2]))
      = thrown (streamObject_from sample_parse accumulated [])
   /\ (is_throw (sample_parse accumulated) = true ->
       partial_object sample_parse accumulated = empty_object))
  /\ (yielded (streamObject sample_parse (pre ++ [OutputTextDone fragment_2]))
      = yielded (streamObject sample_parse pre)
      /\ thrown (streamObject sample_parse (pre ++ [OutputTextDone fragment_2]))
         = Some (Error ("Error parsing response from OpenAI: "
                        +:+ "MalformedJSON: Unexpected token"))).
Proof.
  apply (streamObject_tolerates_increments_only sample_parse
           [OutputTextDelta fragment_1] [] fragment_2 fragment_2
           "MalformedJSON: Unexpected token"); reflexivity.
Defined.

(** An increment that does not parse yields the empty object and the stream
    goes on; the completed text that does not parse ends it. *)
Example streamObject_on_fragments :
  streamObject sample_parse
    [OutputTextDelta fragment_2; OutputTextDelta fragment_1;
     OutputTextDone (fragment_1 +:+ fragment_2)]
  = {| yielded := [empty_object; empty_object; object_ab];
       console :=
         [partial_parse_log "MalformedJSON: Unexpected token";
          partial_parse_log "MalformedJSON: Unexpected token"];
       thrown := None |}
  /\ streamObject sample_parse
       [OutputTextDelta fragment_1; OutputTextDone fragment_2;
        OutputTextDelta fragment_2]
     = {| yielded := [object_a];
          console := [];
          thrown :=
            Some (Error ("Error parsing response from OpenAI: "
                         +:+ "MalformedJSON: Unexpected token")) |}.
Proof. split; reflexivity. Qed.

Lemma generateObject_ignores_code_fence_witness :
  generateObject sample_JSON_parse sample_repairJson config_openai
    sample_schema
    {| message_contents := [Some (fenced ("{" +:+ quoted "x" +:+ ":1}"))] |}
  = generateObject sample_JSON_parse sample_repairJson config_openai
      sample_schema
      {| message_contents := [Some ("{" +:+ quoted "x" +:+ ":1}")] |}.
Proof.
  apply (generateObject_ignores_code_fence sample_JSON_parse sample_repairJson
           config_openai sample_schema ("{" +:+ quoted "x" +:+ ":1}") []).
  reflexivity.
Defined.

Example generateObject_fenced_example :
  generateObject sample_JSON_parse sample_repairJson config_openai
    sample_schema
    {| message_contents := [Some (fenced ("{" +:+ quoted "x" +:+ ":1}"))] |}
  = (Normal object_x, []).
Proof. reflexivity. Qed.

(** The two fragments of the example under index 0 and under index 1. *)
Example streamText_fragments_index_0 :
  map (fun u : StreamTextOutput => toolCallChunk u)
      (yielded (streamText sample_parse (two_fragments 0)))
  = [ [ {| tc_name := ""; tc_id := "tool_0"; tc_arguments := object_a |} ];
      [ {| tc_name := ""; tc_id := "tool_0"; tc_arguments := object_ab |} ] ].
Proof. reflexivity. Qed.

Example streamText_fragments_index_1 :
  map (fun u : StreamTextOutput => toolCallChunk u)
      (yielded (streamText sample_parse (two_fragments 1)))
  = [ [ {| tc_name := ""; tc_id := "tool_1"; tc_arguments := object_a |} ];
      [ {| tc_name := ""; tc_id := "tool_1"; tc_arguments := empty_object |} ] ]
  /\ thrown (streamText sample_parse (two_fragments 1)) = None.
Proof. split; reflexivity. Qed.

End OpenAILLMFacts.

(* ===================================================================== *)
(** * Further properties of the caption search action *)
(* ===================================================================== *)

Module CaptionSearchSession.
Import JS CaptionSearch CaptionSearchTrace.

Section Facts.
Context {Number : Type}.
Variable Number_toString : Number -> string.

Abbreviation run := (CaptionSearch.execute Number_toString).
Abbreviation World := (@CaptionSearch.World Number).
Abbreviation State := (@CaptionSearch.State Number).
Abbreviation Event := (@CaptionSearch.Event Number).
Abbreviation SubStep := (@CaptionSearch.SubStep Number).
Abbreviation Chunk := (@CaptionSearch.Chunk Number).

Implicit Types (w : World) (s : State) (input : Input)
  (cfg : AdditionalConfig).

Lemma events_of_app s (t l : list Event) (a : gmap ref (list SubStep))
    (b : gmap string Block) (n : nat) :
  t = trace s ++ l ->
  events_of s {| arrays := a; blocks := b; uuids_drawn := n; trace := t |}
  = l.
Proof. intros ->. unfold events_of. cbn. apply drop_app_length. Qed.

(** Unfolds the monadic operations of [execute]. *)
Ltac open_execute :=
  unfold CaptionSearch.execute, push_and_update, console, the_request in *;
  unfold mbind, mret, M_bind, M_ret, try_catch, getBlock, push,
    updateBlock, randomUUID, do_fetch, res_json, lift, emit in *;
  cbn beta iota delta [fst snd arrays blocks uuids_drawn trace] in *.

(** Unfolds [execute] and splits on every branch it takes. *)
Ltac every_path w s cfg :=
  open_execute;
  destruct (truthy (getCloudflareRAGURL w)) eqn:Hurl; cbn;
  [ destruct (blocks s !! researchBlockId cfg) as [[l|ty]|] eqn:Hblock; cbn;
    (destruct (fetch w _) as [e|res] eqn:Hfetch; cbn;
     [ | destruct (ok res) eqn:Hok; cbn;
         [ destruct (body res) as [data|e] eqn:Hbody; cbn;
           [ destruct (results_map Number_toString data) as [rs|e] eqn:Hmap;
             cbn
           | ]
         | ] ])
  | ].

Ltac settle_events :=
  erewrite events_of_app by (rewrite <- ?app_assoc; reflexivity).

(** X1.  A call sends at most one request: none when the endpoint is not
    configured, and otherwise exactly one, whatever the answer is: a POST to
    the configured URL followed by [/search], with the one header
    [Content-Type: application/json] and the body
    [{"query":<the query as a JSON string>,"limit":5,"threshold":0.5}].
    Nothing the call did before is removed from the trace. *)
Theorem execute_requests_once w input cfg s :
  let s' := snd (run w input cfg s) in
  let q := String (ascii_of_nat 34) "" in
  let sent :=
    {| req_url := getCloudflareRAGURL w +:+ "/search";
       req_method := "POST";
       req_headers := [("Content-Type", "application/json")];
       req_body :=
         "{" +:+ q +:+ "query" +:+ q +:+ ":"
         +:+ JSON_stringify_string (query input)
         +:+ "," +:+ q +:+ "limit" +:+ q +:+ ":5,"
         +:+ q +:+ "threshold" +:+ q +:+ ":0.5}" |} in
  trace s' = trace s ++ events_of s s'
  /\ filter is_fetch (events_of s s')
     = if getCloudflareRAGURL w is "" then [] else [EvFetch sent].
Proof.
  cbn zeta.
  every_path w s cfg; settle_events; rewrite <- ?app_assoc;
    (split; [reflexivity|]);
    destruct (getCloudflareRAGURL w); try discriminate Hurl; reflexivity.
Qed.
(** X2.  A call writes exactly one diagnostic line to the console when it
    fails (the endpoint is not configured, [fetch] rejects, the status is not
    2xx, or decoding raises) and writes nothing when it succeeds. *)
Theorem execute_logs_failures_only w input cfg s :
  length (filter is_console (events_of s (snd (run w input cfg s))))
  = if unconfigured w || transport_failure w input
       || non_2xx_status w input
       || response_shape_error Number_toString w input
    then 1 else 0.
Proof.
  unfold unconfigured, transport_failure, non_2xx_status,
    response_shape_error.
  every_path w s cfg; settle_events; reflexivity.
Qed.

(** X3.  When the block under the given id is missing or is not a research
    block, a call changes nothing in the session, whatever the remote call
    answers: no array is touched, no block is patched, nothing is pushed and
    [updateBlock] is never called. *)
Theorem execute_ignores_other_blocks w input cfg s :
  is_research (blocks s !! researchBlockId cfg) = false ->
  let s' := snd (run w input cfg s) in
  arrays s' = arrays s
  /\ blocks s' = blocks s
  /\ filter is_push (events_of s s') = []
  /\ filter is_updateBlock (events_of s s') = [].
Proof.
  every_path w s cfg; intros H; try discriminate H; settle_events;
    repeat split; reflexivity.
Qed.

(** X4.  Given a research block, a call only ever appends to the block's
    [subSteps]: whatever the outcome, the earlier entries are kept in place,
    at most two entries follow them, each push is matched by one
    [updateBlock] call, every other array is left as it was and the block
    still refers to the same array. *)
Theorem execute_only_appends w input cfg s (subSteps : ref)
    (steps : list SubStep) :
  blocks s !! researchBlockId cfg = Some (ResearchBlock subSteps) ->
  arrays s !! subSteps = Some steps ->
  let s' := snd (run w input cfg s) in
  exists new : list SubStep,
    arrays s' !! subSteps = Some (steps ++ new)
    /\ length new <= 2
    /\ length (filter is_push (events_of s s')) = length new
    /\ length (filter is_updateBlock (events_of s s')) = length new
    /\ (forall other : ref,
          other <> subSteps -> arrays s' !! other = arrays s !! other)
    /\ blocks s' = blocks s.
Proof.
  intros Hb Ha.
  pose proof (CaptionSearchFacts.alter_own_subSteps _ _ _ Hb) as Hsame.
  assert (Hone : forall entry : SubStep,
             alter (fun a => a ++ [entry]) subSteps (arrays s) !! subSteps
             = Some (steps ++ [entry]))
    by (intros entry; now apply CaptionSearchFacts.lookup_alter_push).
  every_path w s cfg; try rewrite Hblock in Hb; try discriminate Hb;
    try (injection Hb as ->); settle_events.
  all: first
    [ exists []; rewrite app_nil_r; repeat split; cbn; try lia; assumption
    | eexists [_]; rewrite Hone, !Hsame; repeat split; cbn; try lia;
      intros other Hother; now rewrite lookup_alter_ne by congruence
    | eexists [_; _];
      rewrite (CaptionSearchFacts.lookup_alter_push _ subSteps _ _ (Hone _));
      rewrite <- app_assoc, !Hsame; repeat split; cbn; try lia;
      intros other Hother; now rewrite !lookup_alter_ne by congruence ].
Qed.

(** X5.  Decoding a parsed response succeeds exactly when the value is an
    object whose [results] is an array of objects that each have a string
    [folderName] and an [id] that can be printed; it then gives one chunk
    per hit. *)
Theorem results_map_accepts_exactly (data : json Number) :
  ((exists cs : list Chunk, results_map Number_toString data = Normal cs)
   <-> response_accepted Number_toString data = true)
  /\ (forall cs : list Chunk,
        results_map Number_toString data = Normal cs ->
        exists hits : list (json Number),
          get data "results" = Normal (Some (JArr hits))
          /\ length cs = length hits).
Proof.
  split.
  - pose proof (CaptionSearchFacts.results_map_accepted Number_toString data)
      as H.
    destruct (results_map Number_toString data) as [cs|e]; cbn in H.
    + symmetry in H. apply negb_false_iff in H.
      split; [intros _; exact H | eauto].
    + symmetry in H. apply negb_true_iff in H. rewrite H.
      split; [intros [cs [=]] | discriminate].
  - intros cs H. unfold results_map in H.
    destruct data as [| b | n | str | items | props]; try discriminate H.
    cbn in H |- *.
    destruct (own_property "results" props) as [[| | | | hits |]|];
      try discriminate H.
    exists hits. split; [reflexivity|].
    apply CaptionSearchFacts.map_chunks_Forall2 in H.
    symmetry. exact (Forall2_length _ _ _ H).
Qed.
Lemma to_chunk_hit_fields (r : CloudflareSearchResult) :
  to_chunk Number_toString (result_json r)
  = Normal
      {| content := Some (JStr (r_content r));
         metadata :=
           {| title :=
                "CraftyPanda: " +:+ replace_underscores (r_folderName r);
              url := "craftypanda://caption/" +:+ r_id r;
              source := "CraftyPanda Historical";
              platform := JStr <$> r_platform r;
              holiday := JStr <$> r_holiday r;
              imageCount := Some (JNum (r_imageCount r));
              score := Some (JNum (r_score r)) |} |}.
Proof. destruct r as [i c f [p|] [h|] n sc]; reflexivity. Qed.

Lemma map_chunks_hit_fields (rs : list CloudflareSearchResult) :
  exists cs : list Chunk,
    map_chunks Number_toString (map result_json rs) = Normal cs
    /\ Forall2 (fun r c => to_chunk Number_toString (result_json r) = Normal c)
         rs cs.
Proof.
  induction rs as [|r rs (cs & Hcs & HF)].
  - exists []. split; [reflexivity | constructor].
  - eexists (_ :: cs). split.
    + change (map result_json (r :: rs))
        with (result_json r :: map result_json rs).
      cbn [map_chunks]. rewrite to_chunk_hit_fields, Hcs. reflexivity.
    + constructor; [apply to_chunk_hit_fields | exact HF].
Qed.

(** X6.  For a 2xx response of the expected shape, the i-th chunk copies the
    i-th hit: its content, image count and score are the hit's, its source is
    "CraftyPanda Historical", and its platform and holiday are the hit's when
    the hit has them and undefined otherwise. *)
Theorem execute_copies_hit_fields w input cfg s (answer : Response)
    (d : CloudflareSearchResponse) (i : nat) (r : CloudflareSearchResult) :
  unconfigured w = false ->
  fetch w (the_request w input) = FetchResolves answer ->
  ok answer = true ->
  body answer = BodyJson (response_json d) ->
  q_results d !! i = Some r ->
  exists (out : ActionOutput) (c : Chunk),
    fst (run w input cfg s) = Normal out
    /\ results out !! i = Some c
    /\ content c = Some (JStr (r_content r))
    /\ source (metadata c) = "CraftyPanda Historical"
    /\ platform (metadata c) = JStr <$> r_platform r
    /\ holiday (metadata c) = JStr <$> r_holiday r
    /\ imageCount (metadata c) = Some (JNum (r_imageCount r))
    /\ score (metadata c) = Some (JNum (r_score r)).
Proof.
  unfold unconfigured. intros Hconf Hf Hk Hb Hr.
  apply negb_false_iff in Hconf.
  destruct (map_chunks_hit_fields (q_results d)) as (cs & Hcs & HF).
  destruct (Forall2_lookup_l _ _ _ _ _ HF Hr) as (c & Hc & Hfields).
  rewrite to_chunk_hit_fields in Hfields. injection Hfields as <-.
  exists {| type := "search_results"; results := cs |}. eexists.
  split; [|split; [exact Hc | cbn; repeat split]].
  open_execute. rewrite Hconf. cbn.
  destruct (blocks s !! researchBlockId cfg) as [[l|ty]|]; cbn;
    rewrite Hf; cbn; rewrite Hk, Hb; cbn;
    unfold results_map, response_json; cbn; rewrite Hcs; reflexivity.
Qed.

Lemma to_chunk_branded (r : json Number) (c : Chunk) :
  to_chunk Number_toString r = Normal c -> branded c.
Proof.
  destruct r as [| b | n | str | items | props]; try discriminate.
  unfold to_chunk. cbn.
  destruct (own_property "folderName" props) as [[| | | f | |]|];
    try discriminate.
  cbn. destruct (template Number_toString (own_property "id" props))
    as [u|e]; [|discriminate].
  cbn. intros [= <-]. unfold branded. cbn. repeat split.
  - exists (replace_underscores f). split; [reflexivity|].
    intros i. rewrite StringFacts.replace_underscores_get.
    destruct (String.get i f) as [x|]; [|discriminate].
    destruct (Ascii.eqb x "_") eqn:E; [discriminate|].
    intros [= ->]. discriminate E.
  - now exists u.
Qed.

Lemma results_map_branded (data : json Number) (cs : list Chunk) :
  results_map Number_toString data = Normal cs -> Forall branded cs.
Proof.
  unfold results_map.
  destruct data as [| b | n | str | items | props]; try discriminate.
  cbn. destruct (own_property "results" props) as [[| | | | hits |]|];
    try discriminate.
  intros H. apply CaptionSearchFacts.map_chunks_Forall2 in H.
  induction H as [|r c hits cs Hc _ IH]; constructor;
    [now apply (to_chunk_branded r) | exact IH].
Qed.

(** X7.  Every chunk a call returns, from a response of the expected shape
    or not, has the source "CraftyPanda Historical", a title that starts
    with "CraftyPanda: " and has no underscore after that, and a URL that
    starts with "craftypanda://caption/". *)
Theorem execute_brands_every_chunk w input cfg s (out : ActionOutput)
    (c : Chunk) :
  fst (run w input cfg s) = Normal out ->
  c ∈ results out ->
  branded c.
Proof.
  every_path w s cfg; intros [= <-]; cbn; intros Hc;
    try (apply elem_of_nil in Hc; contradiction).
  all: apply results_map_branded in Hmap;
    exact (proj1 (Forall_forall _ _) Hmap c Hc).
Qed.

(** X8.  The endpoint counts as not configured exactly when both the
    environment variable and the stored setting are missing or empty; a
    non-empty environment variable is the URL whatever the stored setting
    is, and otherwise the stored setting is. *)
Theorem endpoint_source (w : World) :
  (unconfigured w = true
   <-> (env_CLOUDFLARE_RAG_URL w = None \/ env_CLOUDFLARE_RAG_URL w = Some "")
       /\ (config w !! "search.cloudflareRAGURL" = None
           \/ config w !! "search.cloudflareRAGURL" = Some ""))
  /\ (forall url : string,
        env_CLOUDFLARE_RAG_URL w = Some url ->
        url <> "" ->
        getCloudflareRAGURL w = url)
  /\ (forall url : string,
        env_CLOUDFLARE_RAG_URL w = None \/ env_CLOUDFLARE_RAG_URL w = Some "" ->
        config w !! "search.cloudflareRAGURL" = Some url ->
        getCloudflareRAGURL w = url).
Proof.
  unfold unconfigured, getCloudflareRAGURL, getConfig, or_else.
  destruct (env_CLOUDFLARE_RAG_URL w) as [[|c r]|];
    destruct (config w !! "search.cloudflareRAGURL") as [[|c' r']|];
    cbn; repeat split; try tauto; try discriminate; try congruence;
    try (intros [[H|H] [H'|H']]; discriminate);
    try (intros url [H|H]; congruence);
    try (intros url [= <-] H; reflexivity).
Qed.
End Facts.

(** ** On concrete inputs *)

Import Samples.

Lemma execute_ignores_other_blocks_witness :
  let s' := snd (execute nat_to_string (world_answering answer_success)
                   sample_input sample_config state_with_text_block) in
  arrays s' = arrays state_with_text_block
  /\ blocks s' = blocks state_with_text_block
  /\ filter is_push (events_of state_with_text_block s') = []
  /\ filter is_updateBlock (events_of state_with_text_block s') = [].
Proof.
  apply (execute_ignores_other_blocks nat_to_string
           (world_answering answer_success) sample_input sample_config
           state_with_text_block).
  reflexivity.
Defined.

Lemma execute_only_appends_witness :
  let s' := snd (execute nat_to_string (world_answering answer_server_error)
                   sample_input sample_config sample_state) in
  exists new : list SubStep,
    arrays s' !! 0 = Some (earlier_steps ++ new)
    /\ length new <= 2
    /\ length (filter is_push (events_of sample_state s')) = length new
    /\ length (filter is_updateBlock (events_of sample_state s')) = length new
    /\ (forall other : ref,
          other <> 0 -> arrays s' !! other = arrays sample_state !! other)
    /\ blocks s' = blocks sample_state.
Proof.
  apply (execute_only_appends nat_to_string
           (world_answering answer_server_error) sample_input sample_config
           sample_state 0 earlier_steps); reflexivity.
Defined.

Lemma execute_copies_hit_fields_witness :
  exists (out : ActionOutput) (c : Chunk),
    fst (execute nat_to_string world_configured_by_file sample_input
           sample_config sample_state) = Normal out
    /\ results out !! 1 = Some c
    /\ content c = Some (JStr "Felt pumpkins")
    /\ source (metadata c) = "CraftyPanda Historical"
    /\ platform (metadata c) = None
    /\ holiday (metadata c) = None
    /\ imageCount (metadata c) = Some (JNum 1)
    /\ score (metadata c) = Some (JNum 0).
Proof.
  apply (execute_copies_hit_fields nat_to_string world_configured_by_file
           sample_input sample_config sample_state
           {| status := 200; body := BodyJson (response_json sample_response) |}
           sample_response 1
           {| r_id := "post-4"; r_content := "Felt pumpkins";
              r_folderName := "felt_pumpkins"; r_platform := None;
              r_holiday := None; r_imageCount := 1; r_score := 0 |});
    reflexivity.
Defined.

Lemma execute_brands_every_chunk_witness :
  match results_of_sample with
  | c :: _ => branded c
  | [] => True
  end.
Proof.
  unfold results_of_sample.
  apply (execute_brands_every_chunk nat_to_string
           (world_answering answer_success) sample_input sample_config
           sample_state {| type := "search_results";
                           results := results_of_sample |});
    [reflexivity | apply list_elem_of_here].
Defined.

End CaptionSearchSession.

(* ===================================================================== *)
(** * Further properties of the code fence pattern *)
(* ===================================================================== *)

Module FenceFacts.
Import JS OpenAILLM StringFacts.

#[local] Arguments String.append !_ _ / : simpl nomatch.

Lemma trimStart_split (s : string) :
  exists ws : string, s = ws +:+ trimStart s /\ trimStart ws = "".
Proof.
  induction s as [|c r (ws & E & Hws)]; [now exists ""|].
  cbn [trimStart]. destruct (is_ws c) eqn:Hc.
  - exists (String c ws). cbn. rewrite Hc. split; [now f_equal | exact Hws].
  - now exists "".
Qed.

Lemma strip_prefix_sound (p s r : string) :
  strip_prefix p s = Some r -> s = p +:+ r.
Proof.
  revert s. induction p as [|a p IH]; intros s; cbn.
  - now intros [= ->].
  - destruct s as [|b s]; [discriminate|].
    destruct (Ascii.eqb a b) eqn:E; [|discriminate].
    apply Ascii.eqb_eq in E. subst b. intros H. now rewrite (IH _ H).
Qed.

Lemma prefix_append (p r : string) : String.prefix p (p +:+ r) = true.
Proof.
  induction p as [|a p IH]; cbn; [now destruct r|].
  destruct (ascii_dec a a); [exact IH | contradiction].
Qed.

Lemma fence_close_sound (s : string) :
  fence_close s = true ->
  exists ws : string, s = ws +:+ "```" /\ trimStart ws = "".
Proof.
  unfold fence_close. intros H. apply String.eqb_eq in H.
  destruct (trimStart_split s) as (ws & E & Hws).
  exists ws. now rewrite <- H.
Qed.

Lemma fence_body_sound (s m : string) :
  fence_body s = Some m ->
  exists ws : string, s = m +:+ ws +:+ "```" /\ trimStart ws = "".
Proof.
  revert m. induction s as [|c r IH]; intros m; cbn [fence_body].
  - change (fence_close "") with false. discriminate.
  - destruct (fence_close (String c r)) eqn:Hc.
    + intros [= <-]. now apply fence_close_sound.
    + destruct (fence_body r) as [m'|]; [|discriminate].
      intros [= <-]. destruct (IH m' eq_refl) as (ws & E & Hws).
      exists ws. cbn. now rewrite <- E.
Qed.

Lemma fence_open_sound (s m : string) :
  fence_open s = Some m ->
  exists ws1 ws2 : string,
    s = ws1 +:+ m +:+ ws2 +:+ "```"
    /\ trimStart ws1 = "" /\ trimStart ws2 = "".
Proof.
  revert m. induction s as [|c r IH]; intros m; cbn [fence_open].
  - intros H. apply fence_body_sound in H as (ws & E & Hws).
    now exists "", ws.
  - destruct (is_ws c) eqn:Hc.
    + destruct (fence_open r) as [m'|] eqn:Hr.
      * intros [= <-]. destruct (IH m' eq_refl) as (ws1 & ws2 & E & H1 & H2).
        exists (String c ws1), ws2. cbn. rewrite Hc, <- E. auto.
      * intros H. apply fence_body_sound in H as (ws & E & Hws).
        now exists "", ws.
    + intros H. apply fence_body_sound in H as (ws & E & Hws).
      now exists "", ws.
Qed.

(** X9.  [stripMarkdownCodeFence] either returns the text unchanged or
    returns a part of it: the text is then three backticks, an optional
    [json], white space, the returned part, white space and three backticks.
    In particular a text that does not begin with three backticks comes back
    unchanged. *)
Theorem stripMarkdownCodeFence_sound (text : string) :
  (stripMarkdownCodeFence text = text
   \/ exists tag ws1 ws2 : string,
        text = "```" +:+ tag +:+ ws1 +:+ stripMarkdownCodeFence text
               +:+ ws2 +:+ "```"
        /\ (tag = "json" \/ tag = "")
        /\ trimStart ws1 = "" /\ trimStart ws2 = "")
  /\ (startsWith text "```" = false -> stripMarkdownCodeFence text = text).
Proof.
  unfold stripMarkdownCodeFence, fence_match. split.
  - destruct (strip_prefix "```" text) as [r|] eqn:Hp; [|now left].
    apply strip_prefix_sound in Hp.
    assert (Hplain : forall m : string,
               fence_open r = Some m ->
               exists tag ws1 ws2 : string,
                 text = "```" +:+ tag +:+ ws1 +:+ m +:+ ws2 +:+ "```"
                 /\ (tag = "json" \/ tag = "")
                 /\ trimStart ws1 = "" /\ trimStart ws2 = "").
    { intros m H. apply fence_open_sound in H as (ws1 & ws2 & E & H1 & H2).
      exists "", ws1, ws2. rewrite Hp, E. auto. }
    destruct (strip_prefix "json" r) as [r'|] eqn:Hj.
    + apply strip_prefix_sound in Hj.
      destruct (fence_open r') as [m|] eqn:Hm.
      * right. apply fence_open_sound in Hm as (ws1 & ws2 & E & H1 & H2).
        exists "json", ws1, ws2. rewrite Hp, Hj, E. auto.
      * destruct (fence_open r) as [m|] eqn:Hr; [right; now apply Hplain|].
        now left.
    + destruct (fence_open r) as [m|] eqn:Hr; [right; now apply Hplain|].
      now left.
  - unfold startsWith. intros H.
    destruct (strip_prefix "```" text) as [r|] eqn:Hp; [|reflexivity].
    apply strip_prefix_sound in Hp. subst text.
    rewrite prefix_append in H. discriminate H.
Qed.

(** X10.  A text inside a code fence, with or without the [json] tag, is
    stripped to the text without its surrounding white space, whatever the
    text is. *)
Theorem stripMarkdownCodeFence_fenced (t : string) :
  stripMarkdownCodeFence (fenced t) = trim t
  /\ stripMarkdownCodeFence
       ("```" +:+ String (ascii_of_nat 10) t
        +:+ String (ascii_of_nat 10) "```")
     = trim t.
Proof.
  unfold stripMarkdownCodeFence. split.
  - now rewrite fence_match_fenced.
  - change (fence_match
              ("```" +:+ String (ascii_of_nat 10) t
               +:+ String (ascii_of_nat 10) "```"))
      with (fence_open (String (ascii_of_nat 10) (t +:+ closing))).
    now rewrite fence_open_closing.
Qed.

(** ** What reaches the repair step carries no surrounding white space *)

Lemma trimEnd_idempotent (s : string) : trimEnd (trimEnd s) = trimEnd s.
Proof.
  induction s as [|c r IH]; [reflexivity|].
  cbn [trimEnd]. destruct (trimEnd r) as [|c' r'] eqn:Hr.
  - destruct (is_ws c) eqn:Hc; [reflexivity|]. cbn. now rewrite Hc.
  - cbn [trimEnd] in IH |- *. now rewrite IH.
Qed.

Lemma trimStart_idempotent (s : string) : trimStart (trimStart s) = trimStart s.
Proof.
  induction s as [|c r IH]; [reflexivity|].
  cbn [trimStart]. destruct (is_ws c) eqn:Hc; [exact IH|].
  cbn. now rewrite Hc.
Qed.

Lemma trimStart_trimEnd (s : string) :
  trimStart s = s -> trimStart (trimEnd s) = trimEnd s.
Proof.
  destruct s as [|c r]; [reflexivity|].
  cbn [trimStart]. destruct (is_ws c) eqn:Hc.
  - intros H. exfalso.
    assert (Hlen : String.length (trimStart r) <= String.length r).
    { clear. induction r as [|x r IH]; cbn; [lia|].
      destruct (is_ws x); cbn; lia. }
    rewrite H in Hlen. cbn in Hlen. lia.
  - intros _. rewrite trimEnd_keeps_head by exact Hc. cbn. now rewrite Hc.
Qed.

Lemma trim_idempotent (s : string) : trim (trim s) = trim s.
Proof.
  unfold trim.
  rewrite (trimStart_trimEnd (trimStart s)) by apply trimStart_idempotent.
  apply trimEnd_idempotent.
Qed.

Lemma fence_body_empty (s : string) :
  fence_body s = Some "" -> fence_close s = true.
Proof.
  destruct s as [|c r]; cbn [fence_body].
  - change (fence_close "") with false. discriminate.
  - destruct (fence_close (String c r)); [reflexivity|].
    destruct (fence_body r); discriminate.
Qed.

(** The lazy group never ends with white space. *)
Lemma fence_body_trimEnd (s m : string) :
  fence_body s = Some m -> trimEnd m = m.
Proof.
  revert m. induction s as [|c r IH]; intros m; cbn [fence_body].
  - change (fence_close "") with false. discriminate.
  - destruct (fence_close (String c r)) eqn:Hc; [now intros [= <-]|].
    destruct (fence_body r) as [m'|] eqn:Hr; [|discriminate].
    intros [= <-]. cbn [trimEnd]. rewrite (IH m' eq_refl).
    destruct m' as [|c' r']; [|reflexivity].
    destruct (is_ws c) eqn:Hw; [|reflexivity].
    exfalso. apply fence_body_empty in Hr.
    unfold fence_close in Hc, Hr. cbn [trimStart] in Hc.
    rewrite Hw in Hc. congruence.
Qed.

(** The lazy group starts where the text starts. *)
Lemma fence_body_head (c : ascii) (r m : string) :
  fence_body (String c r) = Some m ->
  is_ws c = false ->
  trimStart m = m.
Proof.
  cbn [fence_body]. destruct (fence_close (String c r)); [now intros [= <-]|].
  destruct (fence_body r) as [m'|]; [|discriminate].
  intros [= <-] Hc. cbn. now rewrite Hc.
Qed.

Lemma fence_body_skips_ws (c : ascii) (r m : string) :
  fence_body (String c r) = Some m ->
  is_ws c = true ->
  exists m' : string, fence_body r = Some m'.
Proof.
  cbn [fence_body]. destruct (fence_close (String c r)) eqn:Hc.
  - intros _ Hw. exists "". unfold fence_close in Hc. cbn [trimStart] in Hc.
    rewrite Hw in Hc. destruct r as [|x r]; cbn [fence_body];
      unfold fence_close; now rewrite Hc.
  - destruct (fence_body r) as [m'|]; [eauto | discriminate].
Qed.

Lemma fence_body_open (s m : string) :
  fence_body s = Some m -> exists m' : string, fence_open s = Some m'.
Proof.
  revert m. induction s as [|c r IH]; intros m H; cbn [fence_open]; [eauto|].
  destruct (is_ws c) eqn:Hc; [|eauto].
  destruct (fence_body_skips_ws c r m H Hc) as [m' Hm'].
  destruct (IH m' Hm') as [m'' ->]. eauto.
Qed.

(** The greedy white space is never given back. *)
Lemma fence_open_trimmed (s m : string) :
  fence_open s = Some m -> trimStart m = m /\ trimEnd m = m.
Proof.
  revert m. induction s as [|c r IH]; intros m; cbn [fence_open].
  - change (fence_body "") with (@None string). discriminate.
  - destruct (is_ws c) eqn:Hc.
    + destruct (fence_open r) as [m'|] eqn:Hr.
      * intros [= <-]. now apply IH.
      * intros H. exfalso.
        destruct (fence_body_skips_ws c r m H Hc) as [m' Hm'].
        destruct (fence_body_open r m' Hm') as [m'' Hm'']. congruence.
    + intros H. split; [exact (fence_body_head c r m H Hc)|].
      exact (fence_body_trimEnd _ m H).
Qed.

(** X11.  Whatever the response text is, the text [generateObject] hands to
    the repair step (the content, trimmed and with its fence stripped)
    neither begins nor ends with white space. *)
Theorem stripped_content_is_trimmed (rawContent : string) :
  trim (stripMarkdownCodeFence (trim rawContent))
  = stripMarkdownCodeFence (trim rawContent).
Proof.
  unfold stripMarkdownCodeFence.
  destruct (fence_match (trim rawContent)) as [m|] eqn:Hm;
    [|apply trim_idempotent].
  assert (H : trimStart m = m /\ trimEnd m = m).
  { unfold fence_match in Hm.
    destruct (strip_prefix "```" (trim rawContent)) as [r|]; [|discriminate].
    destruct (strip_prefix "json" r) as [r'|].
    - destruct (fence_open r') as [m'|] eqn:Hr'.
      + injection Hm as <-. now apply (fence_open_trimmed r').
      + now apply (fence_open_trimmed r).
    - now apply (fence_open_trimmed r). }
  destruct H as [H1 H2]. unfold trim. now rewrite H1, H2.
Qed.

End FenceFacts.

(* ===================================================================== *)
(** * Further properties of the streams and of [generateObject] *)
(* ===================================================================== *)

Module AdapterFacts.
Import JS OpenAILLM StringFacts OpenAILLMFacts.

Section Facts.
Context {Number : Type}.
Variable parse : string -> completion (json Number).
Variable JSON_parse : string -> completion (json Number).
Variable repairJson : string -> completion string.

Abbreviation Schema := (@OpenAILLM.Schema Number).
Abbreviation StreamTextOutput := (@OpenAILLM.StreamTextOutput Number).
Abbreviation streamText_from := (OpenAILLM.streamText_from parse).
Abbreviation streamText := (OpenAILLM.streamText parse).
Abbreviation streamObject_from := (OpenAILLM.streamObject_from parse).
Abbreviation streamObject := (OpenAILLM.streamObject parse).
Abbreviation generateObject :=
  (OpenAILLM.generateObject JSON_parse repairJson).

(** ** Updates and chunks *)

(** X12.  The updates of a streaming text call mirror the upstream chunks
    that have a first choice: the k-th update carries the k-th such chunk's
    text (the empty string for a missing one) and exactly one tool call for
    each tool-call delta of that chunk, whether its arguments parse or not;
    chunks without a choice yield nothing.  This holds from any content of
    the accumulators, in particular for [streamText], which starts from
    none. *)
Theorem streamText_mirrors_chunks (received : list ReceivedToolCall)
    (stream : list ChatCompletionChunk) :
  map (fun u : StreamTextOutput =>
         (contentChunk u, length (toolCallChunk u)))
      (yielded (streamText_from received stream))
  = map (fun c : Choice =>
           (or_else (d_content (delta c)) "",
            length (optional_list (tool_calls (delta c)))))
        (first_choices stream).
Proof.
  revert received. induction stream as [|chunk rest IH]; intros received;
    [reflexivity|].
  cbn [OpenAILLM.streamText_from first_choices].
  destruct (choices chunk) as [|choice others]; [apply IH|].
  pose proof (on_tool_calls_length parse received
                (optional_list (tool_calls (delta choice)))) as Hlen.
  destruct (on_tool_calls parse received _) as [[received' parsed] lines].
  cbn in Hlen |- *. now rewrite Hlen, IH.
Qed.

(** ** Accumulators *)

Lemma accumulate_keeps (received : list ReceivedToolCall)
    (tc : ToolCallDelta) (i : nat) (call : ReceivedToolCall) :
  received !! i = Some call ->
  exists (call' : ReceivedToolCall) (more : string),
    accumulate received tc !! i = Some call'
    /\ rc_name call' = rc_name call
    /\ rc_id call' = rc_id call
    /\ rc_arguments call' = rc_arguments call +:+ more.
Proof.
  intros Hi. unfold accumulate.
  destruct (received !! index tc) as [existing|] eqn:Hl.
  - destruct (decide (i = index tc)) as [->|Hne].
    + rewrite Hl in Hi. injection Hi as ->.
      exists (append_arguments call tc), (or_else (delta_arguments tc) "").
      rewrite list_lookup_insert_eq by (now apply lookup_lt_Some in Hl).
      repeat split.
    + exists call, "". rewrite list_lookup_insert_ne by congruence.
      rewrite append_empty_r. repeat split. exact Hi.
  - exists call, "". rewrite lookup_app_l by (now apply lookup_lt_Some in Hi).
    rewrite append_empty_r. repeat split. exact Hi.
Qed.

(** X13.  An accumulator of [streamText], once created, keeps its position,
    its name and its id for the rest of the stream, and its argument text
    only grows at the end: names and ids carried by later deltas are
    ignored. *)
Theorem accumulators_are_stable (received : list ReceivedToolCall)
    (deltas : list ToolCallDelta) (i : nat) (call : ReceivedToolCall) :
  received !! i = Some call ->
  exists (call' : ReceivedToolCall) (more : string),
    received_after received deltas !! i = Some call'
    /\ rc_name call' = rc_name call
    /\ rc_id call' = rc_id call
    /\ rc_arguments call' = rc_arguments call +:+ more.
Proof.
  revert received call. induction deltas as [|tc rest IH];
    intros received call Hi.
  - exists call, "". rewrite append_empty_r. repeat split. exact Hi.
  - destruct (accumulate_keeps received tc i call Hi)
      as (call1 & more1 & H1 & Hn1 & Hi1 & Ha1).
    destruct (IH _ _ H1) as (call2 & more2 & H2 & Hn2 & Hi2 & Ha2).
    exists call2, (more1 +:+ more2). cbn [received_after fold_left].
    repeat split; [exact H2 | congruence | congruence |].
    now rewrite Ha2, Ha1, append_assoc.
Qed.

Lemma first_choices_app (pre post : list ChatCompletionChunk) :
  first_choices (pre ++ post) = first_choices pre ++ first_choices post.
Proof.
  induction pre as [|chunk pre IH]; [reflexivity|].
  change ((chunk :: pre) ++ post) with (chunk :: (pre ++ post)).
  cbn [first_choices]. destruct (choices chunk); [exact IH|].
  cbn. now rewrite IH.
Qed.

Lemma tool_call_deltas_app (pre post : list ChatCompletionChunk) :
  tool_call_deltas (pre ++ post)
  = tool_call_deltas pre ++ tool_call_deltas post.
Proof.
  unfold tool_call_deltas. now rewrite first_choices_app, flat_map_app.
Qed.

Lemma first_appear_from_prefix (n : nat) (a b : list ToolCallDelta) :
  first_appear_from n (a ++ b) = true -> first_appear_from n a = true.
Proof.
  revert n. induction a as [|tc a IH]; intros n; [reflexivity|].
  cbn [app first_appear_from].
  destruct (index tc <? n)%nat; [apply IH|].
  destruct (index tc =? n)%nat; [apply IH | discriminate].
Qed.

(** X14.  In a stream whose tool-call indices first appear as 0, 1, 2, ...,
    at every point of the stream the accumulator at position [i] holds the
    fragments that came with index [i] so far, concatenated in order. *)
Theorem streamText_accumulates_in_order
    (pre post : list ChatCompletionChunk) (i : nat)
    (call : ReceivedToolCall) :
  first_appear_in_order (tool_call_deltas (pre ++ post)) = true ->
  received_after [] (tool_call_deltas pre) !! i = Some call ->
  rc_arguments call = fragments_of i (tool_call_deltas pre).
Proof.
  rewrite tool_call_deltas_app. intros Hord Hcall.
  apply first_appear_from_prefix in Hord.
  exact (received_after_arguments (tool_call_deltas pre) i call Hord Hcall).
Qed.

(** ** Stopping early and events that do not count *)

Lemma streamObject_from_prefix (recievedObj : string)
    (pre post : list ResponseStreamEvent) :
  yielded (streamObject_from recievedObj pre)
  `prefix_of` yielded (streamObject_from recievedObj (pre ++ post)).
Proof.
  revert recievedObj. induction pre as [|e pre IH]; intros recievedObj.
  - apply prefix_nil.
  - change ((e :: pre) ++ post) with (e :: (pre ++ post)).
    destruct e as [delta | text | ty]; cbn [OpenAILLM.streamObject_from].
    + destruct (truthy delta); [|apply IH].
      destruct (parse (recievedObj +:+ delta)); cbn;
        apply prefix_cons, IH.
    + destruct (truthy text); [|apply IH].
      destruct (parse text); cbn; [apply prefix_cons, IH | apply prefix_nil].
    + apply IH.
Qed.

(** X15.  The generators are lazy in a sound way: what has been yielded
    after a part of the upstream stream is the beginning of what is yielded
    for the whole stream, so a consumer that stops early has seen nothing it
    would not have seen otherwise. *)
Theorem yields_extend_with_upstream (pre post : list ChatCompletionChunk)
    (events_pre events_post : list ResponseStreamEvent) :
  yielded (streamText pre) `prefix_of` yielded (streamText (pre ++ post))
  /\ yielded (streamObject events_pre)
     `prefix_of` yielded (streamObject (events_pre ++ events_post)).
Proof.
  split.
  - unfold OpenAILLM.streamText. rewrite streamText_from_app. cbn.
    now apply prefix_app_r.
  - apply streamObject_from_prefix.
Qed.

(** X16.  A streaming object call depends on the text events only: events
    of another type, deltas without text and completed events without text
    change neither what is yielded, nor what is logged, nor how the call
    ends. *)
Theorem streamObject_ignores_other_events
    (stream : list ResponseStreamEvent) :
  streamObject stream = streamObject (filter is_text_event stream).
Proof.
  unfold OpenAILLM.streamObject. generalize "" as recievedObj.
  induction stream as [|e rest IH]; intros recievedObj; [reflexivity|].
  destruct e as [delta | text | ty].
  - cbn [OpenAILLM.streamObject_from].
    destruct (truthy delta) eqn:Hd.
    + rewrite filter_cons_True by (cbn; now rewrite Hd).
      cbn [OpenAILLM.streamObject_from]. rewrite Hd.
      destruct (parse (recievedObj +:+ delta)); now rewrite IH.
    + rewrite filter_cons_False by (cbn; now rewrite Hd). apply IH.
  - cbn [OpenAILLM.streamObject_from].
    destruct (truthy text) eqn:Hd.
    + rewrite filter_cons_True by (cbn; now rewrite Hd).
      cbn [OpenAILLM.streamObject_from]. rewrite Hd.
      destruct (parse text); [now rewrite IH | reflexivity].
    + rewrite filter_cons_False by (cbn; now rewrite Hd). apply IH.
  - rewrite filter_cons_False by (cbn; auto). apply IH.
Qed.
(** ** What [generateObject] returns and how it fails *)

(** X17.  [generateObject] fails in these cases only: the response has no
    choice (the error is "No response from OpenAI"), or the first choice's
    content is null, cannot be repaired, cannot be parsed or, in the enforced
    mode only, violates the schema (the error is "Error parsing response
    from OpenAI: " followed by the cause, which for a schema violation is
    the message of the zod error, the text of its issues); nothing is logged
    then.  In the degraded mode a text that parses never makes the call
    fail. *)
Theorem generateObject_fails_only_when (cfg : OpenAIConfig) (schema : Schema)
    (response : ChatCompletion) (e : string) (lines : list Line) :
  generateObject cfg schema response = (Throw e, lines) ->
  lines = []
  /\ ((message_contents response = []
       /\ e = Error "No response from OpenAI")
      \/ exists (rawContent : option string) (others : list (option string))
           (cause : string),
           message_contents response = rawContent :: others
           /\ e = Error ("Error parsing response from OpenAI: " +:+ cause)
           /\ (rawContent = None
               \/ exists text : string,
                    rawContent = Some text
                    /\ (repairJson (stripMarkdownCodeFence (trim text))
                        = Throw cause
                        \/ exists repaired : string,
                             repairJson (stripMarkdownCodeFence (trim text))
                             = Normal repaired
                             /\ (JSON_parse repaired = Throw cause
                                 \/ exists (parsed : json Number)
                                      (issues : string),
                                      JSON_parse repaired = Normal parsed
                                      /\ needsJsonObjectMode cfg = false
                                      /\ safeParse schema parsed
                                         = Failure issues
                                      /\ cause = issues)))).
Proof.
  unfold OpenAILLM.generateObject, parse_response, schema_parse, trim_content.
  destruct (message_contents response) as [|rawContent others].
  { intros [= <- <-]. split; [reflexivity|]. now left. }
  destruct rawContent as [text|].
  2: { intros [= <- <-]. split; [reflexivity|]. right.
       exists None, others. eexists. repeat split. now left. }
  destruct (repairJson (stripMarkdownCodeFence (trim text)))
    as [repaired|cause] eqn:Hrepair.
  2: { intros [= <- <-]. split; [reflexivity|]. right.
       exists (Some text), others, cause. repeat split. right.
       exists text. split; [reflexivity|]. left. exact Hrepair. }
  destruct (JSON_parse repaired) as [parsed|cause] eqn:Hparse.
  2: { intros [= <- <-]. split; [reflexivity|]. right.
       exists (Some text), others, cause. repeat split. right.
       exists text. split; [reflexivity|]. right.
       exists repaired. split; [exact Hrepair|]. left. exact Hparse. }
  destruct (needsJsonObjectMode cfg) eqn:Hmode.
  { destruct (safeParse schema parsed); discriminate. }
  destruct (safeParse schema parsed) as [data|issues] eqn:Hsafe;
    [discriminate|].
  intros [= <- <-]. split; [reflexivity|]. right.
  exists (Some text), others, issues. repeat split. right.
  exists text. split; [reflexivity|]. right.
  exists repaired. split; [exact Hrepair|]. right.
  exists parsed, issues. auto.
Qed.

(** X18.  A value [generateObject] returns has passed the schema's
    validation, with nothing logged, or else the call is in the degraded
    mode, the value is the parsed object as it is, the schema rejects it and
    exactly one warning tells so.  In the enforced mode every returned value
    has passed validation. *)
Theorem generateObject_returns_validated_or_warns (cfg : OpenAIConfig)
    (schema : Schema) (response : ChatCompletion) (v : json Number)
    (lines : list Line) :
  generateObject cfg schema response = (Normal v, lines) ->
  (lines = []
   /\ exists parsed : json Number, safeParse schema parsed = Success v)
  \/ (needsJsonObjectMode cfg = true
      /\ exists issues : string,
           lines = [validation_warning issues]
           /\ safeParse schema v = Failure issues).
Proof.
  unfold OpenAILLM.generateObject, parse_response, schema_parse, trim_content.
  destruct (message_contents response) as [|[text|] others];
    try discriminate.
  destruct (repairJson (stripMarkdownCodeFence (trim text)))
    as [repaired|cause]; [|discriminate].
  destruct (JSON_parse repaired) as [parsed|cause]; [|discriminate].
  destruct (needsJsonObjectMode cfg);
    destruct (safeParse schema parsed) as [data|issues] eqn:Hsafe;
    try discriminate; intros [= <- <-]; eauto.
Qed.
End Facts.

(** ** On concrete inputs *)

Import Samples.

Lemma accumulators_are_stable_witness :
  exists (call' : ReceivedToolCall) (more : string),
    received_after
      [ {| rc_name := "lookup"; rc_id := "call_1"; rc_arguments := fragment_1 |} ]
      [ {| index := 0; d_id := Some "call_9";
           d_function :=
             Some {| f_name := Some "other";
                     f_arguments := Some fragment_2 |} |} ]
    !! 0 = Some call'
    /\ rc_name call' = "lookup"
    /\ rc_id call' = "call_1"
    /\ rc_arguments call' = fragment_1 +:+ more.
Proof.
  apply (accumulators_are_stable
           [ {| rc_name := "lookup"; rc_id := "call_1";
                rc_arguments := fragment_1 |} ]
           [ {| index := 0; d_id := Some "call_9";
                d_function :=
                  Some {| f_name := Some "other";
                          f_arguments := Some fragment_2 |} |} ]
           0
           {| rc_name := "lookup"; rc_id := "call_1";
              rc_arguments := fragment_1 |}).
  reflexivity.
Defined.

Lemma streamText_accumulates_in_order_witness :
  rc_arguments
    {| rc_name := ""; rc_id := "tool_0";
       rc_arguments := fragment_1 +:+ fragment_2 |}
  = fragments_of 0 (tool_call_deltas (two_fragments 0)).
Proof.
  apply (streamText_accumulates_in_order (two_fragments 0) [] 0
           {| rc_name := ""; rc_id := "tool_0";
              rc_arguments := fragment_1 +:+ fragment_2 |});
    reflexivity.
Defined.

Lemma generateObject_fails_only_when_witness :
  let response : ChatCompletion := {| message_contents := [Some "{}"] |} in
  let e := Error "Error parsing response from OpenAI: x: Required" in
  @nil Line = []
  /\ ((message_contents response = []
       /\ e = Error "No response from OpenAI")
      \/ exists (rawContent : option string) (others : list (option string))
           (cause : string),
           message_contents response = rawContent :: others
           /\ e = Error ("Error parsing response from OpenAI: " +:+ cause)
           /\ (rawContent = None
               \/ exists text : string,
                    rawContent = Some text
                    /\ (sample_repairJson (stripMarkdownCodeFence (trim text))
                        = Throw cause
                        \/ exists repaired : string,
                             sample_repairJson
                               (stripMarkdownCodeFence (trim text))
                             = Normal repaired
                             /\ (sample_JSON_parse repaired = Throw cause
                                 \/ exists (parsed : json nat)
                                      (issues : string),
                                      sample_JSON_parse repaired
                                      = Normal parsed
                                      /\ needsJsonObjectMode config_openai
                                         = false
                                      /\ safeParse sample_schema parsed
                                         = Failure issues
                                      /\ cause = issues)))).
Proof.
  apply (generateObject_fails_only_when sample_JSON_parse sample_repairJson
           config_openai sample_schema {| message_contents := [Some "{}"] |}
           (Error "Error parsing response from OpenAI: x: Required") []).
  reflexivity.
Defined.

Lemma generateObject_returns_validated_or_warns_witness :
  (@nil Line = []
   /\ exists parsed : json nat, safeParse sample_schema parsed = Success object_x)
  \/ (needsJsonObjectMode config_openai = true
      /\ exists issues : string,
           [] = [validation_warning issues]
           /\ safeParse sample_schema object_x = Failure issues).
Proof.
  apply (generateObject_returns_validated_or_warns sample_JSON_parse
           sample_repairJson config_openai sample_schema
           {| message_contents := [Some ("{" +:+ quoted "x" +:+ ":1}")] |}
           object_x []).
  reflexivity.
Defined.

End AdapterFacts.

(* ===================================================================== *)
(** * Properties of the requests and of [generateText] *)
(* ===================================================================== *)

Module ChatFacts.
Import JS OpenAILLM OpenAIChat.

#[local] Arguments String.append !_ _ / : simpl nomatch.

(** ** Substrings and letter case *)

Lemma prefix_splits (p s : string) :
  String.prefix p s = true <-> exists r : string, s = p +:+ r.
Proof.
  split.
  - revert s. induction p as [|a p IH]; intros s; [now exists s|].
    destruct s as [|b s]; cbn; [discriminate|].
    destruct (ascii_dec a b) as [<-|]; [|discriminate].
    intros H. destruct (IH _ H) as [r ->]. now exists r.
  - intros [r ->]. apply FenceFacts.prefix_append.
Qed.

Lemma includes_prefix (p s : string) :
  String.prefix p s = true -> includes s p = true.
Proof. intros H. destruct s; cbn [includes]; now rewrite H. Qed.

Lemma includes_occurs (s p : string) :
  includes s p = true <-> occurs_in p s.
Proof.
  unfold occurs_in. split.
  - induction s as [|c r IH]; cbn [includes]; rewrite orb_true_iff;
      intros [H|H]; try discriminate.
    + apply prefix_splits in H as [post H]. exists "", post. exact H.
    + apply prefix_splits in H as [post H]. exists "", post. exact H.
    + destruct (IH H) as (pre & post & ->). now exists (String c pre), post.
  - intros (pre & post & ->). induction pre as [|c pre IH].
    + change ("" +:+ p +:+ post) with (p +:+ post).
      apply includes_prefix, FenceFacts.prefix_append.
    + simpl. cbn [includes]. rewrite IH. apply orb_true_r.
Qed.

Lemma toLowerCase_append (a b : string) :
  toLowerCase (a +:+ b) = toLowerCase a +:+ toLowerCase b.
Proof. induction a as [|c a IH]; simpl; [reflexivity | now rewrite IH]. Qed.

Lemma toLowerCase_splits (s x y : string) :
  toLowerCase s = x +:+ y ->
  exists a b : string,
    s = a +:+ b /\ toLowerCase a = x /\ toLowerCase b = y.
Proof.
  revert s. induction x as [|c x IH]; intros s; simpl.
  - intros H. now exists "", s.
  - destruct s as [|d s]; simpl; [discriminate|].
    intros [= Hc Hs]. destruct (IH _ Hs) as (a & b & -> & Ha & Hb).
    exists (String d a), b. simpl. now rewrite Hc, Ha.
Qed.

Lemma lower_char_same_letter (c t : ascii) :
  plain t -> lower_char c = t <-> same_letter c t.
Proof.
  unfold plain, lower_char, same_letter. intros [Hcap Hlatin].
  pose proof (nat_ascii_bounded c) as Hc.
  assert (Hiff : forall n : nat,
            (n < 256)%nat ->
            ascii_of_nat n = t <-> n = nat_of_ascii t).
  { intros n Hn. split.
    - intros <-. now rewrite nat_ascii_embedding.
    - intros ->. apply ascii_nat_embedding. }
  assert (Heq : c = t <-> nat_of_ascii c = nat_of_ascii t).
  { split; [now intros -> |]. intros H.
    rewrite <- (ascii_nat_embedding c), H. apply ascii_nat_embedding. }
  cbn zeta.
  destruct (Nat.leb_spec 65 (nat_of_ascii c)),
    (Nat.leb_spec (nat_of_ascii c) 90),
    (Nat.leb_spec 192 (nat_of_ascii c)),
    (Nat.leb_spec (nat_of_ascii c) 222),
    (Nat.eqb_spec (nat_of_ascii c) 215); cbn;
    rewrite ?Hiff by lia; rewrite Heq; lia.
Qed.

Lemma toLowerCase_word (w word : string) :
  Forall plain (list_ascii_of_string word) ->
  toLowerCase w = word
  <-> Forall2 same_letter (list_ascii_of_string w)
        (list_ascii_of_string word).
Proof.
  revert w. induction word as [|t word IH]; intros w; simpl.
  - intros _. destruct w; simpl; split; try discriminate;
      try (intros H; inversion H); constructor.
  - intros Hp. apply Forall_cons in Hp as [Ht Hp].
    destruct w as [|c w]; simpl.
    + split; [discriminate | intros H; inversion H].
    + split.
      * intros [= Hc Hw]. constructor.
        -- now apply lower_char_same_letter.
        -- now apply IH.
      * intros H. apply Forall2_cons in H as [Hc Hw]. f_equal.
        -- now apply lower_char_same_letter.
        -- now apply IH.
Qed.

Lemma includes_caseless (word s : string) :
  Forall plain (list_ascii_of_string word) ->
  includes (toLowerCase s) word = true <-> occurs_caseless word s.
Proof.
  intros Hp. rewrite includes_occurs. unfold occurs_in, occurs_caseless.
  split.
  - intros (pre & post & H).
    apply toLowerCase_splits in H as (a & rest & -> & Ha & H).
    apply toLowerCase_splits in H as (w & b & -> & Hw & Hb).
    exists a, w, b. split; [reflexivity|]. now apply toLowerCase_word.
  - intros (pre & w & post & -> & Hw).
    apply toLowerCase_word in Hw; [|exact Hp].
    exists (toLowerCase pre), (toLowerCase post).
    now rewrite !toLowerCase_append, Hw.
Qed.

Lemma isOpenRouter_via (cfg : OpenAIConfig) :
  isOpenRouter cfg = true <-> via_openrouter cfg.
Proof.
  unfold isOpenRouter, via_openrouter, startsWith.
  rewrite orb_true_iff, prefix_splits.
  destruct (baseURL cfg) as [u|].
  - rewrite includes_occurs. split; intros [H|H]; auto.
    + right. now exists u.
    + destruct H as (u' & [= <-] & H). now right.
  - split; intros [H|H]; auto; [discriminate|].
    now destruct H as (u & [=] & _).
Qed.

Lemma isDeepSeek_capable (cfg : OpenAIConfig) :
  isDeepSeek cfg = true <-> tool_capable cfg.
Proof.
  unfold isDeepSeek, tool_capable.
  rewrite orb_true_iff.
  rewrite (includes_caseless "deepseek"), (includes_caseless "nex-agi");
    [reflexivity| |];
    cbn [list_ascii_of_string];
    repeat (constructor; [unfold plain; vm_compute; lia|]); constructor.
Qed.

Lemma disableTools_withheld (cfg : OpenAIConfig) :
  disableTools cfg = true <-> tools_withheld cfg.
Proof.
  unfold disableTools, tools_withheld.
  rewrite andb_true_iff, negb_true_iff, isOpenRouter_via,
    <- isDeepSeek_capable, not_true_iff_false.
  reflexivity.
Qed.

Section Facts.
Context {Number : Type}.
Variable JSON_parse : string -> completion (json Number).
Variable JSON_stringify : json Number -> string.
Variable JSON_stringify_indented : json Number -> string.
Variable toJSONSchema : @Schema Number -> completion (json Number).
Variable zodResponseFormat :
  @Schema Number -> string -> completion (json Number).
Variable one : Number.

Abbreviation Message := (@OpenAIChat.Message Number).
Abbreviation Tool := (@OpenAIChat.Tool Number).
Abbreviation Config := (@OpenAIChat.Config Number).
Abbreviation GenerateOptions := (@OpenAIChat.GenerateOptions Number).
Abbreviation GenerateTextInput := (@OpenAIChat.GenerateTextInput Number).
Abbreviation GenerateObjectInput := (@OpenAIChat.GenerateObjectInput Number).
Abbreviation Param := (@OpenAIChat.ChatCompletionMessageParam Number).
Abbreviation ChatRequest := (@OpenAIChat.ChatRequest Number).
Abbreviation ToolCall := (@OpenAILLM.ToolCall Number).
Abbreviation convertToOpenAIMessages :=
  (OpenAIChat.convertToOpenAIMessages JSON_stringify).
Abbreviation generateText_request :=
  (OpenAIChat.generateText_request JSON_stringify toJSONSchema one).
Abbreviation streamText_request :=
  (OpenAIChat.streamText_request JSON_stringify toJSONSchema one).
Abbreviation generateObject_request :=
  (OpenAIChat.generateObject_request JSON_stringify JSON_stringify_indented
     toJSONSchema zodResponseFormat one).
Abbreviation generateText :=
  (OpenAIChat.generateText JSON_parse JSON_stringify toJSONSchema one).
Abbreviation openai_tool := (OpenAIChat.openai_tool toJSONSchema).
Abbreviation push_tools := (OpenAIChat.push_tools toJSONSchema).
Abbreviation openaiTools := (OpenAIChat.openaiTools toJSONSchema).
Abbreviation unconvertible := (OpenAIChat.unconvertible toJSONSchema).
Abbreviation ChatCompletionTool := (@OpenAIChat.ChatCompletionTool Number).
Abbreviation parse_tool_calls := (OpenAIChat.parse_tool_calls JSON_parse).

(** ** [convertToOpenAIMessages] *)

(** X19.  Converting a conversation keeps its messages in number and order,
    each with its role and content; an assistant message lists the ids and
    names of its tool calls in order, and never carries an empty
    [tool_calls] list: the key is left out when there is no call. *)
Theorem convertToOpenAIMessages_keeps_conversation
    (messages : list Message) :
  map param_role (convertToOpenAIMessages messages) = map msg_role messages
  /\ map param_content (convertToOpenAIMessages messages)
     = map msg_content messages
  /\ map (fun p : Param =>
            map (fun c => (fc_id c, fc_name c)) (param_tool_calls p))
         (convertToOpenAIMessages messages)
     = map (fun msg : Message =>
              if String.eqb (msg_role msg) "tool" then []
              else if String.eqb (msg_role msg) "assistant" then
                map (fun tc : ToolCall => (tc_id tc, tc_name tc))
                    (optional_list (msg_tool_calls msg))
              else [])
           messages
  /\ Forall (fun p : Param =>
               forall content : string,
                 p <> AssistantMessageParam content (Some []))
            (convertToOpenAIMessages messages).
Proof.
  unfold OpenAIChat.convertToOpenAIMessages.
  induction messages as [|msg rest (IH1 & IH2 & IH3 & IH4)];
    [repeat split; constructor|].
  cbn [map]. rewrite IH1, IH2, IH3.
  assert (Hrole : param_role (convert_message JSON_stringify msg)
                  = msg_role msg).
  { unfold convert_message.
    destruct (String.eqb (msg_role msg) "tool") eqn:Ht;
      [now apply String.eqb_eq in Ht|].
    destruct (String.eqb (msg_role msg) "assistant") eqn:Ha;
      [now apply String.eqb_eq in Ha | reflexivity]. }
  repeat split.
  - now rewrite Hrole.
  - f_equal. unfold convert_message.
    destruct (String.eqb (msg_role msg) "tool"); [reflexivity|].
    now destruct (String.eqb (msg_role msg) "assistant").
  - f_equal. unfold convert_message.
    destruct (String.eqb (msg_role msg) "tool"); [reflexivity|].
    destruct (String.eqb (msg_role msg) "assistant"); [|reflexivity].
    destruct (msg_tool_calls msg) as [[|tc tcs]|]; cbn; try reflexivity.
    now rewrite map_map.
  - constructor; [|exact IH4]. unfold convert_message. intros content.
    destruct (String.eqb (msg_role msg) "tool"); [discriminate|].
    destruct (String.eqb (msg_role msg) "assistant"); [|discriminate].
    destruct (msg_tool_calls msg) as [[|tc tcs]|]; discriminate.
Qed.

(** ** Tools *)

Lemma openai_tool_fields (tool : Tool) (t : ChatCompletionTool) :
  openai_tool tool = Normal t ->
  fn_name t = tool_name tool
  /\ fn_description t = tool_description tool
  /\ toJSONSchema (tool_schema tool) = Normal (fn_parameters t).
Proof.
  unfold OpenAIChat.openai_tool.
  destruct (toJSONSchema (tool_schema tool)) as [parameters|e];
    [|discriminate].
  now intros [= <-].
Qed.

Lemma push_tools_Forall2 (tools : list Tool)
    (sent : list ChatCompletionTool) :
  push_tools tools = Normal sent ->
  Forall2 (fun (tool : Tool) (t : ChatCompletionTool) =>
             fn_name t = tool_name tool
             /\ fn_description t = tool_description tool
             /\ toJSONSchema (tool_schema tool) = Normal (fn_parameters t))
          tools sent.
Proof.
  revert sent. induction tools as [|tool rest IH]; intros sent;
    cbn [OpenAIChat.push_tools].
  - intros [= <-]. constructor.
  - destruct (openai_tool tool) as [t|e] eqn:Ht; [|discriminate].
    destruct (push_tools rest) as [others|e]; [|discriminate].
    intros [= <-]. constructor; [now apply openai_tool_fields | now apply IH].
Qed.

Lemma push_tools_error (tools : list Tool) (e : string) :
  push_tools tools = Throw e ->
  exists (before : list Tool) (tool : Tool) (after : list Tool),
    tools = before ++ tool :: after
    /\ Forall (fun t : Tool => exists parameters : json Number,
                 toJSONSchema (tool_schema t) = Normal parameters) before
    /\ toJSONSchema (tool_schema tool) = Throw e.
Proof.
  induction tools as [|tool rest IH]; cbn [OpenAIChat.push_tools];
    [discriminate|].
  unfold OpenAIChat.openai_tool.
  destruct (toJSONSchema (tool_schema tool)) as [parameters|e'] eqn:Ht.
  - destruct (push_tools rest) as [others|e'] eqn:Hr; [discriminate|].
    intros [= ->]. destruct (IH eq_refl) as (before & t & after & -> & Hb & Hs).
    exists (tool :: before), t, after. split; [reflexivity|].
    split; [|exact Hs]. constructor; [now exists parameters | exact Hb].
  - intros [= ->]. exists [], tool, rest. repeat split; [constructor | exact Ht].
Qed.

Lemma push_tools_fails (tools : list Tool) :
  is_throw (push_tools tools) = existsb unconvertible tools.
Proof.
  induction tools as [|tool rest IH];
    cbn [OpenAIChat.push_tools existsb]; [reflexivity|].
  unfold unconvertible at 1, OpenAIChat.openai_tool.
  destruct (toJSONSchema (tool_schema tool)); cbn; [|reflexivity].
  rewrite <- IH. now destruct (push_tools rest).
Qed.

(** The list of tools is empty when the tools are withheld or none was
    given, and is filled from the tools given otherwise. *)
Lemma openaiTools_by_heuristic (cfg : OpenAIConfig)
    (tools : option (list Tool)) :
  (tools_withheld cfg -> openaiTools cfg tools = Normal [])
  /\ (~ tools_withheld cfg ->
      openaiTools cfg tools = push_tools (optional_list tools)).
Proof.
  unfold OpenAIChat.openaiTools.
  destruct (disableTools cfg) eqn:Hd.
  - apply disableTools_withheld in Hd. split; [reflexivity | contradiction].
  - split; [|reflexivity]. intros Hw. apply disableTools_withheld in Hw.
    congruence.
Qed.

(** What a request says about the tools, given the list it was built
    from. *)
Lemma tools_sent (cfg : OpenAIConfig) (given : option (list Tool))
    (built : completion ChatRequest)
    (fill : list ChatCompletionTool -> ChatRequest) :
  (forall l, rq_tools (fill l) = tools_or_undefined l) ->
  built = match openaiTools cfg given with
          | Throw e => Throw e
          | Normal l => Normal (fill l)
          end ->
  let tools := optional_list given in
  (tools_withheld cfg \/ tools = [] ->
   exists request : ChatRequest,
     built = Normal request /\ rq_tools request = None)
  /\ (~ tools_withheld cfg -> tools <> [] ->
      (forall request : ChatRequest,
         built = Normal request ->
         exists sent : list ChatCompletionTool,
           rq_tools request = Some sent
           /\ Forall2 (fun (tool : Tool) (t : ChatCompletionTool) =>
                         fn_name t = tool_name tool
                         /\ fn_description t = tool_description tool
                         /\ toJSONSchema (tool_schema tool)
                            = Normal (fn_parameters t))
                tools sent)
      /\ (forall e : string,
            built = Throw e ->
            exists (before : list Tool) (tool : Tool) (after : list Tool),
              tools = before ++ tool :: after
              /\ Forall (fun t : Tool => exists parameters : json Number,
                           toJSONSchema (tool_schema t) = Normal parameters)
                   before
              /\ toJSONSchema (tool_schema tool) = Throw e)).
Proof.
  intros Hfill -> tools.
  destruct (openaiTools_by_heuristic cfg given) as [Hwith Hfree].
  split.
  - intros [Hw | Hnone].
    + rewrite (Hwith Hw). eexists. split; [reflexivity|]. now rewrite Hfill.
    + destruct (disableTools cfg) eqn:Hd.
      * apply disableTools_withheld in Hd. rewrite (Hwith Hd).
        eexists. split; [reflexivity|]. now rewrite Hfill.
      * unfold OpenAIChat.openaiTools. rewrite Hd.
        fold tools. rewrite Hnone. cbn.
        eexists. split; [reflexivity|]. now rewrite Hfill.
  - intros Hfree' Hsome. rewrite (Hfree Hfree'). fold tools. split.
    + intros request.
      destruct (push_tools tools) as [l|e] eqn:Hl; [|discriminate].
      intros [= <-]. rewrite Hfill.
      pose proof (push_tools_Forall2 _ _ Hl) as HF.
      destruct l as [|t l].
      * apply Forall2_length in HF. now destruct tools.
      * exists (t :: l). split; [reflexivity | exact HF].
    + intros e.
      destruct (push_tools tools) as [l|e'] eqn:Hl; [discriminate|].
      intros [= ->]. now apply push_tools_error.
Qed.

(** X20.  [generateText] and [streamText] decide alike which tools the
    request carries.  When the tools are withheld (the model name starts
    with [openrouter/] or the base URL contains [openrouter], and the model
    name contains neither [deepseek] nor [nex-agi] in any letter case), or
    when the caller gave no tool, the request is built without a [tools]
    key, and no tool schema is converted.  Otherwise every tool's schema is
    converted, in order: when all conversions succeed the request carries
    one function tool per tool given, in order, with its name, its
    description and its converted schema; when one throws, no request is
    built and the error is that of the first tool that fails. *)
Theorem requests_send_tools_by_heuristic (cfg : Config)
    (input : GenerateTextInput) :
  let tools := optional_list (text_tools input) in
  let sends (built : completion ChatRequest) : Prop :=
    (tools_withheld (openai cfg) \/ tools = [] ->
     exists request : ChatRequest,
       built = Normal request /\ rq_tools request = None)
    /\ (~ tools_withheld (openai cfg) -> tools <> [] ->
        (forall request : ChatRequest,
           built = Normal request ->
           exists sent : list ChatCompletionTool,
             rq_tools request = Some sent
             /\ Forall2 (fun (tool : Tool) (t : ChatCompletionTool) =>
                           fn_name t = tool_name tool
                           /\ fn_description t = tool_description tool
                           /\ toJSONSchema (tool_schema tool)
                              = Normal (fn_parameters t))
                  tools sent)
        /\ (forall e : string,
              built = Throw e ->
              exists (before : list Tool) (tool : Tool) (after : list Tool),
                tools = before ++ tool :: after
                /\ Forall (fun t : Tool => exists parameters : json Number,
                             toJSONSchema (tool_schema t) = Normal parameters)
                     before
                /\ toJSONSchema (tool_schema tool) = Throw e)) in
  sends (generateText_request cfg input)
  /\ sends (streamText_request cfg input).
Proof.
  cbn zeta. split.
  - eapply (tools_sent (openai cfg) (text_tools input));
      [|unfold OpenAIChat.generateText_request; reflexivity].
    reflexivity.
  - eapply (tools_sent (openai cfg) (text_tools input));
      [|unfold OpenAIChat.streamText_request; reflexivity].
    reflexivity.
Qed.

(** ** [generateText] *)

Lemma parse_tool_calls_fails (calls : list MessageToolCall) :
  is_throw (parse_tool_calls calls)
  = existsb (unparsable_call JSON_parse) calls.
Proof.
  induction calls as [|[id name arguments | ty id] rest IH];
    cbn [OpenAIChat.parse_tool_calls existsb unparsable_call];
    [reflexivity | | exact IH].
  destruct (JSON_parse arguments); cbn; [|reflexivity].
  rewrite <- IH. now destruct (parse_tool_calls rest).
Qed.

Lemma parse_tool_calls_error (calls : list MessageToolCall) (e : string) :
  parse_tool_calls calls = Throw e ->
  exists id name arguments : string,
    FunctionToolCall id name arguments ∈ calls
    /\ JSON_parse arguments = Throw e.
Proof.
  induction calls as [|[id name arguments | ty id] rest IH];
    cbn [OpenAIChat.parse_tool_calls]; [discriminate | |].
  - destruct (JSON_parse arguments) as [args|e'] eqn:Ha.
    + destruct (parse_tool_calls rest) as [parsed|e'] eqn:Hr;
        [discriminate|].
      intros [= ->]. destruct (IH eq_refl) as (i & n & a & Hin & Hp).
      exists i, n, a. split; [now apply list_elem_of_further | exact Hp].
    + intros [= ->]. exists id, name, arguments.
      split; [apply list_elem_of_here | exact Ha].
  - intros H. destruct (IH H) as (i & n & a & Hin & Hp).
    exists i, n, a. split; [now apply list_elem_of_further | exact Hp].
Qed.

Lemma parse_tool_calls_Forall2 (calls : list MessageToolCall)
    (parsed : list ToolCall) :
  parse_tool_calls calls = Normal parsed ->
  Forall2 (fun (call : string * string * string) (tc : ToolCall) =>
             tc_id tc = call.1.1 /\ tc_name tc = call.1.2
             /\ JSON_parse call.2 = Normal (tc_arguments tc))
          (function_calls calls) parsed.
Proof.
  revert parsed.
  induction calls as [|[id name arguments | ty id] rest IH]; intros parsed;
    cbn [OpenAIChat.parse_tool_calls function_calls].
  - intros [= <-]. constructor.
  - destruct (JSON_parse arguments) as [args|e] eqn:Ha; [|discriminate].
    destruct (parse_tool_calls rest) as [parsed'|e]; [|discriminate].
    intros [= <-]. constructor; [now repeat split | now apply IH].
  - apply IH.
Qed.

(** Building the request of [generateText] throws exactly when the tools
    are not withheld and one of them has a schema that cannot be
    converted. *)
Lemma generateText_request_fails (cfg : Config) (input : GenerateTextInput) :
  is_throw (generateText_request cfg input) = true
  <-> ~ tools_withheld (openai cfg)
      /\ exists tool : Tool,
           tool ∈ optional_list (text_tools input)
           /\ is_throw (toJSONSchema (tool_schema tool)) = true.
Proof.
  unfold OpenAIChat.generateText_request.
  destruct (openaiTools_by_heuristic (openai cfg) (text_tools input))
    as [Hwith Hfree].
  destruct (disableTools (openai cfg)) eqn:Hd.
  - apply disableTools_withheld in Hd. rewrite (Hwith Hd). cbn.
    split; [discriminate | now intros [Hn _]].
  - assert (Hn : ~ tools_withheld (openai cfg)).
    { intros Hw. apply disableTools_withheld in Hw. congruence. }
    rewrite (Hfree Hn).
    pose proof (push_tools_fails (optional_list (text_tools input))) as Hf.
    destruct (push_tools (optional_list (text_tools input))) as [l|e];
      cbn in Hf |- *.
    + split; [discriminate|]. intros [_ (tool & Hin & Ht)].
      symmetry in Hf. rewrite <- not_true_iff_false in Hf. exfalso.
      apply Hf. apply existsb_exists. exists tool.
      split; [now apply list_elem_of_In | exact Ht].
    + split; [|reflexivity]. intros _. split; [exact Hn|].
      symmetry in Hf. apply existsb_exists in Hf as (tool & Hin & Ht).
      exists tool. split; [now apply list_elem_of_In | exact Ht].
Qed.

(** X21.  [generateText] fails exactly when building the request throws,
    the API call fails, the answer has no choice, or a function call of the
    first choice carries arguments that [JSON.parse] rejects.  Building the
    request throws exactly when the tools are not withheld and a tool's
    schema cannot be converted; the call then fails with that error
    whatever the API would answer.  The API's error and the parse error
    reach the caller as they are; the missing choice is reported as "No
    response from OpenAI".  Unlike [streamText], [generateText] never
    replaces arguments it cannot parse by an empty object. *)
Theorem generateText_fails_exactly_when (cfg : Config)
    (input : GenerateTextInput)
    (create : ChatRequest -> completion Completion) :
  is_throw (generateText cfg input create)
  = match generateText_request cfg input with
    | Throw _ => true
    | Normal request =>
        match create request with
        | Throw _ => true
        | Normal response =>
            match completion_choices response with
            | [] => true
            | choice :: _ =>
                existsb (unparsable_call JSON_parse)
                  (optional_list (cm_tool_calls (message choice)))
            end
        end
    end
  /\ (is_throw (generateText_request cfg input) = true
      <-> ~ tools_withheld (openai cfg)
          /\ exists tool : Tool,
               tool ∈ optional_list (text_tools input)
               /\ is_throw (toJSONSchema (tool_schema tool)) = true)
  /\ (forall e : string,
        generateText_request cfg input = Throw e ->
        (forall answer : ChatRequest -> completion Completion,
           generateText cfg input answer = Throw e)
        /\ exists tool : Tool,
             tool ∈ optional_list (text_tools input)
             /\ toJSONSchema (tool_schema tool) = Throw e)
  /\ (forall e : string,
        generateText cfg input create = Throw e ->
        generateText_request cfg input = Throw e
        \/ exists request : ChatRequest,
             generateText_request cfg input = Normal request
             /\ (create request = Throw e
                 \/ exists response : Completion,
                      create request = Normal response
                      /\ ((completion_choices response = []
                           /\ e = Error "No response from OpenAI")
                          \/ exists (choice : CompletionChoice)
                               (others : list CompletionChoice)
                               (id name arguments : string),
                               completion_choices response = choice :: others
                               /\ FunctionToolCall id name arguments
                                  ∈ optional_list
                                      (cm_tool_calls (message choice))
                               /\ JSON_parse arguments = Throw e))).
Proof.
  split; [|split; [apply generateText_request_fails | split]].
  - unfold OpenAIChat.generateText.
    destruct (generateText_request cfg input) as [request|e']; [|reflexivity].
    destruct (create request) as [response|e']; [|reflexivity].
    destruct (completion_choices response) as [|choice others];
      [reflexivity|].
    pose proof (parse_tool_calls_fails
                  (optional_list (cm_tool_calls (message choice)))) as Hf.
    now destruct (parse_tool_calls
                    (optional_list (cm_tool_calls (message choice)))).
  - intros e Hreq. split.
    + intros answer. unfold OpenAIChat.generateText. now rewrite Hreq.
    + revert Hreq. unfold OpenAIChat.generateText_request.
      destruct (openaiTools (openai cfg) (text_tools input)) as [l|e'] eqn:Hl;
        [discriminate|].
      intros [= ->]. unfold OpenAIChat.openaiTools in Hl.
      destruct (disableTools (openai cfg)); [discriminate|].
      destruct (push_tools_error _ _ Hl) as (before & tool & after & Ht & _ & He).
      exists tool. split; [|exact He]. rewrite Ht.
      apply elem_of_app. right. apply list_elem_of_here.
  - unfold OpenAIChat.generateText.
    destruct (generateText_request cfg input) as [request|e'] eqn:Hreq.
    2: { intros e [= ->]. now left. }
    intros e He. right. exists request. split; [reflexivity|].
    destruct (create request) as [response|e'] eqn:Hc.
    2: { injection He as ->. now left. }
    right. exists response. split; [reflexivity|].
    destruct (completion_choices response) as [|choice others] eqn:Hch.
    { injection He as <-. now left. }
    right.
    destruct (parse_tool_calls
                (optional_list (cm_tool_calls (message choice))))
      as [parsed|e'] eqn:Hp; [discriminate|].
    injection He as ->.
    destruct (parse_tool_calls_error _ _ Hp) as (i & n & a & Hin & Ha).
    exists choice, others, i, n, a. auto.
Qed.

(** X22.  What [generateText] returns comes from the first choice alone:
    its content, its finish reason and, in order, its function calls with
    their ids, names and parsed arguments; tool calls of another type are
    left out. *)
Theorem generateText_returns_first_choice (cfg : Config)
    (input : GenerateTextInput)
    (create : ChatRequest -> completion Completion)
    (out : GenerateTextOutput) :
  generateText cfg input create = Normal out ->
  exists (request : ChatRequest) (response : Completion)
    (choice : CompletionChoice) (others : list CompletionChoice),
    generateText_request cfg input = Normal request
    /\ create request = Normal response
    /\ completion_choices response = choice :: others
    /\ out_content out = cm_content (message choice)
    /\ out_finishReason out = choice_finish_reason choice
    /\ Forall2 (fun (call : string * string * string) (tc : ToolCall) =>
                  tc_id tc = call.1.1 /\ tc_name tc = call.1.2
                  /\ JSON_parse call.2 = Normal (tc_arguments tc))
         (function_calls (optional_list (cm_tool_calls (message choice))))
         (out_toolCalls out).
Proof.
  unfold OpenAIChat.generateText.
  destruct (generateText_request cfg input) as [request|e] eqn:Hreq;
    [|discriminate].
  destruct (create request) as [response|e] eqn:Hc; [|discriminate].
  destruct (completion_choices response) as [|choice others] eqn:Hch;
    [discriminate|].
  destruct (parse_tool_calls (optional_list (cm_tool_calls (message choice))))
    as [parsed|e] eqn:Hp; [|discriminate].
  intros [= <-]. exists request, response, choice, others. cbn.
  split; [reflexivity|]. split; [exact Hc|]. split; [exact Hch|].
  split; [reflexivity|]. split; [reflexivity|].
  now apply parse_tool_calls_Forall2.
Qed.

(** ** The request of [generateObject] *)

Lemma with_content_role (p : Param) (content : string) :
  param_role (with_content p content) = param_role p
  /\ param_content (with_content p content) = content.
Proof. now destruct p. Qed.

(** X23.  In the degraded mode [generateObject] converts the schema to
    JSON Schema first; when that throws, the call fails with that error and
    no request is built.  Otherwise the request asks for a JSON object and
    opens with exactly one system message that ends with the schema
    instruction, the fixed text around the indented JSON Schema: a leading
    system message of the caller is extended by it, after an empty line,
    otherwise a new system message is put in front; every other message
    follows unchanged.  In the enforced mode the schema is handed to
    [zodResponseFormat]; when that throws no request is built, and
    otherwise its result is the response format and the converted messages
    are sent as they are. *)
Theorem generateObject_request_carries_schema (cfg : Config)
    (input : GenerateObjectInput) :
  let converted := convertToOpenAIMessages (object_messages input) in
  let built := generateObject_request cfg input in
  if needsJsonObjectMode (openai cfg) then
    match toJSONSchema (object_schema input) with
    | Throw e => built = Throw e
    | Normal schema =>
        let prompt :=
          "You MUST respond with valid JSON matching this exact schema. All fields are required unless marked optional:"
          +:+ LF +:+ JSON_stringify_indented schema +:+ LF +:+ LF
          +:+ "Respond ONLY with the JSON object, no additional text." in
        exists (request : ChatRequest) (first : Param) (rest : list Param),
          built = Normal request
          /\ rq_response_format request = Some JsonObjectFormat
          /\ rq_messages request = first :: rest
          /\ param_role first = "system"
          /\ ((first = system_message prompt /\ rest = converted
               /\ (forall old others,
                     converted = old :: others -> param_role old <> "system"))
              \/ exists old : Param,
                   converted = old :: rest
                   /\ param_role old = "system"
                   /\ first
                      = with_content old
                          (param_content old +:+ LF +:+ LF +:+ prompt))
    end
  else
    match zodResponseFormat (object_schema input) "object" with
    | Throw e => built = Throw e
    | Normal format =>
        exists request : ChatRequest,
          built = Normal request
          /\ rq_response_format request = Some (JsonSchemaFormat format)
          /\ rq_messages request = converted
    end.
Proof.
  cbn zeta.
  unfold OpenAIChat.generateObject_request, generateObject_messages,
    response_format.
  destruct (needsJsonObjectMode (openai cfg)).
  2: { destruct (zodResponseFormat (object_schema input) "object");
         [|reflexivity].
       eexists. split; [reflexivity|]. now split. }
  destruct (toJSONSchema (object_schema input)) as [schema|e]; [|reflexivity].
  unfold with_schema_prompt, schemaPrompt.
  destruct (convertToOpenAIMessages (object_messages input))
    as [|old others] eqn:Hconv.
  - eexists _, _, _. split; [reflexivity|]. cbn [rq_response_format rq_messages].
    split; [reflexivity|]. split; [reflexivity|]. split; [reflexivity|]. left.
    repeat split. intros old others [=].
  - destruct (String.eqb (param_role old) "system") eqn:Hrole.
    + apply String.eqb_eq in Hrole.
      eexists _, _, _. split; [reflexivity|].
      cbn [rq_response_format rq_messages].
      split; [reflexivity|]. split; [reflexivity|].
      split; [now rewrite (proj1 (with_content_role _ _))|].
      right. exists old. auto.
    + apply String.eqb_neq in Hrole.
      eexists _, _, _. split; [reflexivity|].
      cbn [rq_response_format rq_messages].
      split; [reflexivity|]. split; [reflexivity|]. split; [reflexivity|].
      left. repeat split. now intros old' others' [= <- <-].
Qed.
End Facts.

(** ** On concrete inputs *)

Lemma generateText_returns_first_choice_witness :
  exists (request : @ChatRequest nat) (response : Completion)
    (choice : CompletionChoice) (others : list CompletionChoice),
    generateText_request (fun _ => "{}") sample_toJSONSchema 1
      sample_config sample_text_input
    = Normal request
    /\ sample_create request = Normal response
    /\ completion_choices response = choice :: others
    /\ out_content sample_text_output = cm_content (message choice)
    /\ out_finishReason sample_text_output = choice_finish_reason choice
    /\ Forall2 (fun (call : string * string * string)
                  (tc : @OpenAILLM.ToolCall nat) =>
                  tc_id tc = call.1.1 /\ tc_name tc = call.1.2
                  /\ Samples.sample_JSON_parse call.2
                     = Normal (tc_arguments tc))
         (function_calls (optional_list (cm_tool_calls (message choice))))
         (out_toolCalls sample_text_output).
Proof.
  apply (generateText_returns_first_choice Samples.sample_JSON_parse
           (fun _ => "{}") sample_toJSONSchema 1 sample_config
           sample_text_input sample_create sample_text_output).
  reflexivity.
Defined.

End ChatFacts.
